(** * public-rpc-router: a shallow embedding of the routing control plane

    The development follows the TypeScript sources:
    - [src/utils/responseFormatter.ts]  ([formatRpcResponse])
    - [src/core/healthChecker.ts]       ([HealthChecker])
    - [src/core/rpcManager.ts]          ([RpcManager])
    - [src/services/rpc.service.ts]     ([RpcService])

    Redis is the shared key/value store; it is modelled as three finite
    maps, one per key prefix of [REDIS_KEYS].  The outside world (HTTP
    upstreams, the clock, the uuid generator, the configuration file) is
    an environment of oracles indexed by a counter that every consultation
    advances, so that two probes of one URL may answer differently. *)

From Stdlib Require Import ZArith NArith String Ascii List Lia Bool Sorted.
From stdpp Require Import gmap strings list fin_maps.

Local Open Scope Z_scope.

(** ** JavaScript values

    JSON documents after [JSON.parse], plus [undefined].  Numbers are
    integers here; objects are association lists read left to right. *)

#[local] Unset Elimination Schemes.
Inductive JsValue : Type :=
  | JUndefined
  | JNull
  | JBool (b : bool)
  | JNum (n : Z)
  | JStr (s : string)
  | JArr (items : list JsValue)
  | JObj (fields : list (string * JsValue)).
#[local] Set Elimination Schemes.

Fixpoint assoc_lookup (k : string) (fields : list (string * JsValue)) : JsValue :=
  match fields with
  | [] => JUndefined
  | (k', v) :: rest => if String.eqb k k' then v else assoc_lookup k rest
  end.

(** [v.k] for the property names used by the router ([id], [jsonrpc],
    [result], [error]): only plain objects carry them. *)
Definition get_prop (v : JsValue) (k : string) : JsValue :=
  match v with
  | JObj fields => assoc_lookup k fields
  | _ => JUndefined
  end.

(** [!!v] *)
Definition truthy (v : JsValue) : bool :=
  match v with
  | JUndefined | JNull => false
  | JBool b => b
  | JNum n => negb (n =? 0)
  | JStr s => negb (String.eqb s "")
  | JArr _ | JObj _ => true
  end.

(** [typeof v === 'object'] *)
Definition typeof_object (v : JsValue) : bool :=
  match v with
  | JNull | JArr _ | JObj _ => true
  | _ => false
  end.

(** ** Digits: [BigInt(s)] on [0x] literals and [toString(10)] *)

Module Digits.

Local Open Scope N_scope.

(** Least significant digit first; [fuel] bounds the number of digits. *)
Fixpoint digits_rev (fuel : nat) (b n : N) : list N :=
  match fuel with
  | O => []
  | S fuel' =>
      if n <? b then [n] else (n mod b) :: digits_rev fuel' b (n / b)
  end.

(** Most significant digit first, no leading zero (a single [0] for 0). *)
Definition toDigits (b n : N) : list N :=
  rev (digits_rev (S (N.to_nat (N.size n))) b n).

Definition digitChar (d : N) : ascii :=
  if d <? 10 then ascii_of_N (48 + d) else ascii_of_N (87 + d).

(** [n.toString(b)] for [b] = 10 or 16 *)
Definition toStringRadix (b n : N) : string :=
  string_of_list_ascii (map digitChar (toDigits b n)).

(** The value of a digit character, letters in either case. *)
Definition digitValue (c : ascii) : option N :=
  let k := N_of_ascii c in
  if (48 <=? k) && (k <=? 57) then Some (k - 48)
  else if (97 <=? k) && (k <=? 102) then Some (k - 87)
  else if (65 <=? k) && (k <=? 70) then Some (k - 55)
  else None.

(** Reads a run of digits of base [b] (at most 16), most significant first. *)
Fixpoint parseDigits (b : N) (s : string) (acc : N) : option N :=
  match s with
  | EmptyString => Some acc
  | String c rest =>
      match digitValue c with
      | Some d => if d <? b then parseDigits b rest (b * acc + d) else None
      | None => None
      end
  end.

(** The number a non-empty string of decimal digits stands for. *)
Definition decimalValue (s : string) : option N :=
  match s with
  | EmptyString => None
  | _ => parseDigits 10 s 0
  end.

(** Value of a digit list, least significant digit first. *)
Fixpoint value_rev (b : N) (ds : list N) : N :=
  match ds with
  | [] => 0
  | d :: r => d + b * value_rev b r
  end.

(** [StrWhiteSpaceChar] among the code units below 256: TAB, LF, VT, FF,
    CR, SP and NBSP. *)
Definition isStrWhiteSpaceChar (c : ascii) : bool :=
  let k := N_of_ascii c in
  ((9 <=? k) && (k <=? 13)) || (k =? 32) || (k =? 160).

Fixpoint trimEnd (s : string) : string :=
  match s with
  | EmptyString => EmptyString
  | String c rest =>
      match trimEnd rest with
      | EmptyString => if isStrWhiteSpaceChar c then EmptyString else String c EmptyString
      | rest' => String c rest'
      end
  end.

(** [s.startsWith('0x')] *)
Definition startsWith0x (s : string) : bool :=
  match s with
  | String "0" (String "x" _) => true
  | _ => false
  end.

Definition drop0x (s : string) : string :=
  match s with
  | String _ (String _ rest) => rest
  | _ => EmptyString
  end.

(** [BigInt(s)] for the strings the formatter hands to it, those that
    start with [0x]: surrounding white space is trimmed (none can lead),
    then [0x] must be followed by one or more hexadecimal digits.  [None]
    is the thrown [SyntaxError]. *)
Definition BigInt_0x (s : string) : option N :=
  match trimEnd (drop0x s) with
  | EmptyString => None
  | body => parseDigits 16 body 0
  end.

End Digits.

(** ** [src/utils/responseFormatter.ts] *)

Definition formatRpcResponse (response : JsValue) (sessionId : string) : JsValue :=
  if negb (truthy response) || negb (typeof_object response) then
    JObj [("error"%string, JStr "Invalid response format")]
  else
    let id := get_prop response "id" in
    let jsonrpc := get_prop response "jsonrpc" in
    let result := get_prop response "result" in
    let formattedResult :=
      match result with
      | JStr s =>
          if Digits.startsWith0x s then
            match Digits.BigInt_0x s with
            | Some n => JStr (Digits.toStringRadix 10 n)
            | None => JStr "Error converting result to decimal"
            end
          else result
      | _ => result
      end in
    JObj [("id"%string, id); ("jsonrpc"%string, jsonrpc);
          ("sessionId"%string, JStr sessionId); ("result"%string, formattedResult)].


(** ** [src/config/constants.ts] *)

Module REDIS_KEYS.
Definition HEALTH_SET : string := "rpc:health".
Definition SESSION_PREFIX : string := "rpc:session:".
Definition CHAIN_PREFIX : string := "rpc:chain:".
End REDIS_KEYS.

Module ERROR_MESSAGES.
Definition CHAIN_NOT_FOUND : string := "Chain not found".
Definition NO_HEALTHY_RPC : string := "No healthy RPC endpoints available".
Definition INVALID_REQUEST : string := "Invalid JSON-RPC request".
Definition INVALID_CONFIG : string := "Invalid RPC configuration format".
Definition FILE_NOT_FOUND : string := "RPC configuration file not found".
End ERROR_MESSAGES.

(** ** [src/types/index.ts] *)

(** A chain as stored under [rpc:chain:{chainId}].  The loader stores the
    file's element as it is, so [chainId] and [name] may be missing. *)
Record RpcConfig := {
  config_chainId : option Z;
  config_name : option string;
  config_urls : list string }.

Record RpcHealth := {
  health_url : string;
  healthy : bool;
  lastCheck : Z;
  responseTime : Z;
  failCount : Z }.

Record RpcSession := {
  session_id : string;
  session_url : string;
  session_chainId : Z;
  createdAt : Z;
  lastUsed : Z;
  requestCount : Z }.

(** An element of the file's [chains] array, before any check: each of the
    three keys may be absent. *)
Record RawChain := {
  raw_chainId : option Z;
  raw_name : option string;
  raw_urls : option (list string) }.

(** A JSON value that is not an array, or [undefined]. *)
Inductive NonArray : Type :=
  | NaUndefined
  | NaNull
  | NaBool (b : bool)
  | NaNum (n : Z)
  | NaStr (s : string)
  | NaObj (fields : list (string * JsValue)).

Definition value_of (v : NonArray) : JsValue :=
  match v with
  | NaUndefined => JUndefined
  | NaNull => JNull
  | NaBool b => JBool b
  | NaNum n => JNum n
  | NaStr s => JStr s
  | NaObj fields => JObj fields
  end.

(** What [configFile.chains] reads on a parsed file other than [null]: the
    array of the chain elements, or a value that is not an array,
    [undefined] when the file has no [chains] key (which is also the case
    of a file that is a number, a string, a boolean or an array). *)
Inductive ChainsValue : Type :=
  | NotArray (v : NonArray)
  | Elements (chains : list RawChain).

(** [!!chains]: an array, also the empty one, is truthy. *)
Definition chains_truthy (chains : ChainsValue) : bool :=
  match chains with
  | NotArray v => truthy (value_of v)
  | Elements _ => true
  end.

(** [Array.isArray(chains)] *)
Definition Array_isArray (chains : ChainsValue) : bool :=
  match chains with
  | NotArray _ => false
  | Elements _ => true
  end.

(** The elements of [chains] once [Array.isArray(chains)] holds. *)
Definition elements (chains : ChainsValue) : list RawChain :=
  match chains with
  | NotArray _ => []
  | Elements cs => cs
  end.

(** What [fs.readFile] followed by [JSON.parse] can give for [.rpc.json]:
    the read fails, the text is not JSON, the text is the JSON [null], or
    it is another value, given by what its [chains] member reads. *)
Inductive ConfigFile : Type :=
  | FileUnreadable
  | FileNotJson
  | FileNull
  | Parsed (chains : ChainsValue).

(** A file whose [chains] member is the array of the elements [cs]. *)
#[warnings="-notation-for-abbreviation"]
Notation ChainsArray cs := (Parsed (Elements cs)).

(** ** Thrown values *)

Inductive Exn : Type :=
  | Error (message : string)
  | TypeError
  | SyntaxError
  | FsError.

(** ** The outside world *)

(** The answer of an upstream to one POST: nothing at all (refused, timed
    out), or a status with the decoded body. *)
Inductive HttpOutcome : Type :=
  | NoResponse
  | Response (status : Z) (data : JsValue).

(** axios resolves exactly on a 2xx status, otherwise the promise rejects
    and [error.response] carries the answer when there is one. *)
Definition resolves (o : HttpOutcome) : bool :=
  match o with
  | NoResponse => false
  | Response status _ => (200 <=? status) && (status <? 300)
  end.

(** [environment] and the oracles.  The [nat] is the number of earlier
    consultations of the outside world. *)
Record Env := {
  maxFailCount : Z;
  configTtl : Z;
  healthTtl : Z;
  sessionTtl : Z;
  clock : nat -> Z;
  uuidv4 : nat -> string;
  http : nat -> string -> HttpOutcome;
  readFile : nat -> ConfigFile }.

(** Commands queued on [redis.multi()]. *)
Inductive Cmd : Type :=
  | Del (keys : list string)
  | HDel (field : string)
  | HSet (key : string) (config : RpcConfig)
  | Expire (key : string) (ttl : Z).

(** Ghost record of the calls whose order matters. *)
Inductive Event : Type :=
  | EvReload
  | EvProbe (url : string)
  | EvPost (url : string)
  | EvExec (queue : list Cmd).

(** Redis and the in-process state of [RpcManager].  A chain key holds a
    hash with the single field [config]; a TTL is the number of seconds
    last set on the key, if any. *)
Record World := {
  health : gmap string RpcHealth;
  healthExpire : option Z;
  chains : gmap string (option Z * RpcConfig);
  sessions : gmap string (Z * RpcSession);
  unhealthyErrors : list Z;
  tick : nat;
  trace : list Event }.

Definition set_health (f : gmap string RpcHealth -> gmap string RpcHealth) (w : World) : World :=
  {| health := f (health w); healthExpire := healthExpire w; chains := chains w;
     sessions := sessions w; unhealthyErrors := unhealthyErrors w;
     tick := tick w; trace := trace w |}.

Definition set_healthExpire (e : option Z) (w : World) : World :=
  {| health := health w; healthExpire := e; chains := chains w;
     sessions := sessions w; unhealthyErrors := unhealthyErrors w;
     tick := tick w; trace := trace w |}.

Definition set_chains (f : gmap string (option Z * RpcConfig) -> gmap string (option Z * RpcConfig))
    (w : World) : World :=
  {| health := health w; healthExpire := healthExpire w; chains := f (chains w);
     sessions := sessions w; unhealthyErrors := unhealthyErrors w;
     tick := tick w; trace := trace w |}.

Definition set_sessions (f : gmap string (Z * RpcSession) -> gmap string (Z * RpcSession))
    (w : World) : World :=
  {| health := health w; healthExpire := healthExpire w; chains := chains w;
     sessions := f (sessions w); unhealthyErrors := unhealthyErrors w;
     tick := tick w; trace := trace w |}.

Definition set_unhealthyErrors (l : list Z) (w : World) : World :=
  {| health := health w; healthExpire := healthExpire w; chains := chains w;
     sessions := sessions w; unhealthyErrors := l;
     tick := tick w; trace := trace w |}.

Definition set_tick (n : nat) (w : World) : World :=
  {| health := health w; healthExpire := healthExpire w; chains := chains w;
     sessions := sessions w; unhealthyErrors := unhealthyErrors w;
     tick := n; trace := trace w |}.

Definition set_trace (t : list Event) (w : World) : World :=
  {| health := health w; healthExpire := healthExpire w; chains := chains w;
     sessions := sessions w; unhealthyErrors := unhealthyErrors w;
     tick := tick w; trace := t |}.

Definition is_Some_bool {A} (o : option A) : bool :=
  match o with Some _ => true | None => false end.

(** ** Async code as a state and exception monad

    A throw keeps the writes made before it, as in the source. *)

Inductive Res (A : Type) : Type :=
  | Ok (a : A)
  | Throw (e : Exn).
Arguments Ok {A} a.
Arguments Throw {A} e.

Definition M (A : Type) : Type := World -> Res A * World.

(** The value of a run that returned. *)
Definition fst_ok {A} (r : Res A * World) : option A :=
  match fst r with
  | Ok a => Some a
  | Throw _ => None
  end.

Definition ret {A} (a : A) : M A := fun w => (Ok a, w).

Definition throw {A} (e : Exn) : M A := fun w => (Throw e, w).

Definition bind {A B} (c : M A) (k : A -> M B) : M B :=
  fun w =>
    match c w with
    | (Ok a, w') => k a w'
    | (Throw e, w') => (Throw e, w')
    end.

Notation "x <- c1 ;; c2" := (bind c1 (fun x => c2))
  (at level 100, c1 at next level, right associativity).
Notation "c1 ;; c2" := (bind c1 (fun _ => c2))
  (at level 100, right associativity).

Definition gets {A} (f : World -> A) : M A := fun w => (Ok (f w), w).

Definition modify (f : World -> World) : M unit := fun w => (Ok tt, f w).

Definition log (e : Event) : M unit :=
  modify (fun w => set_trace (trace w ++ [e]) w).

(** One consultation of the outside world. *)
Definition fresh : M nat :=
  fun w => (Ok (tick w), set_tick (S (tick w)) w).

(** [String(n)] for an integer [n] that a JavaScript number holds exactly
    and prints in full: the decimal numeral, which is what the template
    literal gives for every safe integer (magnitude at most [2^53 - 1]).
    Beyond that range integers are no longer distinct numbers, and from
    [10^21] on they are printed with an exponent. *)
Definition Number_toString (z : Z) : string :=
  if z <? 0 then String "-" (Digits.toStringRadix 10 (Z.to_N (- z)))
  else Digits.toStringRadix 10 (Z.to_N z).

(** The template [`${prefix}${chainId}`]. *)
Definition chainKey (chainId : option Z) : string :=
  REDIS_KEYS.CHAIN_PREFIX +:+
    match chainId with
    | Some z => Number_toString z
    | None => "undefined"
    end.

Definition sessionKey (sessionId : string) : string :=
  REDIS_KEYS.SESSION_PREFIX +:+ sessionId.

(** ** [Array.prototype.sort] with the comparator [key a - key b]

    The sort is stable; an insertion sort that puts an element before the
    first one that is not smaller has that behaviour. *)

Fixpoint sort_insert {A} (key : A -> Z) (x : A) (l : list A) : list A :=
  match l with
  | [] => [x]
  | y :: l' => if key x <=? key y then x :: y :: l' else y :: sort_insert key x l'
  end.

Fixpoint sort_by {A} (key : A -> Z) (l : list A) : list A :=
  match l with
  | [] => []
  | x :: l' => sort_insert key x (sort_by key l')
  end.

(** ** Redis transactions *)

Definition apply_cmd (c : Cmd) (w : World) : World :=
  match c with
  | Del keys => set_chains (fun m => foldr (fun k acc => delete k acc) m keys) w
  | HDel field =>
      let h := delete field (health w) in
      let w' := set_health (fun _ => h) w in
      if decide (h = ∅) then set_healthExpire None w' else w'
  | HSet key config =>
      set_chains (fun m =>
        match m !! key with
        | Some (ttl, _) => <[key := (ttl, config)]> m
        | None => <[key := (None, config)]> m
        end) w
  | Expire key ttl =>
      if String.eqb key REDIS_KEYS.HEALTH_SET then
        if decide (health w = ∅) then w else set_healthExpire (Some ttl) w
      else
        set_chains (fun m =>
          match m !! key with
          | Some (_, config) => <[key := (Some ttl, config)]> m
          | None => m
          end) w
  end.

(** [multi.exec()]: the queue is applied in order, as one unit. *)
Definition exec (queue : list Cmd) : M unit :=
  log (EvExec queue) ;;
  modify (fun w => fold_left (fun acc c => apply_cmd c acc) queue w).

Section Router.

Variable E : Env.

Definition Date_now : M Z := t <- fresh ;; ret (clock E t).

Definition axios_post (url : string) : M HttpOutcome :=
  t <- fresh ;; ret (http E t url).

(** *** [src/core/healthChecker.ts] *)

Definition updateHealthStatus (h : RpcHealth) : M unit :=
  modify (set_health (fun m => <[health_url h := h]> m)).

Definition incrementFailCount (url : string) : M Z :=
  currentHealth <- gets (fun w => health w !! url) ;;
  match currentHealth with
  | Some h => ret (failCount h + 1)
  | None => ret 1
  end.

(** [response.data?.result !== undefined] *)
Definition has_result (data : JsValue) : bool :=
  match get_prop data "result" with
  | JUndefined => false
  | _ => true
  end.

Definition checkHealth (url : string) : M RpcHealth :=
  log (EvProbe url) ;;
  startTime <- Date_now ;;
  o <- axios_post url ;;
  match o with
  | Response status data =>
      if resolves o then
        let isHealthy := (status =? 200) && has_result data in
        now <- Date_now ;;
        endTime <- Date_now ;;
        let h := {| health_url := url; healthy := isHealthy; lastCheck := now;
                    responseTime := endTime - startTime; failCount := 0 |} in
        updateHealthStatus h ;;
        ret h
      else
        now <- Date_now ;;
        endTime <- Date_now ;;
        n <- incrementFailCount url ;;
        let h := {| health_url := url; healthy := false; lastCheck := now;
                    responseTime := endTime - startTime; failCount := n |} in
        updateHealthStatus h ;;
        ret h
  | NoResponse =>
      now <- Date_now ;;
      endTime <- Date_now ;;
      n <- incrementFailCount url ;;
      let h := {| health_url := url; healthy := false; lastCheck := now;
                  responseTime := endTime - startTime; failCount := n |} in
      updateHealthStatus h ;;
      ret h
  end.

(** *** [src/core/rpcManager.ts] *)

Definition ERROR_THRESHOLD : nat := 3.
Definition ERROR_TIME_WINDOW : Z := 10000.

Fixpoint forEach {A} (f : A -> M unit) (l : list A) : M unit :=
  match l with
  | [] => ret tt
  | x :: l' => f x ;; forEach f l'
  end.

(** [configFile.chains.forEach(chain => chain.urls.forEach(url => newUrls.add(url)))]:
    reading [forEach] of a missing [urls] is a [TypeError]. *)
Fixpoint collectUrls (cs : list RawChain) (newUrls : gset string) : M (gset string) :=
  match cs with
  | [] => ret newUrls
  | chain :: cs' =>
      match raw_urls chain with
      | None => throw TypeError
      | Some us => collectUrls cs' (newUrls ∪ list_to_set us)
      end
  end.

(** The loop over [configFile.chains]: two commands are queued per chain,
    and every URL of the chain is probed there and then. *)
Fixpoint loadChains (cs : list RawChain) (multi : list Cmd) : M (list Cmd) :=
  match cs with
  | [] => ret multi
  | config :: cs' =>
      let key := chainKey (raw_chainId config) in
      match raw_urls config with
      | None => throw TypeError
      | Some us =>
          let stored := {| config_chainId := raw_chainId config;
                           config_name := raw_name config;
                           config_urls := us |} in
          let multi' := multi ++ [HSet key stored; Expire key (configTtl E)] in
          forEach (fun url => checkHealth url ;; ret tt) us ;;
          loadChains cs' multi'
      end
  end.

Definition loadRpcConfig : M unit :=
  log EvReload ;;
  t <- fresh ;;
  match readFile E t with
  | FileUnreadable => throw FsError
  | FileNotJson => throw SyntaxError
  | FileNull => throw TypeError
  | Parsed configFile_chains =>
      if negb (chains_truthy configFile_chains) || negb (Array_isArray configFile_chains) then
        throw (Error ERROR_MESSAGES.INVALID_CONFIG)
      else
        let cs := elements configFile_chains in
        currentUrls <- gets (fun w => (map_to_list (health w)).*1) ;;
        newUrls <- collectUrls cs ∅ ;;
        let urlsToRemove := filter (fun url => url ∉ newUrls) currentUrls in
        existingKeys <- gets (fun w => (map_to_list (chains w)).*1) ;;
        let multi0 := match existingKeys with [] => [] | _ => [Del existingKeys] end in
        let multi1 := multi0 ++ map HDel urlsToRemove in
        multi2 <- loadChains cs multi1 ;;
        exec (multi2 ++ [Expire REDIS_KEYS.HEALTH_SET (healthTtl E)])
  end.

Definition checkForceReload : M unit :=
  now <- Date_now ;;
  old <- gets unhealthyErrors ;;
  let kept := filter (fun timestamp => now - timestamp <= ERROR_TIME_WINDOW) old in
  let pushed := kept ++ [now] in
  modify (set_unhealthyErrors pushed) ;;
  if (ERROR_THRESHOLD <=? length pushed)%nat then
    modify (set_unhealthyErrors []) ;;
    loadRpcConfig
  else ret tt.

Definition getChainConfig (chainId : Z) : M (option RpcConfig) :=
  gets (fun w => snd <$> chains w !! chainKey (Some chainId)).

(** [health.healthy && health.failCount < maxFailCount] on
    [JSON.parse(healthData[url] || '{}')] *)
Definition eligible (healthData : gmap string RpcHealth) (url : string) : bool :=
  match healthData !! url with
  | Some h => healthy h && (failCount h <? maxFailCount E)
  | None => false
  end.

(** [JSON.parse(healthData[a]).responseTime]; every sorted URL has a record. *)
Definition responseTimeOf (healthData : gmap string RpcHealth) (url : string) : Z :=
  match healthData !! url with
  | Some h => responseTime h
  | None => 0
  end.

Definition getHealthyRpcUrl (chainId : Z) : M string :=
  config <- getChainConfig chainId ;;
  match config with
  | None => throw (Error ERROR_MESSAGES.CHAIN_NOT_FOUND)
  | Some config =>
      healthData <- gets health ;;
      let healthyUrls := List.filter (eligible healthData) (config_urls config) in
      if (length healthyUrls =? 0)%nat then
        checkForceReload ;;
        throw (Error ERROR_MESSAGES.NO_HEALTHY_RPC)
      else
        let urlsByResponseTime := sort_by (responseTimeOf healthData) healthyUrls in
        (* [urlsByResponseTime[0]]; the sorted array is as long as [healthyUrls],
           so the default is never used *)
        ret (hd ""%string urlsByResponseTime)
  end.

Definition createSession (chainId : Z) : M RpcSession :=
  url <- getHealthyRpcUrl chainId ;;
  t <- fresh ;;
  created <- Date_now ;;
  used <- Date_now ;;
  let session := {| session_id := uuidv4 E t; session_url := url;
                    session_chainId := chainId; createdAt := created;
                    lastUsed := used; requestCount := 0 |} in
  modify (set_sessions (fun m => <[sessionKey (session_id session) := (sessionTtl E, session)]> m)) ;;
  ret session.

Definition getSession (sessionId : string) : M (option RpcSession) :=
  gets (fun w => snd <$> sessions w !! sessionKey sessionId).

Definition updateSession (session : RpcSession) : M unit :=
  now <- Date_now ;;
  let session' := {| session_id := session_id session; session_url := session_url session;
                     session_chainId := session_chainId session;
                     createdAt := createdAt session; lastUsed := now;
                     requestCount := requestCount session + 1 |} in
  modify (set_sessions (fun m => <[sessionKey (session_id session) := (sessionTtl E, session')]> m)).

Definition deleteSession (sessionId : string) : M unit :=
  modify (set_sessions (fun m => delete (sessionKey sessionId) m)).

Record ChainStats := {
  totalSessions : nat;
  activeUrls : nat;
  healthyUrls : nat;
  (** the mean as the pair (sum, count); (0, 1) when there is no record *)
  averageResponseTime : Z * Z }.

(** The loop over [sessionKeys]: one more for every stored session whose
    [chainId] is the requested one. *)
Definition countChainSessions (chainId : Z) (stored : list (string * (Z * RpcSession))) : nat :=
  length (List.filter (fun kv => session_chainId (snd (snd kv)) =? chainId) stored).

Definition getChainStats (chainId : Z) : M ChainStats :=
  config <- getChainConfig chainId ;;
  match config with
  | None => throw (Error ERROR_MESSAGES.CHAIN_NOT_FOUND)
  | Some config =>
      healthData <- gets health ;;
      stored <- gets (fun w => map_to_list (sessions w)) ;;
      let chainSessions := countChainSessions chainId stored in
      let urlHealths :=
        List.filter (fun h => negb (String.eqb (health_url h) ""))
          (omap (fun url => healthData !! url) (config_urls config)) in
      let healthyCount :=
        length (List.filter (fun h => healthy h && (failCount h <? maxFailCount E)) urlHealths) in
      let average :=
        match urlHealths with
        | [] => (0, 1)
        | _ => (foldl (fun sum h => sum + responseTime h) 0 urlHealths,
                Z.of_nat (length urlHealths))
        end in
      ret {| totalSessions := chainSessions; activeUrls := length urlHealths;
             healthyUrls := healthyCount; averageResponseTime := average |}
  end.

(** *** [src/services/rpc.service.ts] *)

Definition getEndpoint (chainId : Z) : M string :=
  session <- createSession chainId ;;
  ret (session_url session).

(** The first half of [executeRequest]: which session the call is bound to.
    [sessionId] is the [x-session-id] header; the empty string is falsy. *)
Definition resolveSession (chainId : Z) (sessionId : option string) : M RpcSession :=
  match sessionId with
  | Some sid =>
      if String.eqb sid "" then createSession chainId
      else
        existingSession <- getSession sid ;;
        match existingSession with
        | None => throw (Error "Invalid session ID")
        | Some existing =>
            if negb (session_chainId existing =? chainId) then
              deleteSession sid ;;
              createSession chainId
            else ret existing
        end
  | None => createSession chainId
  end.

(** The second half: the POST and what follows it. *)
Definition forward (session : RpcSession) : M JsValue :=
  log (EvPost (session_url session)) ;;
  o <- axios_post (session_url session) ;;
  if resolves o then
    match o with
    | Response _ data =>
        updateSession session ;;
        ret (formatRpcResponse data (session_id session))
    | NoResponse => throw (Error ERROR_MESSAGES.NO_HEALTHY_RPC)
    end
  else
    checkHealth (session_url session) ;;
    match o with
    | Response _ data =>
        if truthy data then ret (formatRpcResponse data (session_id session))
        else throw (Error ERROR_MESSAGES.NO_HEALTHY_RPC)
    | NoResponse => throw (Error ERROR_MESSAGES.NO_HEALTHY_RPC)
    end.

Definition executeRequest (chainId : Z) (rpcRequest : JsValue) (sessionId : option string)
    : M JsValue :=
  session <- resolveSession chainId sessionId ;;
  forward session.

End Router.


(** ** Vocabulary of the properties *)

(** [u] is the first element of [l] with the smallest key. *)
Definition first_min {A} (key : A -> Z) (l : list A) (u : A) : Prop :=
  exists before after,
    l = before ++ u :: after /\
    (forall v, In v before -> key u < key v) /\
    (forall v, In v after -> key u <= key v).

(** A probe is successful iff the transport returns HTTP 200 and the
    decoded body has a defined [result] field. *)
Definition probe_successful (o : HttpOutcome) : bool :=
  match o with
  | NoResponse => false
  | Response status data => (status =? 200) && has_result data
  end.

(** The record one call of [checkHealth] writes, read off the oracles: the
    call consults the clock, the upstream, then the clock twice more. *)
Definition probe_record (E : Env) (url : string) (w : World) : RpcHealth :=
  let o := http E (S (tick w)) url in
  {| health_url := url;
     healthy := probe_successful o;
     lastCheck := clock E (2 + tick w)%nat;
     responseTime := clock E (3 + tick w)%nat - clock E (tick w);
     failCount :=
       if resolves o then 0
       else match health w !! url with
            | Some previous => failCount previous + 1
            | None => 1
            end |}.

(** The world one call of [checkHealth] leaves. *)
Definition after_probe (E : Env) (url : string) (w : World) : World :=
  {| health := <[url := probe_record E url w]> (health w);
     healthExpire := healthExpire w;
     chains := chains w;
     sessions := sessions w;
     unhealthyErrors := unhealthyErrors w;
     tick := (4 + tick w)%nat;
     trace := trace w ++ [EvProbe url] |}.

(** The world a sequence of probes leaves. *)
Definition after_probes (E : Env) (urls : list string) (w : World) : World :=
  fold_left (fun acc url => after_probe E url acc) urls w.

(** Reading the file's chains: whether every element has [urls], the URLs in
    file order, and the two commands queued per chain. *)
Definition urls_present (cs : list RawChain) : bool :=
  forallb (fun c => is_Some_bool (raw_urls c)) cs.

Definition file_urls (cs : list RawChain) : list string :=
  concat (map (fun c => default [] (raw_urls c)) cs).

Definition chain_cmds (E : Env) (cs : list RawChain) : list Cmd :=
  concat (map (fun c =>
    [HSet (chainKey (raw_chainId c))
          {| config_chainId := raw_chainId c; config_name := raw_name c;
             config_urls := default [] (raw_urls c) |};
     Expire (chainKey (raw_chainId c)) (configTtl E)]) cs).

(** The queue a reload submits, from the world at its start. *)
Definition reload_queue (E : Env) (w : World) (cs : list RawChain) : list Cmd :=
  match (map_to_list (chains w)).*1 with
  | [] => []
  | _ :: _ => [Del (map_to_list (chains w)).*1]
  end
  ++ map HDel (filter (fun url => url ∉ (list_to_set (file_urls cs) : gset string))
                      (map_to_list (health w)).*1)
  ++ chain_cmds E cs
  ++ [Expire REDIS_KEYS.HEALTH_SET (healthTtl E)].

(** The world once a reload has started: the call is recorded and the file
    has been read. *)
Definition reload_started (w : World) : World :=
  set_tick (S (tick w)) (set_trace (trace w ++ [EvReload]) w).

(** The world [multi.exec()] leaves. *)
Definition committed (queue : list Cmd) (w : World) : World :=
  fold_left (fun acc c => apply_cmd c acc) queue (set_trace (trace w ++ [EvExec queue]) w).

(** [healthy = true] implies [failCount = 0], for every record of the hash. *)
Definition health_inv (w : World) : Prop :=
  forall url h, health w !! url = Some h -> healthy h = true -> failCount h = 0.

(** The executable form of [health_inv]. *)
Definition health_inv_b (w : World) : bool :=
  forallb (fun kv => implb (healthy (snd kv)) (failCount (snd kv) =? 0))
          (map_to_list (health w)).

(** In a run's events, every probe comes after the commit of the
    transaction. *)
Definition probes_follow_commit (run : list Event) : Prop :=
  forall i j url queue,
    run !! i = Some (EvProbe url) -> run !! j = Some (EvExec queue) -> (j < i)%nat.

(** In a run's events, every probe comes before the commit. *)
Definition probes_precede_commit (run : list Event) : Prop :=
  forall i j url queue,
    run !! i = Some (EvProbe url) -> run !! j = Some (EvExec queue) -> (i < j)%nat.

(** The rejection conditions in the words of the specification: the
    [chains] key is missing (as it is in the JSON [null]), its value is not
    an array, or some element misses [chainId], [name] or [urls]. *)
Definition spec_rejected (f : ConfigFile) : bool :=
  match f with
  | FileNull | Parsed (NotArray _) => true
  | ChainsArray cs =>
      existsb (fun c =>
        negb (is_Some_bool (raw_chainId c)) || negb (is_Some_bool (raw_name c))
        || negb (is_Some_bool (raw_urls c))) cs
  | FileUnreadable | FileNotJson => false
  end.

(** The first rejection condition in those words: there is no [chains] key. *)
Definition chains_key_missing (chains : ChainsValue) : bool :=
  match chains with
  | NotArray NaUndefined => true
  | _ => false
  end.

(** The part of the world that lives in Redis. *)
Definition same_kv (w w' : World) : Prop :=
  health w' = health w /\ healthExpire w' = healthExpire w /\
  chains w' = chains w /\ sessions w' = sessions w.

(** The window after one failed selection: stale entries dropped, one
    entry pushed. *)
Definition window_pushed (E : Env) (w : World) : list Z :=
  filter (fun timestamp => clock E (tick w) - timestamp <= ERROR_TIME_WINDOW)
         (unhealthyErrors w) ++ [clock E (tick w)].

(** The world once the forwarded POST to [url] has been made. *)
Definition posted (url : string) (w : World) : World :=
  set_tick (S (tick w)) (set_trace (trace w ++ [EvPost url]) w).

(** What the executor answers when the forwarded POST has failed. *)
Definition failure_reply (o : HttpOutcome) (sessionId : string) : Res JsValue :=
  match o with
  | Response _ data =>
      if truthy data then Ok (formatRpcResponse data sessionId)
      else Throw (Error ERROR_MESSAGES.NO_HEALTHY_RPC)
  | NoResponse => Throw (Error ERROR_MESSAGES.NO_HEALTHY_RPC)
  end.

(** The session record [updateSession] writes at clock index [t]. *)
Definition touched (E : Env) (t : nat) (session : RpcSession) : RpcSession :=
  {| session_id := session_id session; session_url := session_url session;
     session_chainId := session_chainId session; createdAt := createdAt session;
     lastUsed := clock E t; requestCount := requestCount session + 1 |}.

(** The session record [createSession] writes for [url] from tick [t]. *)
Definition created (E : Env) (t : nat) (chainId : Z) (url : string) : RpcSession :=
  {| session_id := uuidv4 E t; session_url := url; session_chainId := chainId;
     createdAt := clock E (S t); lastUsed := clock E (S (S t)); requestCount := 0 |}.

(** [c] keeps the property [P] of the world, whether it returns or throws. *)
Definition preserves (P : World -> Prop) {A} (c : M A) : Prop :=
  forall w, P w -> P (snd (c w)).

(** Properties that the bookkeeping of the router, the probes and the
    queued commands cannot break. *)
Class Stable (P : World -> Prop) : Prop := {
  stable_tick : forall n w, P w -> P (set_tick n w);
  stable_trace : forall t w, P w -> P (set_trace t w);
  stable_window : forall l w, P w -> P (set_unhealthyErrors l w);
  stable_probe : forall E url w, P w -> P (after_probe E url w);
  stable_cmd : forall c w, P w -> P (apply_cmd c w) }.

(** ** Concrete worlds used in the examples *)

Module Scenario.

Definition record (url : string) (ok : bool) (rt fc : Z) : RpcHealth :=
  {| health_url := url; healthy := ok; lastCheck := 0; responseTime := rt; failCount := fc |}.

Definition chain1 : RpcConfig :=
  {| config_chainId := Some 1; config_name := Some "mainnet"%string;
     config_urls := ["A"; "B"; "C"]%string |}.

Definition session1 : RpcSession :=
  {| session_id := "s1"; session_url := "A"; session_chainId := 1;
     createdAt := 900; lastUsed := 900; requestCount := 4 |}.

(** Chain 1 with [A] and [B] healthy at the same speed and [C] failing;
    one session [s1] pinned to [A]. *)
Definition world1 : World :=
  {| health := <["A"%string := record "A" true 10 0]>
               (<["B"%string := record "B" true 10 0]>
               (<["C"%string := record "C" false 5 2]> ∅));
     healthExpire := Some 3600;
     chains := <[chainKey (Some 1) := (Some 86400, chain1)]> ∅;
     sessions := <[sessionKey "s1" := (3600, session1)]> ∅;
     unhealthyErrors := [];
     tick := 0;
     trace := [] |}.

(** Chain 1 collapsed: no URL is eligible, and two selections failed within
    the last ten seconds. *)
Definition world_collapsed : World :=
  {| health := <["A"%string := record "A" false 10 3]> ∅;
     healthExpire := Some 3600;
     chains := <[chainKey (Some 1) := (Some 86400, chain1)]> ∅;
     sessions := ∅;
     unhealthyErrors := [995; 998];
     tick := 0;
     trace := [] |}.

(** Chain 1 with no eligible URL and an empty collapse window. *)
Definition world_unhealthy : World :=
  {| health := <["A"%string := record "A" false 10 3]> ∅;
     healthExpire := Some 3600;
     chains := <[chainKey (Some 1) := (Some 86400, chain1)]> ∅;
     sessions := ∅;
     unhealthyErrors := [];
     tick := 0;
     trace := [] |}.

Definition chain137 : RpcConfig :=
  {| config_chainId := Some 137; config_name := Some "polygon"%string;
     config_urls := ["P"%string] |}.

(** [world1] with a second chain, 137, whose URL [P] is healthy. *)
Definition world2 : World :=
  {| health := <["P"%string := record "P" true 20 0]> (health world1);
     healthExpire := Some 3600;
     chains := <[chainKey (Some 137) := (Some 86400, chain137)]> (chains world1);
     sessions := sessions world1;
     unhealthyErrors := [];
     tick := 0;
     trace := [] |}.

(** A JSON-RPC error reply. *)
Definition error_body : JsValue :=
  JObj [("jsonrpc"%string, JStr "2.0"); ("id"%string, JNum 1);
        ("error"%string,
         JObj [("code"%string, JNum (-32000)); ("message"%string, JStr "execution reverted")])].

Definition env_of (net : nat -> string -> HttpOutcome) (file : ConfigFile) : Env :=
  {| maxFailCount := 3; configTtl := 86400; healthTtl := 3600; sessionTtl := 3600;
     clock := fun t => 1000 + Z.of_nat t;
     uuidv4 := fun t => ("uuid-" +:+ Number_toString (Z.of_nat t))%string;
     http := net;
     readFile := fun _ => file |}.

(** An upstream that answers every POST with HTTP 200 and a JSON-RPC error. *)
Definition env_error_200 : Env :=
  env_of (fun _ _ => Response 200 error_body) FileUnreadable.

(** An upstream that answers every POST with HTTP 500 and a JSON-RPC error. *)
Definition env_error_500 : Env :=
  env_of (fun _ _ => Response 500 error_body) FileUnreadable.

(** Nothing answers; the file holds chain 1 with the single URL [A]. *)
Definition file_one_url : ConfigFile :=
  ChainsArray [{| raw_chainId := Some 1; raw_name := Some "mainnet"%string;
                  raw_urls := Some ["A"%string] |}].

Definition env_reload : Env := env_of (fun _ _ => NoResponse) file_one_url.

(** The file's only element has no [name]. *)
Definition file_no_name : ConfigFile :=
  ChainsArray [{| raw_chainId := Some 7; raw_name := None;
                  raw_urls := Some ["D"%string] |}].

Definition env_no_name : Env := env_of (fun _ _ => NoResponse) file_no_name.

(** What the reload of [file_one_url] queues from [world1]. *)
Definition queue_one_url : list Cmd :=
  reload_queue env_reload (reload_started world1)
    [{| raw_chainId := Some 1; raw_name := Some "mainnet"%string;
        raw_urls := Some ["A"%string] |}].

(** The file has lost its [chains] key. *)
Definition env_broken_file : Env :=
  env_of (fun _ _ => NoResponse) (Parsed (NotArray NaUndefined)).

(** Nothing answers and the file cannot be read. *)
Definition env_down : Env := env_of (fun _ _ => NoResponse) FileUnreadable.

End Scenario.

(** ** The rest of the router

    The periodic tasks, the session sweep, the read projections, the request
    validator and the HTTP surface of [src/routes]. *)

Section RouterRest.

Variable E : Env.

(** *** [src/core/healthChecker.ts]: the callback of [startHealthCheck] *)

(** One firing of the interval: every URL of the health hash is probed, in
    the order [hGetAll] lists them. *)
Definition healthCheckTick : M unit :=
  healthData <- gets (fun w => map_to_list (health w)) ;;
  forEach (fun entry => checkHealth E (fst entry) ;; ret tt) healthData.

(** *** [src/core/rpcManager.ts]: change detection *)

(** [hasConfigChanged]: [stat] is the modification time [fs.stat] gives, or
    [None] when it throws; the second component is [configLastModified]
    afterwards. *)
Definition hasConfigChanged (stat : option Z) (configLastModified : option Z)
    : bool * option Z :=
  match stat with
  | None => (false, configLastModified)
  | Some mtime =>
      match configLastModified with
      | None => (true, Some mtime)
      | Some last =>
          if last <? mtime then (true, Some mtime) else (false, configLastModified)
      end
  end.

(** The callback of [startConfigRefresh]: an error of the reload is logged
    and goes no further. *)
Definition configRefreshTick (stat : option Z) (configLastModified : option Z)
    (w : World) : option Z * World :=
  let (hasChanged, configLastModified') := hasConfigChanged stat configLastModified in
  if hasChanged then (configLastModified', snd (loadRpcConfig E w))
  else (configLastModified', w).

(** *** [src/core/rpcManager.ts]: the session sweep *)

(** The loop of [cleanupSessions] over [sessionKeys]; the clock is read once
    per stored session. *)
Fixpoint cleanupLoop (sessionKeys : list string) (cleanedCount : nat) : M nat :=
  match sessionKeys with
  | [] => ret cleanedCount
  | key :: rest =>
      sessionJson <- gets (fun w => sessions w !! key) ;;
      match sessionJson with
      | None => cleanupLoop rest cleanedCount
      | Some (_, session) =>
          currentTime <- Date_now E ;;
          if sessionTtl E * 1000 <? currentTime - lastUsed session then
            modify (set_sessions (fun m => delete key m)) ;;
            cleanupLoop rest (S cleanedCount)
          else cleanupLoop rest cleanedCount
      end
  end.

Definition cleanupSessions : M unit :=
  sessionKeys <- gets (fun w => (map_to_list (sessions w)).*1) ;;
  cleanedCount <- cleanupLoop sessionKeys 0 ;;
  ret tt.

(** *** [src/core/rpcManager.ts]: the read projections *)

(** [configs.sort((a, b) => a.chainId - b.chainId)].  Without a [chainId]
    the comparator yields [NaN] and the order is left to the engine: that
    order is not modelled, the result is then [None]. *)
Definition getAllChainConfigs : M (option (list RpcConfig)) :=
  stored <- gets (fun w => (map_to_list (chains w)).*2.*2) ;;
  if forallb (fun c => is_Some_bool (config_chainId c)) stored then
    ret (Some (sort_by (fun c => default 0 (config_chainId c)) stored))
  else ret None.

Record UrlDetail := {
  detail_url : string;
  detail_healthy : bool;
  detail_failCount : Z;
  detail_responseTime : Z;
  detail_lastCheck : Z }.

(** The [map] of [getUrlDetails]: a URL without a record gets the defaults,
    and [new Date()] for [lastCheck]. *)
Fixpoint urlDetails (healthData : gmap string RpcHealth) (urls : list string)
    : M (list UrlDetail) :=
  match urls with
  | [] => ret []
  | url :: rest =>
      detail <-
        match healthData !! url with
        | Some h =>
            ret {| detail_url := url; detail_healthy := healthy h;
                   detail_failCount := failCount h;
                   detail_responseTime := responseTime h;
                   detail_lastCheck := lastCheck h |}
        | None =>
            now <- Date_now E ;;
            ret {| detail_url := url; detail_healthy := false; detail_failCount := 0;
                   detail_responseTime := 0; detail_lastCheck := now |}
        end ;;
      details <- urlDetails healthData rest ;;
      ret (detail :: details)
  end.

Definition getUrlDetails (chainId : Z) : M (list UrlDetail) :=
  config <- getChainConfig chainId ;;
  match config with
  | None => throw (Error "Chain not found")
  | Some config =>
      healthData <- gets health ;;
      urlDetails healthData (config_urls config)
  end.

End RouterRest.

(** *** [utils/helpers]: the JSON-RPC request validator *)

Definition validateJsonRpcRequest (body : JsValue) : bool :=
  truthy body
  && typeof_object body
  && match get_prop body "jsonrpc" with JStr v => String.eqb v "2.0" | _ => false end
  && match get_prop body "method" with JStr _ => true | _ => false end
  && match get_prop body "id" with JUndefined => false | _ => true end
  && match get_prop body "params" with JUndefined | JArr _ => true | _ => false end.

(** *** [src/middleware/errorHandler.ts] and [src/routes/rpc.routes.ts] *)

Module HTTP_STATUS.
Definition OK : Z := 200.
Definition BAD_REQUEST : Z := 400.
Definition UNAUTHORIZED : Z := 401.
Definition NOT_FOUND : Z := 404.
Definition INTERNAL_SERVER_ERROR : Z := 500.
End HTTP_STATUS.

(** What a handler sends: [res.json] of a value, or the error handler's
    rendering [{error: {message, code, status}}] of a thrown value. *)
Inductive ReplyBody : Type :=
  | Json (v : JsValue)
  | ErrorReport (thrown : Exn).

Record HttpReply := {
  reply_status : Z;
  reply_body : ReplyBody }.

(** An error as the handler sees it: the thrown value and its [status]
    property, if it has one. *)
Record ApiError := {
  err_status : option Z;
  err_thrown : Exn }.

(** The errors of this code base are plain [Error]s: no [status]. *)
Definition plain (e : Exn) : ApiError := {| err_status := None; err_thrown := e |}.

(** [const status = err.status || HTTP_STATUS.INTERNAL_SERVER_ERROR] *)
Definition errorHandler (err : ApiError) : HttpReply :=
  {| reply_status :=
       match err_status err with
       | Some s => if s =? 0 then HTTP_STATUS.INTERNAL_SERVER_ERROR else s
       | None => HTTP_STATUS.INTERNAL_SERVER_ERROR
       end;
     reply_body := ErrorReport (err_thrown err) |}.

Section Routes.

Variable E : Env.

(** [extractChainId]: [parsed] is what [parseInt] made of the path
    parameter, [None] for [NaN]. *)
Definition extractChainId (parsed : option Z) : Res Z :=
  match parsed with
  | None => Throw (Error "Invalid chain ID")
  | Some chainId => Ok chainId
  end.

(** [GET /endpoint/:chainId] *)
Definition route_endpoint (parsed : option Z) (w : World) : HttpReply * World :=
  match extractChainId parsed with
  | Throw e => (errorHandler (plain e), w)
  | Ok chainId =>
      match getEndpoint E chainId w with
      | (Ok url, w') =>
          ({| reply_status := HTTP_STATUS.OK;
              reply_body := Json (JObj [("success"%string, JBool true);
                                        ("data"%string, JObj [("url"%string, JStr url)])]) |},
           w')
      | (Throw e, w') => (errorHandler (plain e), w')
      end
  end.

(** The handler of [POST /execute/:chainId]; [body] is the [req.body] that
    [express.json()] has set and [sessionHeader] is
    [req.headers['x-session-id']]. *)
Definition route_execute (body : JsValue) (parsed : option Z) (sessionHeader : option string)
    (w : World) : HttpReply * World :=
  if negb (validateJsonRpcRequest body) then
    ({| reply_status := HTTP_STATUS.BAD_REQUEST;
        reply_body := Json (JObj [("error"%string, JStr ERROR_MESSAGES.INVALID_REQUEST)]) |},
     w)
  else
    match extractChainId parsed with
    | Throw e => (errorHandler (plain e), w)
    | Ok chainId =>
        match executeRequest E chainId body sessionHeader w with
        | (Ok result, w') =>
            ({| reply_status := HTTP_STATUS.OK; reply_body := Json result |}, w')
        | (Throw e, w') => (errorHandler (plain e), w')
        end
    end.

End Routes.

(** ** Vocabulary of the further properties *)

(** [Number.MAX_SAFE_INTEGER] and [Number.isSafeInteger] *)
Definition MAX_SAFE_INTEGER : Z := 2 ^ 53 - 1.

Definition isSafeInteger (z : Z) : bool :=
  (- MAX_SAFE_INTEGER <=? z) && (z <=? MAX_SAFE_INTEGER).

(** A chain id as the template literal may meet it: absent, or a safe
    integer. *)
Definition printable_chainId (chainId : option Z) : bool :=
  match chainId with
  | Some z => isSafeInteger z
  | None => true
  end.

(** The bodies [express.json()] hands to a handler: in its strict mode, the
    default, the parser accepts only an object or an array, and [req.body]
    is the empty object when the request carries no JSON; a primitive is
    refused by the parser itself and never reaches the handler. *)
Definition express_json_delivers (body : JsValue) : bool :=
  match body with
  | JObj _ | JArr _ => true
  | _ => false
  end.

(** Every record of the health hash sits under its own URL. *)
Definition health_keyed (w : World) : Prop :=
  forall url h, health w !! url = Some h -> health_url h = url.

(** The config [loadRpcConfig] stores for an element of the file. *)
Definition stored_config (c : RawChain) : RpcConfig :=
  {| config_chainId := raw_chainId c; config_name := raw_name c;
     config_urls := default [] (raw_urls c) |}.

(** Reads a decimal numeral with an optional minus sign. *)
Definition parseNumber (s : string) : option Z :=
  match s with
  | String "-" digits => (fun n => - Z.of_N n) <$> Digits.decimalValue digits
  | _ => Z.of_N <$> Digits.decimalValue s
  end.

(** What a queued command does to the health hash. *)
Definition health_effect (h : gmap string RpcHealth) (c : Cmd) : gmap string RpcHealth :=
  match c with
  | HDel field => delete field h
  | _ => h
  end.

(** The chain keys after the file's chains have been written in order. *)
Definition chains_written (E : Env) (cs : list RawChain)
    (m : gmap string (option Z * RpcConfig)) : gmap string (option Z * RpcConfig) :=
  fold_left (fun acc c =>
    <[chainKey (raw_chainId c) := (Some (configTtl E), stored_config c)]> acc) cs m.

(** The executable form of [health_keyed]. *)
Definition health_keyed_b (w : World) : bool :=
  forallb (fun kv => String.eqb (health_url (snd kv)) (fst kv)) (map_to_list (health w)).

(** A session whose last use is within the TTL at every reading of the
    clock, and one whose last use is beyond it at every reading. *)
Definition always_fresh (E : Env) (session : RpcSession) : Prop :=
  forall t, clock E t - lastUsed session <= sessionTtl E * 1000.

Definition always_stale (E : Env) (session : RpcSession) : Prop :=
  forall t, sessionTtl E * 1000 < clock E t - lastUsed session.

(** ** Further concrete worlds *)

Module Scenario2.

(** The clock stands at 5 000 000 ms; every POST is answered with HTTP 200
    and the body [{jsonrpc: "2.0", id: 1, result: "0x10"}]. *)
Definition ok_body : JsValue :=
  JObj [("jsonrpc"%string, JStr "2.0"); ("id"%string, JNum 1);
        ("result"%string, JStr "0x10")].

Definition env_frozen : Env :=
  {| maxFailCount := 3; configTtl := 86400; healthTtl := 3600; sessionTtl := 3600;
     clock := fun _ => 5000000;
     uuidv4 := fun t => ("uuid-" +:+ Number_toString (Z.of_nat t))%string;
     http := fun _ _ => Response 200 ok_body;
     readFile := fun _ => FileUnreadable |}.

Definition recent : RpcSession :=
  {| session_id := "recent"; session_url := "A"; session_chainId := 1;
     createdAt := 4000000; lastUsed := 4999000; requestCount := 2 |}.

Definition ancient : RpcSession :=
  {| session_id := "ancient"; session_url := "B"; session_chainId := 1;
     createdAt := 0; lastUsed := 0; requestCount := 9 |}.

(** [Scenario.world1] with two sessions, one used a second ago and one used
    at time 0. *)
Definition world_sessions : World :=
  set_sessions (fun _ => <[sessionKey "recent" := (3600, recent)]>
                         (<[sessionKey "ancient" := (3600, ancient)]> ∅))
               Scenario.world1.

End Scenario2.

(** The URLs of a chain that [getChainStats] counts as active: those with a
    record whose [url] field is not empty. *)
Definition urlHealths_of (healthData : gmap string RpcHealth) (urls : list string)
    : list RpcHealth :=
  List.filter (fun h => negb (String.eqb (health_url h) ""))
              (omap (fun url => healthData !! url) urls).

(** The entry [getUrlDetails] emits for a URL with the record [h]. *)
Definition detail_of (url : string) (h : RpcHealth) : UrlDetail :=
  {| detail_url := url; detail_healthy := healthy h; detail_failCount := failCount h;
     detail_responseTime := responseTime h; detail_lastCheck := lastCheck h |}.

(** What [getUrlDetails] says of one URL: the fields of its record, or the
    defaults when it has none. *)
Definition detail_matches (healthData : gmap string RpcHealth) (url : string)
    (d : UrlDetail) : Prop :=
  match healthData !! url with
  | Some h => d = detail_of url h
  | None =>
      detail_url d = url /\ detail_healthy d = false /\
      detail_failCount d = 0 /\ detail_responseTime d = 0
  end.

(** Ascending order of chain ids. *)
Definition chainId_le (a b : RpcConfig) : Prop :=
  default 0 (config_chainId a) <= default 0 (config_chainId b).

(** Every character of [s] satisfies [p]. *)
Fixpoint allChars (p : ascii -> bool) (s : string) : bool :=
  match s with
  | EmptyString => true
  | String c rest => p c && allChars p rest
  end.

Definition isHexDigit (c : ascii) : bool := is_Some_bool (Digits.digitValue c).

(** The failure count on record for a URL, 0 when it has no record. *)
Definition failCount_of (w : World) (url : string) : Z :=
  match health w !! url with
  | Some h => failCount h
  | None => 0
  end.
(** * Properties *)

(** ** Digits *)

Module DigitsFacts.
Import Digits.
Local Open Scope N_scope.

Lemma digits_rev_S fuel b n :
  digits_rev (S fuel) b n =
  if n <? b then [n] else (n mod b) :: digits_rev fuel b (n / b).
Proof. reflexivity. Qed.

Lemma digits_rev_value fuel : forall b n,
  2 <= b -> n < 2 ^ N.of_nat fuel ->
  value_rev b (digits_rev (S fuel) b n) = n /\
  Forall (fun d => d < b) (digits_rev (S fuel) b n).
Proof.
  induction fuel as [|fuel IH]; intros b n Hb Hn.
  - simpl in Hn. assert (n = 0) by lia. subst n.
    rewrite digits_rev_S. destruct (N.ltb_spec 0 b); [|lia].
    split; [simpl; lia | repeat constructor; lia].
  - rewrite digits_rev_S. destruct (N.ltb_spec n b) as [Hlt|Hge].
    + split; [simpl; lia | repeat constructor; lia].
    + assert (Hdiv : n / b < 2 ^ N.of_nat fuel).
      { apply N.Div0.div_lt_upper_bound.
        rewrite Nat2N.inj_succ, N.pow_succ_r' in Hn.
        nia. }
      destruct (IH b (n / b) Hb Hdiv) as [Hv Hall].
      split.
      * cbn [value_rev]. rewrite Hv.
        pose proof (N.div_mod n b ltac:(lia)). lia.
      * constructor; [apply N.mod_lt; lia | exact Hall].
Qed.

Lemma digits_rev_nonempty fuel b n : digits_rev (S fuel) b n <> [].
Proof. rewrite digits_rev_S. destruct (n <? b); discriminate. Qed.

Lemma toDigits_value b n :
  2 <= b ->
  value_rev b (rev (toDigits b n)) = n /\ Forall (fun d => d < b) (toDigits b n).
Proof.
  intros Hb. unfold toDigits. rewrite rev_involutive.
  destruct (digits_rev_value (N.to_nat (N.size n)) b n Hb) as [Hv Hall].
  - rewrite N2Nat.id. apply N.size_gt.
  - split; [exact Hv|]. apply Forall_rev. exact Hall.
Qed.

Lemma toDigits_nonempty b n : toDigits b n <> [].
Proof.
  unfold toDigits. intros H.
  apply (f_equal (@rev N)) in H. rewrite rev_involutive in H.
  exact (digits_rev_nonempty _ _ _ H).
Qed.

Lemma digitValue_digitChar d : d < 16 -> digitValue (digitChar d) = Some d.
Proof.
  intros H. rewrite <- (N2Nat.id d).
  assert (Hk : (N.to_nat d < 16)%nat) by lia.
  generalize dependent (N.to_nat d). intros k Hk.
  do 16 (destruct k as [|k]; [reflexivity|]). lia.
Qed.

Lemma digitChar_not_space d : d < 16 -> isStrWhiteSpaceChar (digitChar d) = false.
Proof.
  intros H. rewrite <- (N2Nat.id d).
  assert (Hk : (N.to_nat d < 16)%nat) by lia.
  generalize dependent (N.to_nat d). intros k Hk.
  do 16 (destruct k as [|k]; [reflexivity|]). lia.
Qed.

Lemma parseDigits_digits b ds : forall acc,
  b <= 16 -> Forall (fun d => d < b) ds ->
  parseDigits b (string_of_list_ascii (map digitChar ds)) acc =
  Some (fold_left (fun a d => b * a + d) ds acc).
Proof.
  induction ds as [|d ds IH]; intros acc Hb Hall; [reflexivity|].
  inversion Hall as [|? ? Hd Hds]; subst.
  cbn [map string_of_list_ascii parseDigits fold_left].
  rewrite (digitValue_digitChar d ltac:(lia)).
  destruct (N.ltb_spec d b); [|lia]. apply IH; assumption.
Qed.

Lemma fold_left_value_rev b ds :
  fold_left (fun a d => b * a + d) (rev ds) 0 = value_rev b ds.
Proof.
  induction ds as [|d ds IH]; [reflexivity|].
  cbn [rev value_rev]. rewrite fold_left_app. cbn [fold_left].
  rewrite IH. lia.
Qed.

(** Printing in base [b] and reading back gives the number. *)
Lemma parseDigits_toStringRadix b n :
  2 <= b <= 16 -> parseDigits b (toStringRadix b n) 0 = Some n.
Proof.
  intros Hb. unfold toStringRadix.
  destruct (toDigits_value b n ltac:(lia)) as [Hv Hall].
  rewrite (parseDigits_digits b _ 0 ltac:(lia) Hall).
  rewrite <- (rev_involutive (toDigits b n)), fold_left_value_rev.
  rewrite Hv. reflexivity.
Qed.

Lemma toStringRadix_nonempty b n : toStringRadix b n <> EmptyString.
Proof.
  unfold toStringRadix. pose proof (toDigits_nonempty b n) as Hne.
  destruct (toDigits b n); [congruence | discriminate].
Qed.

Lemma decimalValue_toString n : decimalValue (toStringRadix 10 n) = Some n.
Proof.
  unfold decimalValue. pose proof (toStringRadix_nonempty 10 n) as Hne.
  destruct (toStringRadix 10 n) eqn:Hs; [congruence|].
  rewrite <- Hs. apply parseDigits_toStringRadix. lia.
Qed.

Lemma trimEnd_digits ds :
  Forall (fun d => d < 16) ds ->
  trimEnd (string_of_list_ascii (map digitChar ds)) =
  string_of_list_ascii (map digitChar ds).
Proof.
  induction ds as [|d ds IH]; intros Hall; [reflexivity|].
  inversion Hall as [|? ? Hd Hds]; subst.
  cbn [map string_of_list_ascii trimEnd]. rewrite (IH Hds).
  destruct (string_of_list_ascii (map digitChar ds)); [|reflexivity].
  rewrite (digitChar_not_space d Hd). reflexivity.
Qed.

(** [BigInt("0x" + n.toString(16)) = n] *)
Lemma BigInt_0x_hex n :
  BigInt_0x (String "0" (String "x" (toStringRadix 16 n))) = Some n.
Proof.
  unfold BigInt_0x. cbn [drop0x].
  destruct (toDigits_value 16 n ltac:(lia)) as [_ Hall].
  unfold toStringRadix at 1. rewrite (trimEnd_digits _ Hall).
  fold (toStringRadix 16 n).
  pose proof (toStringRadix_nonempty 16 n) as Hne.
  destruct (toStringRadix 16 n) eqn:Hs; [congruence|].
  rewrite <- Hs. apply parseDigits_toStringRadix. lia.
Qed.

End DigitsFacts.

(** ** The response formatter *)

(** C6. For every non-negative integer [n], formatting a reply object whose
    [result] is ["0x"] followed by the hexadecimal digits of [n] gives a
    reply whose [result] is the decimal string of [n] (a string of decimal
    digits that reads back as [n], whatever the size of [n]); a
    [0x]-prefixed string that [BigInt] refuses becomes
    ["Error converting result to decimal"]; a [result] that is not a string
    passes through unchanged. *)
Theorem C6_hex_decimal_round_trip (fields : list (string * JsValue)) (sessionId : string) :
  let reply := formatRpcResponse (JObj fields) sessionId in
  (forall n : N,
      assoc_lookup "result" fields
        = JStr (String "0" (String "x" (Digits.toStringRadix 16 n))) ->
      get_prop reply "result" = JStr (Digits.toStringRadix 10 n) /\
      Digits.decimalValue (Digits.toStringRadix 10 n) = Some n) /\
  (forall s : string,
      assoc_lookup "result" fields = JStr s ->
      Digits.startsWith0x s = true -> Digits.BigInt_0x s = None ->
      get_prop reply "result" = JStr "Error converting result to decimal") /\
  (forall v : JsValue,
      assoc_lookup "result" fields = v -> (forall s, v <> JStr s) ->
      get_prop reply "result" = v).
Proof.
  cbn zeta. unfold formatRpcResponse.
  cbn [truthy typeof_object negb orb get_prop].
  repeat split.
  - rewrite H. cbn [Digits.startsWith0x].
    rewrite DigitsFacts.BigInt_0x_hex. reflexivity.
  - apply DigitsFacts.decimalValue_toString.
  - intros s Hs H0x Hbig. rewrite Hs, H0x, Hbig. reflexivity.
  - intros v Hv Hns. rewrite Hv.
    destruct v; try reflexivity. exfalso. exact (Hns s eq_refl).
Qed.

Example scenario_hex_convert :
  formatRpcResponse
    (JObj [("jsonrpc"%string, JStr "2.0"); ("id"%string, JNum 7);
           ("result"%string, JStr "0x2540be400")]) "s1"
  = JObj [("id"%string, JNum 7); ("jsonrpc"%string, JStr "2.0");
          ("sessionId"%string, JStr "s1"); ("result"%string, JStr "10000000000")].
Proof. vm_compute. reflexivity. Qed.

(** Beyond 64 bits: 2^80. *)
Example scenario_hex_wide :
  get_prop (formatRpcResponse
              (JObj [("result"%string, JStr "0x100000000000000000000")]) "s1") "result"
  = JStr "1208925819614629174706176".
Proof. vm_compute. reflexivity. Qed.

Lemma C6_hex_decimal_round_trip_witness :
  get_prop (formatRpcResponse
              (JObj [("jsonrpc"%string, JStr "2.0"); ("id"%string, JNum 7);
                     ("result"%string, JStr "0x2540be400")]) "s1") "result"
    = JStr "10000000000" /\
  get_prop (formatRpcResponse (JObj [("result"%string, JStr "0xzz")]) "s1") "result"
    = JStr "Error converting result to decimal" /\
  get_prop (formatRpcResponse (JObj [("result"%string, JNum 12)]) "s1") "result"
    = JNum 12.
Proof.
  split; [|split].
  - exact (proj1 (proj1 (C6_hex_decimal_round_trip
             [("jsonrpc"%string, JStr "2.0"); ("id"%string, JNum 7);
              ("result"%string, JStr "0x2540be400")] "s1") 10000000000%N eq_refl)).
  - exact (proj1 (proj2 (C6_hex_decimal_round_trip
             [("result"%string, JStr "0xzz")] "s1")) "0xzz"%string eq_refl eq_refl eq_refl).
  - refine (proj2 (proj2 (C6_hex_decimal_round_trip
             [("result"%string, JNum 12)] "s1")) (JNum 12) eq_refl _).
    intros s; discriminate.
Defined.

(** ** The stable sort *)

Section Sorting.

Context {A : Type} (key : A -> Z).

Lemma first_min_le l u v : first_min key l u -> In v l -> key u <= key v.
Proof.
  intros (before & after & -> & Hb & Ha) Hin.
  apply in_app_or in Hin. destruct Hin as [Hin|[->|Hin]].
  - specialize (Hb v Hin). lia.
  - lia.
  - exact (Ha v Hin).
Qed.

Lemma sort_by_head l :
  l <> [] -> exists u rest, sort_by key l = u :: rest /\ first_min key l u.
Proof.
  induction l as [|x l IH]; [congruence|]. intros _.
  destruct l as [|y l].
  - exists x, []. split; [reflexivity|].
    exists [], []. repeat split; intros v [].
  - destruct (IH ltac:(discriminate)) as (u & rest & Hs & Hmin).
    cbn [sort_by] in Hs |- *. rewrite Hs. cbn [sort_insert].
    destruct (Z.leb_spec (key x) (key u)) as [Hle|Hgt].
    + exists x, (u :: rest). split; [reflexivity|].
      exists [], (y :: l). repeat split; [intros v []|].
      intros v Hin. pose proof (first_min_le _ _ _ Hmin Hin). lia.
    + exists u, (sort_insert key x rest). split; [reflexivity|].
      destruct Hmin as (before & after & Heq & Hb & Ha).
      exists (x :: before), after. rewrite Heq. repeat split; [|exact Ha].
      intros v [<-|Hin]; [lia | exact (Hb v Hin)].
Qed.

End Sorting.

Lemma filter_split {A} (P : A -> bool) (l : list A) : forall l1 u l2,
  List.filter P l = l1 ++ u :: l2 ->
  exists p1 p2, l = p1 ++ u :: p2 /\ List.filter P p1 = l1 /\ List.filter P p2 = l2.
Proof.
  induction l as [|x l IH]; intros l1 u l2 H.
  - destruct l1; discriminate.
  - cbn [List.filter] in H. destruct (P x) eqn:HP.
    + destruct l1 as [|a l1]; cbn [app] in H; injection H as -> H.
      * exists [], l. split; [reflexivity|]. split; [reflexivity | exact H].
      * destruct (IH _ _ _ H) as (p1 & p2 & -> & H1 & H2).
        exists (a :: p1), p2. split; [reflexivity|]. split; [|exact H2].
        cbn [List.filter]. rewrite HP, H1. reflexivity.
    + destruct (IH _ _ _ H) as (p1 & p2 & -> & H1 & H2).
      exists (x :: p1), p2. split; [reflexivity|]. split; [|exact H2].
      cbn [List.filter]. rewrite HP. exact H1.
Qed.

(** ** The selector *)

Section Selector.

Variable E : Env.

Lemma eligible_spec (hd : gmap string RpcHealth) (url : string) :
  eligible E hd url = true <->
  exists h, hd !! url = Some h /\ healthy h = true /\ failCount h < maxFailCount E.
Proof.
  unfold eligible. destruct (hd !! url) as [h|].
  - rewrite andb_true_iff, Z.ltb_lt. split.
    + intros [H1 H2]. exists h. auto.
    + intros (h' & [= <-] & H1 & H2). auto.
  - split; [discriminate | intros (h & [=] & _)].
Qed.

(** C3. When the chain config is present and some URL of it is eligible,
    [getHealthyRpcUrl] returns a URL [u] of [config.urls] that has a
    health record with [healthy] and [failCount < maxFailCount]; no
    eligible URL has a smaller [responseTime], and every eligible URL
    placed before [u] in [config.urls] has a strictly larger one (ties go
    to the earlier position).  A URL without a record is never returned. *)
Theorem C3_getHealthyRpcUrl_selects_fastest_eligible
    (w : World) (chainId : Z) (ttl : option Z) (config : RpcConfig) :
  chains w !! chainKey (Some chainId) = Some (ttl, config) ->
  List.filter (eligible E (health w)) (config_urls config) <> [] ->
  exists u h,
    getHealthyRpcUrl E chainId w = (Ok u, w) /\
    In u (config_urls config) /\
    health w !! u = Some h /\ healthy h = true /\ failCount h < maxFailCount E /\
    (forall v hv, In v (config_urls config) ->
       health w !! v = Some hv -> healthy hv = true -> failCount hv < maxFailCount E ->
       responseTime h <= responseTime hv) /\
    (exists before after,
       config_urls config = before ++ u :: after /\
       forall v hv, In v before ->
         health w !! v = Some hv -> healthy hv = true -> failCount hv < maxFailCount E ->
         responseTime h < responseTime hv).
Proof.
  intros Hcfg Hne.
  destruct (sort_by_head (responseTimeOf (health w)) _ Hne)
    as (u & rest & Hsort & Hmin).
  assert (Hu : In u (List.filter (eligible E (health w)) (config_urls config))).
  { destruct Hmin as (b & a & -> & _). apply in_or_app. right. left. reflexivity. }
  apply filter_In in Hu. destruct Hu as [Hin Hel].
  apply eligible_spec in Hel. destruct Hel as (h & Hh & Hhealthy & Hfc).
  exists u, h.
  assert (Hrt : forall v hv, health w !! v = Some hv ->
                  responseTimeOf (health w) v = responseTime hv).
  { intros v hv Hv. unfold responseTimeOf. rewrite Hv. reflexivity. }
  repeat split; try assumption.
  - unfold getHealthyRpcUrl, bind, getChainConfig, gets, ret.
    rewrite Hcfg. cbn [fmap option_fmap option_map snd].
    destruct (List.filter (eligible E (health w)) (config_urls config)) eqn:Hf;
      [congruence|].
    cbn [length Nat.eqb]. rewrite Hsort. reflexivity.
  - intros v hv Hv Hrec Hhv Hfv.
    rewrite <- (Hrt u h Hh), <- (Hrt v hv Hrec).
    apply (first_min_le _ _ _ _ Hmin). apply filter_In. split; [exact Hv|].
    apply eligible_spec. exists hv. auto.
  - destruct Hmin as (b & a & Hsplit & Hb & _).
    destruct (filter_split _ _ _ _ _ Hsplit) as (p1 & p2 & Hurls & Hp1 & _).
    exists p1, p2. split; [exact Hurls|].
    intros v hv Hv Hrec Hhv Hfv.
    rewrite <- (Hrt u h Hh), <- (Hrt v hv Hrec).
    apply Hb. rewrite <- Hp1. apply filter_In. split; [exact Hv|].
    apply eligible_spec. exists hv. auto.
Qed.

End Selector.

Lemma C3_getHealthyRpcUrl_selects_fastest_eligible_witness :
  exists u h,
    getHealthyRpcUrl Scenario.env_down 1 Scenario.world1 = (Ok u, Scenario.world1) /\
    In u (config_urls Scenario.chain1) /\
    health Scenario.world1 !! u = Some h /\ healthy h = true /\
    failCount h < maxFailCount Scenario.env_down /\
    (forall v hv, In v (config_urls Scenario.chain1) ->
       health Scenario.world1 !! v = Some hv -> healthy hv = true ->
       failCount hv < maxFailCount Scenario.env_down ->
       responseTime h <= responseTime hv) /\
    (exists before after,
       config_urls Scenario.chain1 = before ++ u :: after /\
       forall v hv, In v before ->
         health Scenario.world1 !! v = Some hv -> healthy hv = true ->
         failCount hv < maxFailCount Scenario.env_down ->
         responseTime h < responseTime hv).
Proof.
  apply (C3_getHealthyRpcUrl_selects_fastest_eligible Scenario.env_down Scenario.world1 1
           (Some 86400) Scenario.chain1).
  - reflexivity.
  - vm_compute. discriminate.
Defined.

(** The scenarios of the specification: the fastest healthy URL wins, and
    of two equally fast ones the first in the configuration. *)
Example scenario_tie_break :
  fst (getHealthyRpcUrl Scenario.env_down 1 Scenario.world1) = Ok "A"%string.
Proof. vm_compute. reflexivity. Qed.

(** ** The health checker *)

Section HealthChecker.

Variable E : Env.

Lemma not_resolves_not_successful o : resolves o = false -> probe_successful o = false.
Proof.
  destruct o as [|status data]; [reflexivity|]. cbn [resolves probe_successful].
  intros H. destruct (Z.eqb_spec status 200) as [->|]; [discriminate | reflexivity].
Qed.

(** One call of [checkHealth], whatever the upstream answers. *)
Lemma checkHealth_run url w :
  checkHealth E url w = (Ok (probe_record E url w), after_probe E url w).
Proof.
  unfold checkHealth, after_probe, probe_record.
  cbv [bind log modify Date_now axios_post fresh ret set_trace set_tick].
  cbn [tick].
  pose proof (not_resolves_not_successful (http E (S (tick w)) url)) as Hns.
  destruct (http E (S (tick w)) url) as [|status data] eqn:Ho.
  - cbv [incrementFailCount updateHealthStatus bind gets modify ret set_health].
    cbn [tick trace health healthExpire chains sessions unhealthyErrors health_url
         resolves probe_successful].
    destruct (health w !! url); reflexivity.
  - destruct (resolves (Response status data)) eqn:Hr.
    + cbv [updateHealthStatus modify set_health].
      cbn [tick trace health healthExpire chains sessions unhealthyErrors health_url
           probe_successful].
      reflexivity.
    + rewrite (Hns eq_refl).
      cbv [incrementFailCount updateHealthStatus bind gets modify ret set_health].
      cbn [tick trace health healthExpire chains sessions unhealthyErrors health_url].
      destruct (health w !! url); reflexivity.
Qed.

End HealthChecker.

(** ** The config loader *)

Section ConfigLoader.

Variable E : Env.

Lemma forEach_checkHealth_run us : forall w,
  forEach (fun url => checkHealth E url ;; ret tt) us w = (Ok tt, after_probes E us w).
Proof.
  induction us as [|u us IH]; intros w; [reflexivity|].
  cbn [forEach]. unfold bind at 1. unfold bind at 1.
  rewrite checkHealth_run. cbn [ret]. rewrite IH. reflexivity.
Qed.

Lemma after_probes_app us1 us2 w :
  after_probes E (us1 ++ us2) w = after_probes E us2 (after_probes E us1 w).
Proof. unfold after_probes. apply fold_left_app. Qed.

Lemma after_probes_frame us : forall w,
  chains (after_probes E us w) = chains w /\
  sessions (after_probes E us w) = sessions w /\
  unhealthyErrors (after_probes E us w) = unhealthyErrors w /\
  healthExpire (after_probes E us w) = healthExpire w /\
  trace (after_probes E us w) = trace w ++ map EvProbe us /\
  tick (after_probes E us w) = (4 * length us + tick w)%nat.
Proof.
  induction us as [|u us IH]; intros w.
  - cbn. rewrite app_nil_r. repeat split; reflexivity.
  - change (after_probes E (u :: us) w) with (after_probes E us (after_probe E u w)).
    destruct (IH (after_probe E u w)) as (H1 & H2 & H3 & H4 & H5 & H6).
    rewrite H1, H2, H3, H4, H5, H6. cbn [after_probe chains sessions unhealthyErrors
      healthExpire trace tick map length].
    rewrite <- app_assoc. repeat split; try reflexivity. lia.
Qed.

Lemma collectUrls_run cs : forall (acc : gset string) w,
  collectUrls cs acc w =
  if urls_present cs then (Ok (acc ∪ list_to_set (file_urls cs)), w)
  else (Throw TypeError, w).
Proof.
  induction cs as [|c cs IH]; intros acc w.
  - cbn. unfold ret. rewrite union_empty_r_L. reflexivity.
  - cbn [collectUrls urls_present forallb file_urls map concat].
    destruct (raw_urls c) as [us|]; cbn [is_Some_bool andb default].
    + rewrite IH. fold (urls_present cs). fold (file_urls cs).
      destruct (urls_present cs); [|reflexivity].
      rewrite list_to_set_app_L, (assoc_L (∪)). reflexivity.
    + reflexivity.
Qed.

Lemma loadChains_run cs : forall multi w,
  urls_present cs = true ->
  loadChains E cs multi w =
  (Ok (multi ++ chain_cmds E cs), after_probes E (file_urls cs) w).
Proof.
  induction cs as [|c cs IH]; intros multi w Hp.
  - cbn. unfold ret. rewrite app_nil_r. reflexivity.
  - cbn [urls_present forallb] in Hp. apply andb_true_iff in Hp.
    destruct Hp as [Hc Hp].
    cbn [loadChains file_urls chain_cmds map concat].
    destruct (raw_urls c) as [us|]; [|discriminate].
    cbn [default]. unfold bind at 1. rewrite forEach_checkHealth_run.
    rewrite (IH _ _ Hp). fold (file_urls cs). fold (chain_cmds E cs).
    rewrite after_probes_app, <- app_assoc. reflexivity.
Qed.

(** One call of [loadRpcConfig], by what the file holds. *)
Lemma loadRpcConfig_run w :
  loadRpcConfig E w =
  match readFile E (tick w) with
  | FileUnreadable => (Throw FsError, reload_started w)
  | FileNotJson => (Throw SyntaxError, reload_started w)
  | FileNull => (Throw TypeError, reload_started w)
  | Parsed (NotArray _) =>
      (Throw (Error ERROR_MESSAGES.INVALID_CONFIG), reload_started w)
  | ChainsArray cs =>
      if urls_present cs then
        (Ok tt, committed (reload_queue E (reload_started w) cs)
                  (after_probes E (file_urls cs) (reload_started w)))
      else (Throw TypeError, reload_started w)
  end.
Proof.
  unfold loadRpcConfig. unfold bind at 1. unfold log, modify.
  unfold bind at 1. unfold fresh. cbn [tick set_trace].
  change (set_tick (S (tick w)) _) with (reload_started w).
  destruct (readFile E (tick w)) as [| | |[v|cs]]; try reflexivity.
  { cbn [Array_isArray negb]. rewrite orb_true_r. reflexivity. }
  cbn [chains_truthy Array_isArray negb orb elements].
  unfold bind at 1. unfold gets at 1.
  unfold bind at 1. rewrite collectUrls_run.
  destruct (urls_present cs) eqn:Hp; [|reflexivity].
  unfold bind at 1. unfold gets at 1.
  unfold bind at 1. rewrite (loadChains_run cs _ _ Hp).
  unfold exec, bind, log, modify, committed, reload_queue.
  rewrite union_empty_l_L.
  rewrite <- !app_assoc.
  reflexivity.
Qed.

End ConfigLoader.

(** ** What a computation keeps *)

Section Preservation.

Context (P : World -> Prop).

Lemma preserves_ret {A} (a : A) : preserves P (ret a).
Proof. intros w H. exact H. Qed.

Lemma preserves_throw {A} (e : Exn) : preserves P (@throw A e).
Proof. intros w H. exact H. Qed.

Lemma preserves_gets {A} (f : World -> A) : preserves P (gets f).
Proof. intros w H. exact H. Qed.

Lemma preserves_modify (f : World -> World) :
  (forall w, P w -> P (f w)) -> preserves P (modify f).
Proof. intros Hf w H. exact (Hf w H). Qed.

Lemma preserves_bind {A B} (c : M A) (k : A -> M B) :
  preserves P c -> (forall a, preserves P (k a)) -> preserves P (bind c k).
Proof.
  intros Hc Hk w H. unfold bind. specialize (Hc w H).
  destruct (c w) as [[a|e] w']; cbn [snd] in Hc |- *; [apply Hk|]; exact Hc.
Qed.

Context `{!Stable P}.

Lemma preserves_log ev : preserves P (log ev).
Proof. apply preserves_modify. intros w. apply stable_trace. Qed.

Lemma preserves_fresh : preserves P fresh.
Proof. intros w H. cbn. apply stable_tick. exact H. Qed.

Lemma preserves_Date_now E : preserves P (Date_now E).
Proof. apply preserves_bind; [apply preserves_fresh | intros; apply preserves_ret]. Qed.

Lemma preserves_axios_post E url : preserves P (axios_post E url).
Proof. apply preserves_bind; [apply preserves_fresh | intros; apply preserves_ret]. Qed.

Lemma preserves_checkHealth E url : preserves P (checkHealth E url).
Proof. intros w H. rewrite checkHealth_run. apply stable_probe. exact H. Qed.

Lemma stable_after_probes E us : forall w, P w -> P (after_probes E us w).
Proof.
  induction us as [|u us IH]; intros w H; [exact H|].
  apply (IH (after_probe E u w)). apply stable_probe. exact H.
Qed.

Lemma stable_committed queue w : P w -> P (committed queue w).
Proof.
  intros H. unfold committed.
  assert (H' : P (set_trace (trace w ++ [EvExec queue]) w)) by (apply stable_trace; exact H).
  revert H'. generalize (set_trace (trace w ++ [EvExec queue]) w).
  induction queue as [|c queue IH]; intros w0 H0; [exact H0|].
  apply IH. apply stable_cmd. exact H0.
Qed.

Lemma stable_reload_started w : P w -> P (reload_started w).
Proof. intros H. apply stable_tick, stable_trace, H. Qed.

Lemma preserves_loadRpcConfig E : preserves P (loadRpcConfig E).
Proof.
  intros w H. rewrite loadRpcConfig_run.
  pose proof (stable_reload_started w H) as Hs.
  destruct (readFile E (tick w)) as [| | |[v|cs]]; try exact Hs.
  destruct (urls_present cs); [|exact Hs].
  apply stable_committed, stable_after_probes, Hs.
Qed.

Lemma preserves_checkForceReload E : preserves P (checkForceReload E).
Proof.
  unfold checkForceReload.
  apply preserves_bind; [apply preserves_Date_now | intros now].
  apply preserves_bind; [apply preserves_gets | intros old].
  apply preserves_bind;
    [apply preserves_modify; intros w; apply stable_window | intros _].
  destruct (_ <=? _)%nat; [|apply preserves_ret].
  apply preserves_bind;
    [apply preserves_modify; intros w; apply stable_window | intros _].
  apply preserves_loadRpcConfig.
Qed.

Lemma preserves_getHealthyRpcUrl E chainId : preserves P (getHealthyRpcUrl E chainId).
Proof.
  unfold getHealthyRpcUrl.
  apply preserves_bind; [apply preserves_gets | intros [config|]];
    [|apply preserves_throw].
  apply preserves_bind; [apply preserves_gets | intros healthData].
  destruct (_ =? _)%nat; [|apply preserves_ret].
  apply preserves_bind; [apply preserves_checkForceReload | intros _].
  apply preserves_throw.
Qed.

(** The session store is written by the executor only. *)
Hypothesis stable_sessions : forall f w, P w -> P (set_sessions f w).

Lemma preserves_createSession E chainId : preserves P (createSession E chainId).
Proof.
  unfold createSession.
  apply preserves_bind; [apply preserves_getHealthyRpcUrl | intros url].
  apply preserves_bind; [apply preserves_fresh | intros t].
  apply preserves_bind; [apply preserves_Date_now | intros created].
  apply preserves_bind; [apply preserves_Date_now | intros used].
  apply preserves_bind; [|intros; apply preserves_ret].
  apply preserves_modify. intros w. apply stable_sessions.
Qed.

Lemma preserves_resolveSession E chainId sessionId :
  preserves P (resolveSession E chainId sessionId).
Proof.
  unfold resolveSession. destruct sessionId as [sid|];
    [|apply preserves_createSession].
  destruct (String.eqb sid ""); [apply preserves_createSession|].
  apply preserves_bind; [apply preserves_gets | intros [existing|]];
    [|apply preserves_throw].
  destruct (negb _); [|apply preserves_ret].
  apply preserves_bind; [|intros; apply preserves_createSession].
  apply preserves_modify. intros w. apply stable_sessions.
Qed.

Lemma preserves_updateSession E session : preserves P (updateSession E session).
Proof.
  unfold updateSession.
  apply preserves_bind; [apply preserves_Date_now | intros now].
  apply preserves_modify. intros w. apply stable_sessions.
Qed.

Lemma preserves_forward E session : preserves P (forward E session).
Proof.
  unfold forward.
  apply preserves_bind; [apply preserves_log | intros _].
  apply preserves_bind; [apply preserves_axios_post | intros o].
  destruct (resolves o).
  - destruct o as [|status data]; [apply preserves_throw|].
    apply preserves_bind; [apply preserves_updateSession | intros; apply preserves_ret].
  - apply preserves_bind; [apply preserves_checkHealth | intros _].
    destruct o as [|status data]; [apply preserves_throw|].
    destruct (truthy data); [apply preserves_ret | apply preserves_throw].
Qed.

Lemma preserves_executeRequest E chainId rpcRequest sessionId :
  preserves P (executeRequest E chainId rpcRequest sessionId).
Proof.
  unfold executeRequest.
  apply preserves_bind; [apply preserves_resolveSession | intros; apply preserves_forward].
Qed.

Lemma preserves_getEndpoint E chainId : preserves P (getEndpoint E chainId).
Proof.
  unfold getEndpoint.
  apply preserves_bind; [apply preserves_createSession | intros; apply preserves_ret].
Qed.

End Preservation.

(** ** The health invariant *)

Lemma probe_record_inv E url w :
  healthy (probe_record E url w) = true -> failCount (probe_record E url w) = 0.
Proof.
  unfold probe_record. cbn [healthy failCount]. intros Hs.
  destruct (resolves (http E (S (tick w)) url)) eqn:Hr; [reflexivity|].
  rewrite (not_resolves_not_successful _ Hr) in Hs. discriminate.
Qed.

#[export] Instance health_inv_stable : Stable health_inv.
Proof.
  split.
  - intros n w H. exact H.
  - intros t w H. exact H.
  - intros l w H. exact H.
  - intros E url w H u h. cbn [after_probe health].
    destruct (decide (url = u)) as [->|Hne].
    + rewrite lookup_insert_eq. intros [= <-]. apply probe_record_inv.
    + rewrite lookup_insert_ne by exact Hne. apply H.
  - intros c w H. destruct c as [keys|field|key config|key ttl]; cbn [apply_cmd].
    + exact H.
    + assert (Hd : health_inv (set_health (fun _ => delete field (health w)) w)).
      { intros u h. cbn [set_health health]. intros Hl.
        apply lookup_delete_Some in Hl. destruct Hl as [_ Hl]. exact (H u h Hl). }
      destruct (decide (delete field (health w) = ∅)); exact Hd.
    + exact H.
    + destruct (String.eqb key REDIS_KEYS.HEALTH_SET); [|exact H].
      destruct (decide (health w = ∅)); exact H.
Qed.

Lemma health_inv_b_sound w : health_inv_b w = true -> health_inv w.
Proof.
  unfold health_inv_b, health_inv. intros Hb url h Hl Hh.
  rewrite forallb_forall in Hb.
  assert (Hin : In (url, h) (map_to_list (health w))).
  { apply list_elem_of_In, elem_of_map_to_list. exact Hl. }
  specialize (Hb _ Hin). cbn [snd] in Hb. rewrite Hh in Hb.
  apply Z.eqb_eq. exact Hb.
Qed.

(** C8. Every record of the health hash with [healthy = true] has
    [failCount = 0], and the router keeps it so: the record written by a
    probe (successful or not), the demotion after a failed forwarded request
    inside [executeRequest], and a reload with its deletions and probes all
    preserve the invariant. *)
Theorem C8_healthy_implies_zero_failCount (E : Env) (w : World) :
  health_inv w ->
  (forall url, health_inv (snd (checkHealth E url w)) /\
               (healthy (probe_record E url w) = true ->
                failCount (probe_record E url w) = 0)) /\
  (forall session, health_inv (snd (forward E session w))) /\
  (forall chainId rpcRequest sessionId,
      health_inv (snd (executeRequest E chainId rpcRequest sessionId w))) /\
  health_inv (snd (loadRpcConfig E w)).
Proof.
  intros H. repeat split.
  - apply (preserves_checkHealth health_inv), H.
  - apply probe_record_inv.
  - intros session. apply (preserves_forward health_inv); [|exact H].
    intros f w0 H0. exact H0.
  - intros chainId rpcRequest sessionId.
    apply (preserves_executeRequest health_inv); [|exact H].
    intros f w0 H0. exact H0.
  - apply (preserves_loadRpcConfig health_inv), H.
Qed.

Lemma C8_healthy_implies_zero_failCount_witness :
  health_inv Scenario.world1 /\
  health_inv (snd (checkHealth Scenario.env_error_500 "A" Scenario.world1)) /\
  health_inv (snd (executeRequest Scenario.env_error_500 1 JNull (Some "s1"%string)
                     Scenario.world1)) /\
  health_inv (snd (loadRpcConfig Scenario.env_reload Scenario.world1)).
Proof.
  assert (H : health_inv Scenario.world1)
    by (apply health_inv_b_sound; vm_compute; reflexivity).
  destruct (C8_healthy_implies_zero_failCount Scenario.env_error_500 Scenario.world1 H)
    as (Hprobe & _ & Hexec & _).
  destruct (C8_healthy_implies_zero_failCount Scenario.env_reload Scenario.world1 H)
    as (_ & _ & _ & Hload).
  split; [exact H|]. split; [exact (proj1 (Hprobe "A"%string))|].
  split; [apply Hexec | exact Hload].
Defined.

(** ** Probes that fail *)

Section FailedProbes.

Variable E : Env.

(** A probe that axios rejects (no answer, or a status outside 2xx)
    counts one more failure. *)
Lemma rejected_probe_increments url w :
  resolves (http E (S (tick w)) url) = false ->
  healthy (probe_record E url w) = false /\
  failCount (probe_record E url w) =
    match health w !! url with
    | Some previous => failCount previous + 1
    | None => 1
    end.
Proof.
  intros Hr. unfold probe_record. cbn [healthy failCount]. rewrite Hr.
  split; [apply not_resolves_not_successful, Hr | reflexivity].
Qed.

(** A probe answered with a 2xx status always writes [failCount = 0],
    successful or not. *)
Lemma resolved_probe_resets url w :
  resolves (http E (S (tick w)) url) = true ->
  failCount (probe_record E url w) = 0.
Proof. intros Hr. unfold probe_record. cbn [failCount]. rewrite Hr. reflexivity. Qed.

End FailedProbes.

(** C1 at a failing input.  [C] has failed twice; its next probe is answered
    with HTTP 200 and a JSON-RPC error body, which has no [result]: the probe
    is unsuccessful, yet the record written has [failCount = 0] instead of 3. *)
Theorem C1_unsuccessful_200_probe_resets_failCount :
  probe_successful (http Scenario.env_error_200 1 "C") = false /\
  health Scenario.world1 !! "C"%string = Some (Scenario.record "C" false 5 2) /\
  health (snd (checkHealth Scenario.env_error_200 "C" Scenario.world1)) !! "C"%string
    = Some {| health_url := "C"; healthy := false; lastCheck := 1002;
              responseTime := 3; failCount := 0 |}.
Proof. vm_compute. repeat split; reflexivity. Qed.

(** ** Reloads *)

Section Reload.

Variable E : Env.

Lemma apply_cmd_frame c w :
  sessions (apply_cmd c w) = sessions w /\
  unhealthyErrors (apply_cmd c w) = unhealthyErrors w /\
  tick (apply_cmd c w) = tick w /\
  trace (apply_cmd c w) = trace w.
Proof.
  destruct c as [keys|field|key config|key ttl]; cbn [apply_cmd].
  - repeat split; reflexivity.
  - destruct (decide (delete field (health w) = ∅)); repeat split; reflexivity.
  - repeat split; reflexivity.
  - destruct (String.eqb key REDIS_KEYS.HEALTH_SET);
      [destruct (decide (health w = ∅))|]; repeat split; reflexivity.
Qed.

Lemma apply_queue_frame queue : forall w,
  let w' := fold_left (fun acc c => apply_cmd c acc) queue w in
  sessions w' = sessions w /\ unhealthyErrors w' = unhealthyErrors w /\
  tick w' = tick w /\ trace w' = trace w.
Proof.
  induction queue as [|c queue IH]; intros w; [repeat split; reflexivity|].
  cbn [fold_left] in *. destruct (IH (apply_cmd c w)) as (H1 & H2 & H3 & H4).
  destruct (apply_cmd_frame c w) as (F1 & F2 & F3 & F4).
  rewrite H1, H2, H3, H4, F1, F2, F3, F4. repeat split; reflexivity.
Qed.

Lemma committed_frame queue w :
  sessions (committed queue w) = sessions w /\
  unhealthyErrors (committed queue w) = unhealthyErrors w /\
  tick (committed queue w) = tick w /\
  trace (committed queue w) = trace w ++ [EvExec queue].
Proof.
  unfold committed.
  destruct (apply_queue_frame queue (set_trace (trace w ++ [EvExec queue]) w))
    as (H1 & H2 & H3 & H4).
  rewrite H1, H2, H3, H4. repeat split; reflexivity.
Qed.

(** The events of a reload that goes through: the probes of the file's
    URLs, in file order, then the commit. *)
Lemma loadRpcConfig_trace w cs :
  readFile E (tick w) = ChainsArray cs -> urls_present cs = true ->
  trace (snd (loadRpcConfig E w)) =
  trace w ++ EvReload :: map EvProbe (file_urls cs)
          ++ [EvExec (reload_queue E (reload_started w) cs)].
Proof.
  intros Hf Hp. rewrite loadRpcConfig_run, Hf, Hp. cbn [snd].
  destruct (committed_frame (reload_queue E (reload_started w) cs)
              (after_probes E (file_urls cs) (reload_started w))) as (_ & _ & _ & ->).
  destruct (after_probes_frame E (file_urls cs) (reload_started w))
    as (_ & _ & _ & _ & -> & _).
  cbn [reload_started set_tick set_trace trace].
  rewrite <- !app_assoc. reflexivity.
Qed.

(** A reload goes through exactly when the file holds a [chains] array
    whose elements all have [urls]. *)
Lemma loadRpcConfig_ok w :
  fst (loadRpcConfig E w) = Ok tt <->
  exists cs, readFile E (tick w) = ChainsArray cs /\ urls_present cs = true.
Proof.
  rewrite loadRpcConfig_run.
  destruct (readFile E (tick w)) as [| | |[v|cs]]; cbn [fst];
    try (split; [discriminate | intros (cs' & [=] & _)]).
  destruct (urls_present cs) eqn:Hp; cbn [fst].
  - split; [intros _; exists cs; auto | reflexivity].
  - split; [discriminate | intros (cs' & [= <-] & Hp')]. congruence.
Qed.

(** A reload writes neither the session store nor the collapse window, and
    its first event is the reload itself. *)
Lemma loadRpcConfig_frame w :
  sessions (snd (loadRpcConfig E w)) = sessions w /\
  unhealthyErrors (snd (loadRpcConfig E w)) = unhealthyErrors w /\
  exists rest, trace (snd (loadRpcConfig E w)) = trace w ++ EvReload :: rest.
Proof.
  rewrite loadRpcConfig_run.
  assert (Hs : sessions (reload_started w) = sessions w /\
               unhealthyErrors (reload_started w) = unhealthyErrors w /\
               exists rest, trace (reload_started w) = trace w ++ EvReload :: rest).
  { repeat split. exists []. reflexivity. }
  destruct (readFile E (tick w)) as [| | |[v|cs]]; cbn [snd]; try exact Hs.
  destruct (urls_present cs); cbn [snd]; [|exact Hs].
  destruct (committed_frame (reload_queue E (reload_started w) cs)
              (after_probes E (file_urls cs) (reload_started w))) as (-> & -> & _ & ->).
  destruct (after_probes_frame E (file_urls cs) (reload_started w))
    as (_ & -> & -> & _ & -> & _).
  repeat split. eexists. cbn [reload_started set_tick set_trace trace].
  rewrite <- !app_assoc. reflexivity.
Qed.

End Reload.

Lemma precede_commit_shape (us : list string) (q : list Cmd) :
  probes_precede_commit (EvReload :: map EvProbe us ++ [EvExec q]).
Proof.
  intros i j url queue Hi Hj.
  destruct j as [|j]; [discriminate|]. cbn in Hj.
  apply lookup_app_Some in Hj. destruct Hj as [Hj|[Hlen _]].
  { rewrite list_lookup_fmap in Hj. destruct (us !! j); discriminate. }
  destruct i as [|i]; [lia|]. cbn in Hi.
  apply lookup_app_Some in Hi. destruct Hi as [Hi|[_ Hi]].
  - apply lookup_lt_Some in Hi. lia.
  - destruct (i - length (map EvProbe us))%nat; [discriminate|]. cbn in Hi. discriminate.
Qed.

(** C4, as the code has it.  In every run of [loadRpcConfig] that goes
    through, the events are: the probes of the URLs of the file's chains,
    one per occurrence and in file order, then the commit of the queue;
    every probe comes before the commit.  The probes write the health hash
    directly: the queue is applied to the world the probes have left. *)
Theorem C4_probes_precede_commit (E : Env) (w : World) :
  fst (loadRpcConfig E w) = Ok tt ->
  exists cs,
    readFile E (tick w) = ChainsArray cs /\
    let queue := reload_queue E (reload_started w) cs in
    let run := EvReload :: map EvProbe (file_urls cs) ++ [EvExec queue] in
    trace (snd (loadRpcConfig E w)) = trace w ++ run /\
    probes_precede_commit run /\
    snd (loadRpcConfig E w)
      = committed queue (after_probes E (file_urls cs) (reload_started w)).
Proof.
  intros Hok. apply loadRpcConfig_ok in Hok. destruct Hok as (cs & Hf & Hp).
  exists cs. split; [exact Hf|]. cbn zeta.
  split; [apply loadRpcConfig_trace; assumption|].
  split; [apply precede_commit_shape|].
  rewrite loadRpcConfig_run, Hf, Hp. reflexivity.
Qed.

Lemma C4_probes_precede_commit_witness :
  exists cs,
    readFile Scenario.env_reload (tick Scenario.world1) = ChainsArray cs /\
    let queue := reload_queue Scenario.env_reload (reload_started Scenario.world1) cs in
    let run := EvReload :: map EvProbe (file_urls cs) ++ [EvExec queue] in
    trace (snd (loadRpcConfig Scenario.env_reload Scenario.world1))
      = trace Scenario.world1 ++ run /\
    probes_precede_commit run /\
    snd (loadRpcConfig Scenario.env_reload Scenario.world1)
      = committed queue
          (after_probes Scenario.env_reload (file_urls cs) (reload_started Scenario.world1)).
Proof.
  apply (C4_probes_precede_commit Scenario.env_reload Scenario.world1).
  vm_compute. reflexivity.
Defined.

(** C4 as stated fails: the reload of a file with the one URL [A] goes
    through, and its probe of [A] is the event before the commit. *)
Lemma C4_probes_follow_commit_counterexample :
  fst (loadRpcConfig Scenario.env_reload Scenario.world1) = Ok tt /\
  trace (snd (loadRpcConfig Scenario.env_reload Scenario.world1))
    = [EvReload; EvProbe "A"; EvExec Scenario.queue_one_url] /\
  ~ probes_follow_commit (trace (snd (loadRpcConfig Scenario.env_reload Scenario.world1))).
Proof.
  assert (Ht : trace (snd (loadRpcConfig Scenario.env_reload Scenario.world1))
               = [EvReload; EvProbe "A"; EvExec Scenario.queue_one_url]).
  { rewrite (loadRpcConfig_trace Scenario.env_reload Scenario.world1 _ eq_refl eq_refl).
    reflexivity. }
  split; [vm_compute; reflexivity|]. split; [exact Ht|].
  rewrite Ht. intros H.
  specialize (H 1%nat 2%nat "A"%string Scenario.queue_one_url eq_refl eq_refl). lia.
Qed.

(** Whether the test [!configFile.chains || !Array.isArray(configFile.chains)]
    rejects is decided by [Array.isArray] alone: what is not an array is
    rejected whether it is truthy or not, and an array is truthy. *)
Lemma chains_test_not_array (chains : ChainsValue) :
  negb (chains_truthy chains) || negb (Array_isArray chains) = true <->
  chains_key_missing chains = true \/ Array_isArray chains = false.
Proof.
  destruct chains as [v|cs]; cbn [chains_truthy Array_isArray negb orb].
  - rewrite orb_true_r. split; auto.
  - split; [discriminate | intros [H|H]; discriminate].
Qed.

(** C5, as the code has it.  [loadRpcConfig] surfaces [InvalidConfig]
    exactly for the files whose parsed content is a value other than [null]
    that has no [chains] key or whose [chains] is not an array, and then
    nothing in Redis has changed.  A file that is the JSON [null] makes the
    call fail with a [TypeError] where [configFile.chains] is read, and a
    [chains] array with an element that has no [urls] makes it fail with a
    [TypeError] too, both before any write.  Every other [chains] array is
    loaded, whether or not its elements have [chainId] and [name]. *)
Theorem C5_invalid_config_iff_no_chains_array (E : Env) (w : World) :
  (fst (loadRpcConfig E w) = Throw (Error ERROR_MESSAGES.INVALID_CONFIG) <->
   exists chains,
     readFile E (tick w) = Parsed chains /\
     (chains_key_missing chains = true \/ Array_isArray chains = false)) /\
  (fst (loadRpcConfig E w) = Throw (Error ERROR_MESSAGES.INVALID_CONFIG) ->
   same_kv w (snd (loadRpcConfig E w))) /\
  (readFile E (tick w) = FileNull ->
   fst (loadRpcConfig E w) = Throw TypeError /\ same_kv w (snd (loadRpcConfig E w))) /\
  (forall cs, readFile E (tick w) = ChainsArray cs -> urls_present cs = false ->
     fst (loadRpcConfig E w) = Throw TypeError /\ same_kv w (snd (loadRpcConfig E w))) /\
  (forall cs, readFile E (tick w) = ChainsArray cs -> urls_present cs = true ->
     fst (loadRpcConfig E w) = Ok tt).
Proof.
  assert (Hkv : same_kv w (reload_started w)) by (repeat split; reflexivity).
  assert (Hiff : fst (loadRpcConfig E w) = Throw (Error ERROR_MESSAGES.INVALID_CONFIG) <->
                 exists chains, readFile E (tick w) = Parsed chains /\
                   negb (chains_truthy chains) || negb (Array_isArray chains) = true).
  { rewrite loadRpcConfig_run.
    destruct (readFile E (tick w)) as [| | |[v|cs]] eqn:Hf; cbn [fst];
      try (split; [discriminate | intros (c & [=] & _)]).
    - split; [intros _ | reflexivity].
      exists (NotArray v). split; [reflexivity|].
      apply chains_test_not_array. right. reflexivity.
    - split; [destruct (urls_present cs); discriminate|].
      intros (c & [= <-] & Hc). discriminate. }
  split.
  { rewrite Hiff. split; intros (c & Hf & Hc); exists c; (split; [exact Hf|]);
      apply chains_test_not_array; exact Hc. }
  split.
  { intros Hthrow. apply Hiff in Hthrow. destruct Hthrow as (c & Hf & Hc).
    rewrite loadRpcConfig_run, Hf.
    destruct c as [v|cs]; [exact Hkv | discriminate]. }
  rewrite loadRpcConfig_run.
  split; [intros ->; split; [reflexivity | exact Hkv]|].
  split; intros cs -> Hp; rewrite Hp; cbn [fst snd]; auto.
Qed.

Lemma C5_invalid_config_iff_no_chains_array_witness :
  fst (loadRpcConfig Scenario.env_broken_file Scenario.world1)
    = Throw (Error ERROR_MESSAGES.INVALID_CONFIG) /\
  same_kv Scenario.world1 (snd (loadRpcConfig Scenario.env_broken_file Scenario.world1)).
Proof.
  pose proof (C5_invalid_config_iff_no_chains_array
                Scenario.env_broken_file Scenario.world1) as (Hiff & Hkv & _).
  assert (Hthrow : fst (loadRpcConfig Scenario.env_broken_file Scenario.world1)
                   = Throw (Error ERROR_MESSAGES.INVALID_CONFIG)).
  { apply Hiff. exists (NotArray NaUndefined). split; [reflexivity | left; reflexivity]. }
  split; [exact Hthrow | exact (Hkv Hthrow)].
Defined.

(** The test at work: a [chains] that is [null] or [0] is rejected by
    [!chains], one that is a string or an object by [Array.isArray]; the
    empty array is loaded, and a file that is the JSON [null] is a
    [TypeError]. *)
Example chains_test_scenarios :
  let run f := fst (loadRpcConfig (Scenario.env_of (fun _ _ => NoResponse) f) Scenario.world1) in
  run (Parsed (NotArray NaNull)) = Throw (Error ERROR_MESSAGES.INVALID_CONFIG) /\
  run (Parsed (NotArray (NaNum 0))) = Throw (Error ERROR_MESSAGES.INVALID_CONFIG) /\
  run (Parsed (NotArray (NaStr "mainnet"))) = Throw (Error ERROR_MESSAGES.INVALID_CONFIG) /\
  run (Parsed (NotArray (NaObj []))) = Throw (Error ERROR_MESSAGES.INVALID_CONFIG) /\
  run (ChainsArray []) = Ok tt /\
  run FileNull = Throw TypeError.
Proof. vm_compute. repeat split; reflexivity. Qed.

(** C5 as stated fails: a file whose only element has no [name] is rejected
    by the stated conditions, yet the reload goes through and stores the
    chain under [rpc:chain:7]. *)
Lemma C5_element_without_name_counterexample :
  spec_rejected Scenario.file_no_name = true /\
  fst (loadRpcConfig Scenario.env_no_name Scenario.world1) = Ok tt /\
  chains Scenario.world1 !! chainKey (Some 7) = None /\
  chains (snd (loadRpcConfig Scenario.env_no_name Scenario.world1)) !! chainKey (Some 7)
    = Some (Some 86400,
            {| config_chainId := Some 7; config_name := None;
               config_urls := ["D"%string] |}).
Proof. vm_compute. repeat split; reflexivity. Qed.

(** ** Collapse of a chain *)

Section Collapse.

Variable E : Env.

Lemma checkForceReload_run w :
  checkForceReload E w =
  if (ERROR_THRESHOLD <=? length (window_pushed E w))%nat then
    loadRpcConfig E (set_unhealthyErrors [] (set_tick (S (tick w)) w))
  else (Ok tt, set_unhealthyErrors (window_pushed E w) (set_tick (S (tick w)) w)).
Proof.
  unfold checkForceReload, window_pushed.
  cbv [bind Date_now fresh ret gets modify].
  cbn [unhealthyErrors set_tick tick].
  destruct (_ <=? _)%nat; reflexivity.
Qed.

Lemma getHealthyRpcUrl_collapsed w chainId ttl config :
  chains w !! chainKey (Some chainId) = Some (ttl, config) ->
  List.filter (eligible E (health w)) (config_urls config) = [] ->
  getHealthyRpcUrl E chainId w =
  match checkForceReload E w with
  | (Ok _, w') => (Throw (Error ERROR_MESSAGES.NO_HEALTHY_RPC), w')
  | (Throw e, w') => (Throw e, w')
  end.
Proof.
  intros Hcfg Hnone. unfold getHealthyRpcUrl.
  unfold bind at 1. unfold getChainConfig, gets at 1. rewrite Hcfg.
  cbn [fmap option_fmap option_map snd].
  unfold bind at 1. unfold gets at 1. rewrite Hnone. cbn [length Nat.eqb].
  unfold bind, throw. destruct (checkForceReload E w) as [[[]|e] w']; reflexivity.
Qed.

(** A selection that returns a URL changes nothing. *)
Lemma getHealthyRpcUrl_ok_pure w chainId u w' :
  getHealthyRpcUrl E chainId w = (Ok u, w') -> w' = w.
Proof.
  unfold getHealthyRpcUrl.
  unfold bind at 1. unfold getChainConfig, gets at 1.
  destruct (chains w !! chainKey (Some chainId)) as [[ttl config]|];
    cbn [fmap option_fmap option_map snd]; [|discriminate].
  unfold bind at 1. unfold gets at 1.
  destruct (_ =? _)%nat.
  - unfold bind, throw. destruct (checkForceReload E w) as [[[]|e] w0]; discriminate.
  - unfold ret. intros [= _ <-]. reflexivity.
Qed.

End Collapse.

(** C9, as the code has it.  When the chain config is present and no URL of
    it is eligible, [getHealthyRpcUrl] drops the entries older than ten
    seconds from the window and pushes one entry.  With fewer than 3 entries
    the call fails with [NoHealthyRpc], the window keeps them and no reload
    happens.  With 3 or more the window is cleared and [loadRpcConfig] is
    called: the call then fails with [NoHealthyRpc] if the reload goes
    through, and with the reload's own error if the reload fails. *)
Theorem C9_collapse_window (E : Env) (w : World) (chainId : Z)
    (ttl : option Z) (config : RpcConfig) :
  chains w !! chainKey (Some chainId) = Some (ttl, config) ->
  List.filter (eligible E (health w)) (config_urls config) = [] ->
  let r := getHealthyRpcUrl E chainId w in
  let cleared := set_unhealthyErrors [] (set_tick (S (tick w)) w) in
  ((length (window_pushed E w) < ERROR_THRESHOLD)%nat ->
     fst r = Throw (Error ERROR_MESSAGES.NO_HEALTHY_RPC) /\
     unhealthyErrors (snd r) = window_pushed E w /\
     trace (snd r) = trace w) /\
  ((ERROR_THRESHOLD <= length (window_pushed E w))%nat ->
     unhealthyErrors (snd r) = [] /\
     (exists rest, trace (snd r) = trace w ++ EvReload :: rest) /\
     snd r = snd (loadRpcConfig E cleared) /\
     fst r = match fst (loadRpcConfig E cleared) with
             | Ok _ => Throw (Error ERROR_MESSAGES.NO_HEALTHY_RPC)
             | Throw e => Throw e
             end).
Proof.
  intros Hcfg Hnone. cbn zeta.
  rewrite (getHealthyRpcUrl_collapsed E w chainId ttl config Hcfg Hnone).
  rewrite checkForceReload_run.
  split; intros Hlen.
  - destruct (Nat.leb_spec ERROR_THRESHOLD (length (window_pushed E w))); [lia|].
    repeat split; reflexivity.
  - destruct (Nat.leb_spec ERROR_THRESHOLD (length (window_pushed E w))); [|lia].
    destruct (loadRpcConfig_frame E (set_unhealthyErrors [] (set_tick (S (tick w)) w)))
      as (_ & Hwin & rest & Htr).
    destruct (loadRpcConfig E (set_unhealthyErrors [] (set_tick (S (tick w)) w)))
      as [[[]|e] w'] eqn:Hload; cbn [fst snd] in *;
      (split; [exact Hwin|]; split; [exists rest; exact Htr|]; split; reflexivity).
Qed.

Lemma C9_collapse_window_witness :
  fst (getHealthyRpcUrl Scenario.env_reload 1 Scenario.world_collapsed)
    = Throw (Error ERROR_MESSAGES.NO_HEALTHY_RPC) /\
  unhealthyErrors (snd (getHealthyRpcUrl Scenario.env_reload 1 Scenario.world_collapsed)) = [] /\
  fst (getHealthyRpcUrl Scenario.env_reload 1 Scenario.world_unhealthy)
    = Throw (Error ERROR_MESSAGES.NO_HEALTHY_RPC) /\
  unhealthyErrors (snd (getHealthyRpcUrl Scenario.env_reload 1 Scenario.world_unhealthy))
    = [1000].
Proof.
  pose proof (C9_collapse_window Scenario.env_reload Scenario.world_collapsed 1
                (Some 86400) Scenario.chain1 eq_refl eq_refl) as [_ Hfull].
  pose proof (C9_collapse_window Scenario.env_reload Scenario.world_unhealthy 1
                (Some 86400) Scenario.chain1 eq_refl eq_refl) as [Hfew _].
  cbn zeta in Hfull, Hfew.
  destruct (Hfull ltac:(vm_compute; lia)) as (Hwin & _ & _ & Hres).
  destruct (Hfew ltac:(vm_compute; lia)) as (Hres' & Hwin' & _).
  split; [rewrite Hres; vm_compute; reflexivity|].
  split; [exact Hwin|]. split; [exact Hres'|].
  rewrite Hwin'. vm_compute. reflexivity.
Defined.

(** C9 as stated fails: on the third failed selection within ten seconds the
    reload is invoked, the file has lost its [chains] key, and the call
    fails with [InvalidConfig] instead of [NoHealthyRpc]. *)
Lemma C9_reload_error_counterexample :
  chains Scenario.world_collapsed !! chainKey (Some 1)
    = Some (Some 86400, Scenario.chain1) /\
  List.filter (eligible Scenario.env_broken_file (health Scenario.world_collapsed))
    (config_urls Scenario.chain1) = [] /\
  fst (getHealthyRpcUrl Scenario.env_broken_file 1 Scenario.world_collapsed)
    = Throw (Error ERROR_MESSAGES.INVALID_CONFIG) /\
  fst (getHealthyRpcUrl Scenario.env_broken_file 1 Scenario.world_collapsed)
    <> Throw (Error ERROR_MESSAGES.NO_HEALTHY_RPC).
Proof.
  assert (H : fst (getHealthyRpcUrl Scenario.env_broken_file 1 Scenario.world_collapsed)
              = Throw (Error ERROR_MESSAGES.INVALID_CONFIG))
    by (vm_compute; reflexivity).
  split; [vm_compute; reflexivity|]. split; [vm_compute; reflexivity|].
  split; [exact H|]. rewrite H. discriminate.
Qed.

(** ** The executor *)

Section Executor.

Variable E : Env.

(** The forwarded POST fails: the upstream is probed at once, then the
    body decides the answer. *)
Lemma forward_failed session w :
  resolves (http E (tick w) (session_url session)) = false ->
  forward E session w =
  (failure_reply (http E (tick w) (session_url session)) (session_id session),
   after_probe E (session_url session) (posted (session_url session) w)).
Proof.
  intros Hr. unfold forward.
  unfold bind at 1. unfold log, modify.
  unfold bind at 1. unfold axios_post. unfold bind at 1. unfold fresh, ret.
  cbn [tick set_trace]. rewrite Hr.
  unfold bind at 1. rewrite checkHealth_run.
  unfold failure_reply, posted.
  destruct (http E (tick w) (session_url session)) as [|status data];
    [reflexivity|].
  destruct (truthy data); reflexivity.
Qed.

(** The forwarded POST gets a 2xx answer: the session is touched and the
    body formatted. *)
Lemma forward_resolved session w status data :
  http E (tick w) (session_url session) = Response status data ->
  resolves (Response status data) = true ->
  forward E session w =
  (Ok (formatRpcResponse data (session_id session)),
   set_sessions (fun m => <[sessionKey (session_id session) :=
                              (sessionTtl E, touched E (S (tick w)) session)]> m)
     (set_tick (S (S (tick w))) (posted (session_url session) w))).
Proof.
  intros Ho Hr. unfold forward.
  unfold bind at 1. unfold log, modify.
  unfold bind at 1. unfold axios_post. unfold bind at 1. unfold fresh, ret.
  cbn [tick set_trace]. rewrite Ho, Hr.
  reflexivity.
Qed.

(** The formatted reply of an object has four members and no other. *)
Lemma formatRpcResponse_object fields sessionId :
  formatRpcResponse (JObj fields) sessionId =
  JObj [("id"%string, assoc_lookup "id" fields);
        ("jsonrpc"%string, assoc_lookup "jsonrpc" fields);
        ("sessionId"%string, JStr sessionId);
        ("result"%string,
         get_prop (formatRpcResponse (JObj fields) sessionId) "result")].
Proof. reflexivity. Qed.

End Executor.

(** C2, as the code has it.  When the forwarded POST fails (no answer, or a
    status outside 2xx), [executeRequest] probes [session.url] at once.  If
    the failure carries a truthy decoded body, the call returns
    [formatRpcResponse] of it; of an object body the reply holds [id],
    [jsonrpc], [sessionId] and the converted [result], and nothing else.
    With no answer or a falsy body the call fails with [NoHealthyRpc]. *)
Theorem C2_failed_forward (E : Env) (chainId : Z) (rpcRequest : JsValue)
    (sessionId : option string) (w w1 : World) (session : RpcSession) :
  resolveSession E chainId sessionId w = (Ok session, w1) ->
  resolves (http E (tick w1) (session_url session)) = false ->
  let r := executeRequest E chainId rpcRequest sessionId w in
  let url := session_url session in
  snd r = after_probe E url (posted url w1) /\
  trace (snd r) = trace w1 ++ [EvPost url; EvProbe url] /\
  health (snd r) !! url = Some (probe_record E url (posted url w1)) /\
  fst r = failure_reply (http E (tick w1) url) (session_id session) /\
  (forall status fields,
      http E (tick w1) url = Response status (JObj fields) ->
      fst r = Ok (JObj [("id"%string, assoc_lookup "id" fields);
                        ("jsonrpc"%string, assoc_lookup "jsonrpc" fields);
                        ("sessionId"%string, JStr (session_id session));
                        ("result"%string,
                         get_prop (formatRpcResponse (JObj fields) (session_id session))
                                  "result")])).
Proof.
  intros Hres Hr. cbn zeta. unfold executeRequest, bind. rewrite Hres.
  rewrite (forward_failed E session w1 Hr). cbn [fst snd].
  split; [reflexivity|]. split.
  { cbn [after_probe posted trace set_tick set_trace]. rewrite <- app_assoc. reflexivity. }
  split; [cbn [after_probe health]; apply lookup_insert_eq|].
  split; [reflexivity|].
  intros status fields Ho. rewrite Ho. cbn [failure_reply truthy].
  rewrite formatRpcResponse_object at 1. reflexivity.
Qed.

Lemma C2_failed_forward_witness :
  trace (snd (executeRequest Scenario.env_error_500 1 (JObj []) (Some "s1"%string)
                Scenario.world1))
    = [EvPost "A"; EvProbe "A"] /\
  fst (executeRequest Scenario.env_error_500 1 (JObj []) (Some "s1"%string) Scenario.world1)
    = failure_reply (Response 500 Scenario.error_body) "s1".
Proof.
  pose proof (C2_failed_forward Scenario.env_error_500 1 (JObj []) (Some "s1"%string)
                Scenario.world1 Scenario.world1 Scenario.session1 eq_refl eq_refl)
    as (_ & Htrace & _ & Hreply & _).
  split; [exact Htrace | exact Hreply].
Defined.

(** C2 as stated fails: the upstream answers HTTP 500 with a JSON-RPC error
    body; the call returns a formatted reply, and the reply has no [error]
    member: the upstream's error payload does not reach the client. *)
Lemma C2_error_payload_dropped_counterexample :
  resolves (Response 500 Scenario.error_body) = false /\
  get_prop Scenario.error_body "error" <> JUndefined /\
  fst (executeRequest Scenario.env_error_500 1 (JObj []) (Some "s1"%string) Scenario.world1)
    = Ok (JObj [("id"%string, JNum 1); ("jsonrpc"%string, JStr "2.0");
                ("sessionId"%string, JStr "s1"); ("result"%string, JUndefined)]) /\
  get_prop (JObj [("id"%string, JNum 1); ("jsonrpc"%string, JStr "2.0");
                  ("sessionId"%string, JStr "s1"); ("result"%string, JUndefined)]) "error"
    = JUndefined.
Proof.
  split; [reflexivity|]. split; [vm_compute; discriminate|].
  split; vm_compute; reflexivity.
Qed.

(** ** Sessions *)

Lemma sessionKey_inj a b : sessionKey a = sessionKey b -> a = b.
Proof. unfold sessionKey. cbn. intros [= H]. exact H. Qed.

#[export] Instance sessions_stable (m : gmap string (Z * RpcSession)) :
  Stable (fun w => sessions w = m).
Proof.
  split.
  - intros n w H. exact H.
  - intros t w H. exact H.
  - intros l w H. exact H.
  - intros E url w H. exact H.
  - intros c w H. rewrite <- H. apply (apply_cmd_frame c w).
Qed.

Section Sessions.

Variable E : Env.

Lemma getHealthyRpcUrl_sessions chainId w :
  sessions (snd (getHealthyRpcUrl E chainId w)) = sessions w.
Proof. apply (preserves_getHealthyRpcUrl (fun w0 => sessions w0 = sessions w)). reflexivity. Qed.

Lemma createSession_ok chainId w u :
  fst (getHealthyRpcUrl E chainId w) = Ok u ->
  createSession E chainId w =
  (Ok (created E (tick w) chainId u),
   set_sessions (fun m => <[sessionKey (uuidv4 E (tick w)) :=
                              (sessionTtl E, created E (tick w) chainId u)]> m)
     (set_tick (3 + tick w) w)).
Proof.
  intros Hsel. destruct (getHealthyRpcUrl E chainId w) as [r w'] eqn:Hrun.
  cbn [fst] in Hsel. subst r.
  pose proof (getHealthyRpcUrl_ok_pure E w chainId u w' Hrun) as ->.
  unfold createSession. unfold bind at 1. rewrite Hrun. reflexivity.
Qed.

Lemma createSession_throw chainId w e :
  fst (getHealthyRpcUrl E chainId w) = Throw e ->
  createSession E chainId w = (Throw e, snd (getHealthyRpcUrl E chainId w)).
Proof.
  intros Hsel. destruct (getHealthyRpcUrl E chainId w) as [r w'] eqn:Hrun.
  cbn [fst] in Hsel. subst r.
  unfold createSession. unfold bind at 1. rewrite Hrun. reflexivity.
Qed.

(** Forwarding writes the session store under the key of its session only. *)
Lemma forward_sessions_other session w k :
  k <> sessionKey (session_id session) ->
  sessions (snd (forward E session w)) !! k = sessions w !! k.
Proof.
  intros Hk.
  destruct (resolves (http E (tick w) (session_url session))) eqn:Hr.
  - destruct (http E (tick w) (session_url session)) as [|status data] eqn:Ho;
      [discriminate|].
    rewrite (forward_resolved E session w status data Ho Hr).
    cbn [snd set_sessions sessions]. rewrite lookup_insert_ne by congruence.
    reflexivity.
  - rewrite (forward_failed E session w Hr). reflexivity.
Qed.

(** The record of the forwarded session keeps its upstream and its chain. *)
Lemma forward_sessions_self session w ttl :
  sessions w !! sessionKey (session_id session) = Some (ttl, session) ->
  exists ttl' stored,
    sessions (snd (forward E session w)) !! sessionKey (session_id session)
      = Some (ttl', stored) /\
    session_url stored = session_url session /\
    session_chainId stored = session_chainId session.
Proof.
  intros Hs.
  destruct (resolves (http E (tick w) (session_url session))) eqn:Hr.
  - destruct (http E (tick w) (session_url session)) as [|status data] eqn:Ho;
      [discriminate|].
    rewrite (forward_resolved E session w status data Ho Hr).
    cbn [snd set_sessions sessions]. rewrite lookup_insert_eq.
    eexists _, _. split; [reflexivity|]. split; reflexivity.
  - rewrite (forward_failed E session w Hr).
    exists ttl, session. split; [exact Hs|]. split; reflexivity.
Qed.

(** The binding of a call whose session belongs to another chain: the
    record is deleted, then a session is created. *)
Lemma resolveSession_switch chainId s w ttl old :
  s <> ""%string ->
  sessions w !! sessionKey s = Some (ttl, old) ->
  session_chainId old <> chainId ->
  resolveSession E chainId (Some s) w =
  createSession E chainId (set_sessions (fun m => delete (sessionKey s) m) w).
Proof.
  intros Hne Hs Hc. unfold resolveSession.
  destruct (String.eqb_spec s ""); [contradiction|].
  unfold bind at 1. unfold getSession, gets. rewrite Hs.
  cbn [fmap option_fmap option_map snd].
  destruct (Z.eqb_spec (session_chainId old) chainId); [contradiction|].
  cbn [negb]. reflexivity.
Qed.

End Sessions.

(** C7, as the code has it.  When the stored record of session [s] belongs
    to another chain than the requested [c'], [executeRequest] deletes the
    record under [session:{s}] before anything else, so that [getSession s]
    yields null afterwards; the old record is never rewritten.  If the
    selection for [c'] returns a URL, a fresh session bound to [c'] and that
    URL is stored and the request is forwarded through it.  If the selection
    fails, the call fails with that error: the old record is gone and no new
    one exists. *)
Theorem C7_chain_switch (E : Env) (w : World) (chainId : Z) (rpcRequest : JsValue)
    (s : string) (ttl : Z) (old : RpcSession) :
  s <> ""%string ->
  sessions w !! sessionKey s = Some (ttl, old) ->
  session_chainId old <> chainId ->
  (forall t, uuidv4 E t <> s) ->
  let deleted := set_sessions (fun m => delete (sessionKey s) m) w in
  let r := executeRequest E chainId rpcRequest (Some s) w in
  fst (getSession s (snd r)) = Ok None /\
  (forall e, fst (getHealthyRpcUrl E chainId deleted) = Throw e ->
     fst r = Throw e /\ sessions (snd r) = delete (sessionKey s) (sessions w)) /\
  (forall u, fst (getHealthyRpcUrl E chainId deleted) = Ok u ->
     let fresh := created E (tick deleted) chainId u in
     session_chainId fresh = chainId /\ session_url fresh = u /\
     session_id fresh <> s /\
     r = forward E fresh
           (set_sessions (fun m => <[sessionKey (session_id fresh) := (sessionTtl E, fresh)]> m)
              (set_tick (3 + tick deleted) deleted)) /\
     exists ttl' stored,
       sessions (snd r) !! sessionKey (session_id fresh) = Some (ttl', stored) /\
       session_url stored = u /\ session_chainId stored = chainId).
Proof.
  intros Hne Hs Hc Hfresh. cbn zeta.
  set (deleted := set_sessions (fun m => delete (sessionKey s) m) w).
  assert (Hrun : executeRequest E chainId rpcRequest (Some s) w =
                 match createSession E chainId deleted with
                 | (Ok session, w') => forward E session w'
                 | (Throw e, w') => (Throw e, w')
                 end).
  { unfold executeRequest, bind.
    rewrite (resolveSession_switch E chainId s w ttl old Hne Hs Hc). reflexivity. }
  assert (Hthrow : forall e, fst (getHealthyRpcUrl E chainId deleted) = Throw e ->
            fst (executeRequest E chainId rpcRequest (Some s) w) = Throw e /\
            sessions (snd (executeRequest E chainId rpcRequest (Some s) w))
              = delete (sessionKey s) (sessions w)).
  { intros e He. rewrite Hrun.
    rewrite (createSession_throw E chainId deleted e He). cbn [fst snd].
    split; [reflexivity|]. apply getHealthyRpcUrl_sessions. }
  assert (Hok : forall u, fst (getHealthyRpcUrl E chainId deleted) = Ok u ->
            executeRequest E chainId rpcRequest (Some s) w =
            forward E (created E (tick deleted) chainId u)
              (set_sessions (fun m => <[sessionKey (uuidv4 E (tick deleted)) :=
                                 (sessionTtl E, created E (tick deleted) chainId u)]> m)
                 (set_tick (3 + tick deleted) deleted))).
  { intros u Hu. rewrite Hrun.
    rewrite (createSession_ok E chainId deleted u Hu). reflexivity. }
  split; [|split].
  - unfold getSession, gets. cbn [fst].
    destruct (fst (getHealthyRpcUrl E chainId deleted)) as [u|e] eqn:Hsel.
    + rewrite (Hok u eq_refl).
      rewrite forward_sessions_other.
      * cbn [set_sessions sessions set_tick deleted].
        rewrite lookup_insert_ne, lookup_delete_eq; [reflexivity|].
        intros Heq. apply sessionKey_inj in Heq. exact (Hfresh _ Heq).
      * cbn [created session_id]. intros Heq. apply sessionKey_inj in Heq.
        exact (Hfresh _ (eq_sym Heq)).
    + destruct (Hthrow e eq_refl) as [_ ->]. rewrite lookup_delete_eq. reflexivity.
  - exact Hthrow.
  - intros u Hu. cbn zeta. cbn [created session_chainId session_url session_id].
    split; [reflexivity|]. split; [reflexivity|]. split; [apply Hfresh|].
    split; [exact (Hok u Hu)|].
    rewrite (Hok u Hu).
    destruct (forward_sessions_self E (created E (tick deleted) chainId u)
                (set_sessions (fun m => <[sessionKey (uuidv4 E (tick deleted)) :=
                                 (sessionTtl E, created E (tick deleted) chainId u)]> m)
                   (set_tick (3 + tick deleted) deleted)) (sessionTtl E))
      as (ttl' & stored & Hl & Hurl & Hch).
    { cbn [set_sessions sessions created session_id]. apply lookup_insert_eq. }
    exists ttl', stored. split; [exact Hl|]. split; assumption.
Qed.

Lemma C7_chain_switch_witness :
  fst (getSession "s1"
         (snd (executeRequest Scenario.env_down 137 (JObj []) (Some "s1"%string)
                 Scenario.world2))) = Ok None /\
  exists ttl' stored,
    sessions (snd (executeRequest Scenario.env_down 137 (JObj []) (Some "s1"%string)
                     Scenario.world2)) !! sessionKey "uuid-0" = Some (ttl', stored) /\
    session_url stored = "P"%string /\ session_chainId stored = 137.
Proof.
  pose proof (C7_chain_switch Scenario.env_down Scenario.world2 137 (JObj []) "s1"
                3600 Scenario.session1) as H.
  destruct H as (Hgone & _ & Hfresh).
  - discriminate.
  - reflexivity.
  - vm_compute. discriminate.
  - intros t. cbn. discriminate.
  - split; [exact Hgone|].
    destruct (Hfresh "P"%string eq_refl) as (_ & _ & _ & _ & Hstored).
    exact Hstored.
Defined.

(** C7 as stated fails: session [s1] belongs to chain 1 and the call asks
    for chain 137, which is not configured.  The record of [s1] is deleted,
    the call fails with [ChainNotFound], and the session store is empty: no
    fresh session exists. *)
Lemma C7_failed_switch_counterexample :
  sessions Scenario.world1 !! sessionKey "s1" = Some (3600, Scenario.session1) /\
  session_chainId Scenario.session1 <> 137 /\
  fst (executeRequest Scenario.env_down 137 (JObj []) (Some "s1"%string) Scenario.world1)
    = Throw (Error ERROR_MESSAGES.CHAIN_NOT_FOUND) /\
  sessions (snd (executeRequest Scenario.env_down 137 (JObj []) (Some "s1"%string)
                   Scenario.world1)) = ∅.
Proof.
  split; [reflexivity|]. split; [vm_compute; discriminate|].
  split; vm_compute; reflexivity.
Qed.

(** ** The endpoint that is not a read *)

Lemma filter_length_Permutation {A} (p : A -> bool) (l l' : list A) :
  Permutation l l' -> length (List.filter p l) = length (List.filter p l').
Proof.
  induction 1 as [|x l l' _ IH|x y l|l l' l'' _ IH1 _ IH2].
  - reflexivity.
  - cbn [List.filter]. destruct (p x); cbn [length]; congruence.
  - cbn [List.filter]. destruct (p x), (p y); reflexivity.
  - congruence.
Qed.

Lemma countChainSessions_insert chainId (m : gmap string (Z * RpcSession)) k ttl session :
  m !! k = None ->
  session_chainId session = chainId ->
  countChainSessions chainId (map_to_list (<[k := (ttl, session)]> m))
  = S (countChainSessions chainId (map_to_list m)).
Proof.
  intros Hk Hc. unfold countChainSessions.
  rewrite (filter_length_Permutation _ _ _ (map_to_list_insert m k (ttl, session) Hk)).
  cbn [List.filter snd]. rewrite Hc, Z.eqb_refl. reflexivity.
Qed.

Section Endpoint.

Variable E : Env.

Lemma getHealthyRpcUrl_ok_config chainId w u :
  fst (getHealthyRpcUrl E chainId w) = Ok u ->
  exists ttl config, chains w !! chainKey (Some chainId) = Some (ttl, config).
Proof.
  unfold getHealthyRpcUrl. unfold bind at 1. unfold getChainConfig, gets at 1.
  destruct (chains w !! chainKey (Some chainId)) as [[ttl config]|];
    [eauto | discriminate].
Qed.

Lemma getChainStats_total chainId w ttl config :
  chains w !! chainKey (Some chainId) = Some (ttl, config) ->
  exists stats,
    getChainStats E chainId w = (Ok stats, w) /\
    totalSessions stats = countChainSessions chainId (map_to_list (sessions w)).
Proof.
  intros Hcfg. unfold getChainStats. unfold bind at 1.
  unfold getChainConfig, gets at 1. rewrite Hcfg.
  cbn [fmap option_fmap option_map snd].
  eexists. split; reflexivity.
Qed.

End Endpoint.

(** C10, as the code has it.  A call of [getEndpoint] whose selection
    returns a URL stores a new record under [session:{id}] with TTL
    [sessionTtl], for an id the caller never sees, and returns only the URL;
    with an id not yet in the store, [totalSessions] of the chain stats goes
    up by one.  A call whose selection fails creates no session: it fails
    with the selection's error and the session store is as before. *)
Theorem C10_getEndpoint_creates_session (E : Env) (w : World) (chainId : Z) :
  let r := getEndpoint E chainId w in
  (forall e, fst (getHealthyRpcUrl E chainId w) = Throw e ->
     fst r = Throw e /\ sessions (snd r) = sessions w) /\
  (forall u, fst (getHealthyRpcUrl E chainId w) = Ok u ->
     sessions w !! sessionKey (uuidv4 E (tick w)) = None ->
     let session := created E (tick w) chainId u in
     fst r = Ok u /\
     sessions (snd r)
       = <[sessionKey (session_id session) := (sessionTtl E, session)]> (sessions w) /\
     exists before after,
       fst (getChainStats E chainId w) = Ok before /\
       fst (getChainStats E chainId (snd r)) = Ok after /\
       totalSessions after = S (totalSessions before)).
Proof.
  cbn zeta. unfold getEndpoint, bind. split.
  - intros e He. rewrite (createSession_throw E chainId w e He). cbn [fst snd].
    split; [reflexivity | apply getHealthyRpcUrl_sessions].
  - intros u Hu Hnew. rewrite (createSession_ok E chainId w u Hu).
    cbn [ret fst snd created session_url session_id set_sessions sessions set_tick].
    split; [reflexivity|]. split; [reflexivity|].
    destruct (getHealthyRpcUrl_ok_config E chainId w u Hu) as (ttl & config & Hcfg).
    destruct (getChainStats_total E chainId w ttl config Hcfg) as (before & Hb & Hbt).
    destruct (getChainStats_total E chainId
                (set_sessions (fun m => <[sessionKey (uuidv4 E (tick w)) :=
                                   (sessionTtl E, created E (tick w) chainId u)]> m)
                   (set_tick (3 + tick w) w)) ttl config Hcfg) as (after & Ha & Hat).
    exists before, after. rewrite Hb.
    cbn [set_sessions sessions set_tick created] in Ha, Hat. rewrite Ha. cbn [fst].
    split; [reflexivity|]. split; [reflexivity|].
    rewrite Hat, Hbt. apply countChainSessions_insert; [exact Hnew | reflexivity].
Qed.

Lemma C10_getEndpoint_creates_session_witness :
  fst (getEndpoint Scenario.env_down 1 Scenario.world1) = Ok "A"%string /\
  sessions (snd (getEndpoint Scenario.env_down 1 Scenario.world1))
    = <[sessionKey "uuid-0" := (3600, created Scenario.env_down 0 1 "A")]>
        (sessions Scenario.world1) /\
  exists before after,
    fst (getChainStats Scenario.env_down 1 Scenario.world1) = Ok before /\
    fst (getChainStats Scenario.env_down 1
           (snd (getEndpoint Scenario.env_down 1 Scenario.world1))) = Ok after /\
    totalSessions after = S (totalSessions before).
Proof.
  pose proof (C10_getEndpoint_creates_session Scenario.env_down Scenario.world1 1)
    as [_ Hok].
  destruct (Hok "A"%string) as (Hurl & Hstore & Hstats).
  - vm_compute. reflexivity.
  - vm_compute. reflexivity.
  - split; [exact Hurl|]. split; [exact Hstore | exact Hstats].
Defined.

(** C10 as stated fails: chain 1 has no eligible URL; the call of
    [getEndpoint] fails with [NoHealthyRpc], stores no session, and
    [totalSessions] for the chain is 0 before and after. *)
Lemma C10_failed_call_counterexample :
  fst (getEndpoint Scenario.env_down 1 Scenario.world_unhealthy)
    = Throw (Error ERROR_MESSAGES.NO_HEALTHY_RPC) /\
  sessions (snd (getEndpoint Scenario.env_down 1 Scenario.world_unhealthy)) = ∅ /\
  totalSessions <$> fst_ok (getChainStats Scenario.env_down 1 Scenario.world_unhealthy)
    = Some 0%nat /\
  totalSessions <$> fst_ok (getChainStats Scenario.env_down 1
      (snd (getEndpoint Scenario.env_down 1 Scenario.world_unhealthy)))
    = Some 0%nat.
Proof. vm_compute. repeat split; reflexivity. Qed.

(** * Further properties *)

(** ** Keys *)

Lemma parseNumber_toString z : parseNumber (Number_toString z) = Some z.
Proof.
  unfold Number_toString. destruct (Z.ltb_spec z 0) as [Hneg|Hpos].
  - cbn [parseNumber]. rewrite DigitsFacts.decimalValue_toString.
    cbn. f_equal. lia.
  - pose proof (DigitsFacts.decimalValue_toString (Z.to_N z)) as Hd.
    unfold parseNumber.
    destruct (Digits.toStringRadix 10 (Z.to_N z)) as [|c rest] eqn:Hs; [discriminate|].
    destruct (Ascii.eqb_spec c "-"%char) as [->|Hc].
    + cbn in Hd. discriminate.
    + assert (Hgo : forall b0 b1 b2 b3 b4 b5 b6 b7,
                c = Ascii b0 b1 b2 b3 b4 b5 b6 b7 ->
                match c with
                | "-"%char => (fun n => - Z.of_N n) <$> Digits.decimalValue rest
                | _ => Z.of_N <$> Digits.decimalValue (String c rest)
                end = Z.of_N <$> Digits.decimalValue (String c rest)).
      { intros b0 b1 b2 b3 b4 b5 b6 b7 ->.
        destruct b0, b1, b2, b3, b4, b5, b6, b7; try reflexivity.
        exfalso. apply Hc. reflexivity. }
      destruct c as [b0 b1 b2 b3 b4 b5 b6 b7].
      rewrite (Hgo b0 b1 b2 b3 b4 b5 b6 b7 eq_refl), Hd. cbn. f_equal. lia.
Qed.

Lemma chainKey_prefix_inj a b :
  (REDIS_KEYS.CHAIN_PREFIX +:+ a)%string = (REDIS_KEYS.CHAIN_PREFIX +:+ b)%string -> a = b.
Proof. cbn. intros [= H]. exact H. Qed.

Lemma chainKey_inj (a b : option Z) : chainKey a = chainKey b -> a = b.
Proof.
  unfold chainKey. intros H. apply chainKey_prefix_inj in H.
  destruct a as [x|], b as [y|]; [| | |reflexivity].
  - apply (f_equal parseNumber) in H. rewrite !parseNumber_toString in H.
    congruence.
  - apply (f_equal parseNumber) in H. rewrite parseNumber_toString in H.
    cbn in H. discriminate.
  - apply (f_equal parseNumber) in H. rewrite parseNumber_toString in H.
    cbn in H. discriminate.
Qed.

(** X1. Chain keys never collide.  For chain ids that are safe integers
    (magnitude at most [2^53 - 1], which the template literal prints as
    their decimal numeral), or absent, two ids with the same key are the
    same id; in particular the key of an element without [chainId]
    ([rpc:chain:undefined]) is the key of no number. *)
Theorem X1_chainKey_injective (a b : option Z) :
  printable_chainId a = true -> printable_chainId b = true ->
  chainKey a = chainKey b -> a = b.
Proof. intros _ _. apply chainKey_inj. Qed.

Lemma X1_chainKey_injective_witness :
  chainKey (Some 1) <> chainKey (Some 137) /\
  chainKey (Some (- MAX_SAFE_INTEGER)) <> chainKey (Some MAX_SAFE_INTEGER) /\
  chainKey (Some 1) <> chainKey None.
Proof.
  split; [|split]; intros H.
  - apply (X1_chainKey_injective (Some 1) (Some 137)) in H;
      [discriminate | reflexivity | reflexivity].
  - apply (X1_chainKey_injective (Some (- MAX_SAFE_INTEGER)) (Some MAX_SAFE_INTEGER)) in H;
      [discriminate | reflexivity | reflexivity].
  - apply (X1_chainKey_injective (Some 1) None) in H;
      [discriminate | reflexivity | reflexivity].
Defined.

(** ** What a reload leaves in Redis *)

Section ReloadState.

Variable E : Env.

Lemma apply_cmd_health c w : health (apply_cmd c w) = health_effect (health w) c.
Proof.
  destruct c as [keys|field|key config|key ttl]; cbn [apply_cmd health_effect].
  - reflexivity.
  - destruct (decide (delete field (health w) = ∅)); reflexivity.
  - reflexivity.
  - destruct (String.eqb key REDIS_KEYS.HEALTH_SET);
      [destruct (decide (health w = ∅))|]; reflexivity.
Qed.

Lemma apply_queue_health queue : forall w,
  health (fold_left (fun acc c => apply_cmd c acc) queue w)
  = fold_left health_effect queue (health w).
Proof.
  induction queue as [|c queue IH]; intros w; [reflexivity|].
  cbn [fold_left]. rewrite IH, apply_cmd_health. reflexivity.
Qed.

Lemma health_effect_HDels (fields : list string) : forall h (url : string),
  fold_left health_effect (map HDel fields) h !! url
  = if decide (url ∈ fields) then None else h !! url.
Proof.
  induction fields as [|f fields IH]; intros h url.
  - cbn. destruct (decide (url ∈ [])) as [Hin|]; [|reflexivity].
    apply elem_of_nil in Hin. contradiction.
  - cbn [map fold_left health_effect]. rewrite IH.
    destruct (decide (url ∈ fields)) as [Hin|Hnin].
    + rewrite decide_True by (right; exact Hin). reflexivity.
    + destruct (decide (url = f)) as [->|Hne].
      * rewrite decide_True by left. apply lookup_delete_eq.
      * rewrite decide_False.
        -- apply lookup_delete_ne. congruence.
        -- intros Hin. apply elem_of_cons in Hin. destruct Hin; contradiction.
Qed.

Lemma health_effect_chain_cmds cs : forall h,
  fold_left health_effect (chain_cmds E cs) h = h.
Proof.
  induction cs as [|c cs IH]; intros h; [reflexivity|].
  cbn [chain_cmds map concat app fold_left health_effect]. apply IH.
Qed.

Lemma after_probes_health us : forall w (url : string),
  is_Some (health (after_probes E us w) !! url) <->
  url ∈ us \/ is_Some (health w !! url).
Proof.
  induction us as [|u us IH]; intros w url.
  - cbn. split; [auto | intros [Hin|H]; [|exact H]].
    apply elem_of_nil in Hin. contradiction.
  - change (after_probes E (u :: us) w) with (after_probes E us (after_probe E u w)).
    rewrite IH. cbn [after_probe health]. rewrite elem_of_cons.
    destruct (decide (u = url)) as [->|Hne].
    + rewrite lookup_insert_eq. split; [intros _; left; left; reflexivity|].
      intros _. right. eauto.
    + rewrite lookup_insert_ne by exact Hne. split.
      * intros [H|H]; auto.
      * intros [[H|H]|H]; auto. congruence.
Qed.

Lemma keys_elem_of {V} (m : gmap string V) (k : string) :
  k ∈ (map_to_list m).*1 <-> is_Some (m !! k).
Proof.
  rewrite list_elem_of_fmap. split.
  - intros ([k' v] & -> & Hin). apply elem_of_map_to_list in Hin. eauto.
  - intros [v Hv]. exists (k, v). split; [reflexivity|].
    apply elem_of_map_to_list. exact Hv.
Qed.

(** The health hash a reload that goes through leaves. *)
Lemma reload_health w cs :
  readFile E (tick w) = ChainsArray cs -> urls_present cs = true ->
  health (snd (loadRpcConfig E w))
  = fold_left health_effect
      (map HDel (filter (fun url => url ∉ (list_to_set (file_urls cs) : gset string))
                        (map_to_list (health w)).*1))
      (health (after_probes E (file_urls cs) (reload_started w))).
Proof.
  intros Hf Hp. rewrite loadRpcConfig_run, Hf, Hp. cbn [snd].
  unfold committed. rewrite apply_queue_health. cbn [set_trace health].
  unfold reload_queue. cbn [reload_started set_tick set_trace health chains].
  rewrite !fold_left_app. rewrite health_effect_chain_cmds.
  cbn [fold_left health_effect].
  destruct ((map_to_list (chains w)).*1); reflexivity.
Qed.

End ReloadState.

(** X2. After a reload that goes through, the health hash holds a record for
    exactly the URLs of the file's chains: every URL of the file has been
    probed and has its record, and the record of every URL that is in no
    chain of the file is gone. *)
Theorem X2_reload_health_is_file_urls (E : Env) (w : World) :
  fst (loadRpcConfig E w) = Ok tt ->
  exists cs,
    readFile E (tick w) = ChainsArray cs /\
    forall url, is_Some (health (snd (loadRpcConfig E w)) !! url) <-> In url (file_urls cs).
Proof.
  intros Hok. apply loadRpcConfig_ok in Hok. destruct Hok as (cs & Hf & Hp).
  exists cs. split; [exact Hf|]. intros url.
  rewrite (reload_health E w cs Hf Hp), health_effect_HDels.
  rewrite <- list_elem_of_In.
  pose proof (after_probes_health E (file_urls cs) (reload_started w) url) as Hprobe.
  cbn [reload_started set_tick set_trace health] in Hprobe.
  destruct (decide (url ∈ filter (fun u => u ∉ (list_to_set (file_urls cs) : gset string))
                             (map_to_list (health w)).*1)) as [Hin|Hnin].
  - apply list_elem_of_filter in Hin. destruct Hin as [Hnew _].
    rewrite elem_of_list_to_set in Hnew.
    split; [intros [x Hx]; discriminate | contradiction].
  - rewrite Hprobe. split; [|auto].
    intros [Hin|Hold]; [exact Hin|].
    destruct (decide (url ∈ file_urls cs)) as [Hyes|Hno]; [exact Hyes|].
    exfalso. apply Hnin. apply list_elem_of_filter. split.
    + rewrite elem_of_list_to_set. exact Hno.
    + apply keys_elem_of. exact Hold.
Qed.

Lemma X2_reload_health_is_file_urls_witness :
  exists cs,
    readFile Scenario.env_reload (tick Scenario.world1) = ChainsArray cs /\
    forall url,
      is_Some (health (snd (loadRpcConfig Scenario.env_reload Scenario.world1)) !! url)
      <-> In url (file_urls cs).
Proof.
  apply (X2_reload_health_is_file_urls Scenario.env_reload Scenario.world1).
  vm_compute. reflexivity.
Defined.

Section ReloadChains.

Variable E : Env.

Lemma chainKey_not_health k : String.eqb (chainKey k) REDIS_KEYS.HEALTH_SET = false.
Proof. reflexivity. Qed.

Lemma delete_all_keys {V} (m : gmap string V) :
  foldr (fun k acc => delete k acc) m (map_to_list m).*1 = ∅.
Proof.
  apply map_eq. intros k. rewrite lookup_empty.
  assert (Hgen : forall (keys : list string) (m0 : gmap string V),
            foldr (fun k acc => delete k acc) m0 keys !! k
            = if decide (k ∈ keys) then None else m0 !! k).
  { induction keys as [|x keys IH]; intros m0.
    - cbn. destruct (decide (k ∈ [])) as [Hin|]; [|reflexivity].
      apply elem_of_nil in Hin. contradiction.
    - cbn [foldr]. destruct (decide (k = x)) as [->|Hne].
      + rewrite lookup_delete_eq, decide_True by left. reflexivity.
      + rewrite lookup_delete_ne by congruence. rewrite IH.
        destruct (decide (k ∈ keys)) as [Hin|Hnin].
        * rewrite decide_True by (right; exact Hin). reflexivity.
        * rewrite decide_False; [reflexivity|].
          intros Hin. apply elem_of_cons in Hin. destruct Hin; contradiction. }
  rewrite Hgen. destruct (decide (k ∈ (map_to_list m).*1)) as [|Hnin]; [reflexivity|].
  destruct (m !! k) eqn:Hk; [|reflexivity].
  exfalso. apply Hnin. apply keys_elem_of. eauto.
Qed.

Lemma apply_HDels_chains fields : forall w,
  chains (fold_left (fun acc c => apply_cmd c acc) (map HDel fields) w) = chains w.
Proof.
  induction fields as [|f fields IH]; intros w; [reflexivity|].
  cbn [map fold_left]. rewrite IH. cbn [apply_cmd].
  destruct (decide (delete f (health w) = ∅)); reflexivity.
Qed.

Lemma apply_chain_cmds_chains cs : forall w,
  chains (fold_left (fun acc c => apply_cmd c acc) (chain_cmds E cs) w)
  = chains_written E cs (chains w).
Proof.
  induction cs as [|c cs IH]; intros w; [reflexivity|].
  cbn [chain_cmds map concat app fold_left chains_written].
  fold (chain_cmds E cs). rewrite IH. f_equal.
  cbn [apply_cmd]. rewrite chainKey_not_health.
  cbn [set_chains chains]. fold (stored_config c).
  destruct (chains w !! chainKey (raw_chainId c)) as [[ttl0 c0]|] eqn:Hk;
    rewrite lookup_insert_eq; apply insert_insert_eq.
Qed.

(** The chain keys a reload that goes through leaves. *)
Lemma reload_chains w cs :
  readFile E (tick w) = ChainsArray cs -> urls_present cs = true ->
  chains (snd (loadRpcConfig E w)) = chains_written E cs ∅.
Proof.
  intros Hf Hp. rewrite loadRpcConfig_run, Hf, Hp. cbn [snd].
  unfold committed, reload_queue. rewrite !fold_left_app.
  cbn [fold_left apply_cmd]. change (String.eqb REDIS_KEYS.HEALTH_SET REDIS_KEYS.HEALTH_SET)
    with true. cbn iota.
  assert (Hexp : forall w0 ttl,
            chains (if decide (health w0 = ∅) then w0 else set_healthExpire (Some ttl) w0)
            = chains w0).
  { intros w0 ttl. destruct (decide (health w0 = ∅)); reflexivity. }
  rewrite Hexp, apply_chain_cmds_chains, apply_HDels_chains. f_equal.
  destruct (after_probes_frame E (file_urls cs) (reload_started w)) as (Hch & _).
  cbn [reload_started set_tick set_trace chains] in Hch |- *.
  destruct ((map_to_list (chains w)).*1) as [|k keys] eqn:Hkeys.
  - cbn [fold_left set_trace chains]. rewrite Hch.
    apply fmap_nil_inv in Hkeys. apply map_to_list_empty_iff in Hkeys. exact Hkeys.
  - cbn [fold_left apply_cmd set_chains chains set_trace]. rewrite Hch, <- Hkeys.
    apply delete_all_keys.
Qed.

Lemma chains_written_other cs : forall m key,
  (forall c, In c cs -> chainKey (raw_chainId c) <> key) ->
  chains_written E cs m !! key = m !! key.
Proof.
  induction cs as [|x cs IH]; intros m key Hno; [reflexivity|].
  change (chains_written E (x :: cs) m)
    with (chains_written E cs
            (<[chainKey (raw_chainId x) := (Some (configTtl E), stored_config x)]> m)).
  rewrite IH by (intros c Hc; apply Hno; right; exact Hc).
  apply lookup_insert_ne. apply Hno. left. reflexivity.
Qed.

Lemma chains_written_snoc cs x m :
  chains_written E (cs ++ [x]) m
  = <[chainKey (raw_chainId x) := (Some (configTtl E), stored_config x)]>
      (chains_written E cs m).
Proof. unfold chains_written. rewrite fold_left_app. reflexivity. Qed.

Lemma chains_written_unique cs : forall m c,
  In c cs ->
  (forall c', In c' cs -> raw_chainId c' = raw_chainId c -> c' = c) ->
  chains_written E cs m !! chainKey (raw_chainId c)
  = Some (Some (configTtl E), stored_config c).
Proof.
  induction cs as [|x cs IH] using rev_ind; intros m c Hin Huniq; [destruct Hin|].
  rewrite chains_written_snoc.
  destruct (decide (raw_chainId x = raw_chainId c)) as [Heq|Hne].
  - assert (x = c) as -> by (apply Huniq; [apply in_or_app; right; left; reflexivity | exact Heq]).
    apply lookup_insert_eq.
  - rewrite lookup_insert_ne
      by (intros Hk; apply chainKey_inj in Hk; contradiction).
    apply in_app_or in Hin. destruct Hin as [Hin|[->|[]]]; [|contradiction].
    apply IH; [exact Hin|].
    intros c' Hc'. apply Huniq. apply in_or_app. left. exact Hc'.
Qed.

End ReloadChains.

(** X3. After a reload that goes through, the chain keys are those of the
    file and no other: [getChainConfig] returns null for every id that no
    element of the file has (chains of an earlier file are gone), and
    returns the stored element, with the TTL [configTtl] on its key, for an
    id that only one element of the file has. *)
Theorem X3_reload_then_getChainConfig (E : Env) (w : World) :
  fst (loadRpcConfig E w) = Ok tt ->
  exists cs,
    readFile E (tick w) = ChainsArray cs /\
    (forall id, (forall c, In c cs -> raw_chainId c <> Some id) ->
       fst (getChainConfig id (snd (loadRpcConfig E w))) = Ok None) /\
    (forall id c, In c cs -> raw_chainId c = Some id ->
       (forall c', In c' cs -> raw_chainId c' = Some id -> c' = c) ->
       chains (snd (loadRpcConfig E w)) !! chainKey (Some id)
         = Some (Some (configTtl E), stored_config c) /\
       fst (getChainConfig id (snd (loadRpcConfig E w))) = Ok (Some (stored_config c))).
Proof.
  intros Hok. apply loadRpcConfig_ok in Hok. destruct Hok as (cs & Hf & Hp).
  exists cs. split; [exact Hf|].
  unfold getChainConfig, gets. cbn [fst].
  rewrite (reload_chains E w cs Hf Hp). split.
  - intros id Hno. rewrite chains_written_other.
    + rewrite lookup_empty. reflexivity.
    + intros c Hc Hk. apply chainKey_inj in Hk. exact (Hno c Hc Hk).
  - intros id c Hin Hid Huniq.
    assert (Hl : chains_written E cs ∅ !! chainKey (Some id)
                 = Some (Some (configTtl E), stored_config c)).
    { rewrite <- Hid. apply chains_written_unique; [exact Hin|].
      intros c' Hc' Hid'. apply Huniq; [exact Hc' | congruence]. }
    rewrite Hl. split; reflexivity.
Qed.

Lemma X3_reload_then_getChainConfig_witness :
  exists cs,
    readFile Scenario.env_no_name (tick Scenario.world1) = ChainsArray cs /\
    (forall id, (forall c, In c cs -> raw_chainId c <> Some id) ->
       fst (getChainConfig id (snd (loadRpcConfig Scenario.env_no_name Scenario.world1)))
       = Ok None) /\
    (forall id c, In c cs -> raw_chainId c = Some id ->
       (forall c', In c' cs -> raw_chainId c' = Some id -> c' = c) ->
       chains (snd (loadRpcConfig Scenario.env_no_name Scenario.world1)) !! chainKey (Some id)
         = Some (Some (configTtl Scenario.env_no_name), stored_config c) /\
       fst (getChainConfig id (snd (loadRpcConfig Scenario.env_no_name Scenario.world1)))
       = Ok (Some (stored_config c))).
Proof.
  apply (X3_reload_then_getChainConfig Scenario.env_no_name Scenario.world1).
  vm_compute. reflexivity.
Defined.

(** The chain of the earlier file is gone, the chain of the new file is there. *)
Example reload_replaces_chains :
  fst (getChainConfig 1 (snd (loadRpcConfig Scenario.env_no_name Scenario.world1))) = Ok None /\
  fst (getChainConfig 7 (snd (loadRpcConfig Scenario.env_no_name Scenario.world1)))
    = Ok (Some {| config_chainId := Some 7; config_name := None;
                  config_urls := ["D"%string] |}).
Proof. vm_compute. split; reflexivity. Qed.

(** X4. A reload that fails, for whatever reason (file unreadable, not JSON,
    no [chains] array, an element without [urls]), leaves Redis as it was:
    health hash, chain keys, sessions and TTLs. *)
Theorem X4_failed_reload_leaves_redis (E : Env) (w : World) (e : Exn) :
  fst (loadRpcConfig E w) = Throw e ->
  same_kv w (snd (loadRpcConfig E w)) /\
  unhealthyErrors (snd (loadRpcConfig E w)) = unhealthyErrors w /\
  trace (snd (loadRpcConfig E w)) = trace w ++ [EvReload].
Proof.
  rewrite loadRpcConfig_run.
  assert (Hs : same_kv w (reload_started w) /\
               unhealthyErrors (reload_started w) = unhealthyErrors w /\
               trace (reload_started w) = trace w ++ [EvReload])
    by (repeat split; reflexivity).
  destruct (readFile E (tick w)) as [| | |[v|cs]]; cbn [fst snd]; try (intros _; exact Hs).
  destruct (urls_present cs); cbn [fst snd]; [discriminate | intros _; exact Hs].
Qed.

Lemma X4_failed_reload_leaves_redis_witness :
  same_kv Scenario.world1 (snd (loadRpcConfig Scenario.env_down Scenario.world1)) /\
  unhealthyErrors (snd (loadRpcConfig Scenario.env_down Scenario.world1))
    = unhealthyErrors Scenario.world1 /\
  trace (snd (loadRpcConfig Scenario.env_down Scenario.world1))
    = trace Scenario.world1 ++ [EvReload].
Proof.
  apply (X4_failed_reload_leaves_redis Scenario.env_down Scenario.world1 FsError).
  reflexivity.
Defined.

(** ** The periodic health check *)

Section HealthTick.

Variable E : Env.

Lemma forEach_entries_run (entries : list (string * RpcHealth)) : forall w,
  forEach (fun entry => checkHealth E (fst entry) ;; ret tt) entries w
  = (Ok tt, after_probes E entries.*1 w).
Proof.
  induction entries as [|entry entries IH]; intros w; [reflexivity|].
  cbn [forEach]. unfold bind at 1. unfold bind at 1.
  rewrite checkHealth_run. cbn [ret]. rewrite IH. reflexivity.
Qed.

Lemma healthCheckTick_run w :
  healthCheckTick E w = (Ok tt, after_probes E (map_to_list (health w)).*1 w).
Proof.
  unfold healthCheckTick. unfold bind at 1. unfold gets.
  apply forEach_entries_run.
Qed.

(** After a sequence of probes, the record of a probed URL is the one its
    last probe wrote. *)
Lemma after_probes_rewritten us : forall w (url : string),
  url ∈ us ->
  exists w0, health (after_probes E us w) !! url = Some (probe_record E url w0).
Proof.
  induction us as [|u us IH] using rev_ind; intros w url Hin.
  - apply elem_of_nil in Hin. contradiction.
  - rewrite after_probes_app.
    change (after_probes E [u] (after_probes E us w))
      with (after_probe E u (after_probes E us w)).
    cbn [after_probe health].
    destruct (decide (u = url)) as [->|Hne].
    + exists (after_probes E us w). apply lookup_insert_eq.
    + rewrite lookup_insert_ne by exact Hne. apply IH.
      apply elem_of_app in Hin. destruct Hin as [Hin|Hin]; [exact Hin|].
      apply list_elem_of_singleton in Hin. congruence.
Qed.

(** Probes of other URLs leave a record as it is. *)
Lemma after_probes_other us : forall w (url : string),
  url ∉ us -> health (after_probes E us w) !! url = health w !! url.
Proof.
  induction us as [|u us IH]; intros w url Hnot; [reflexivity|].
  change (after_probes E (u :: us) w) with (after_probes E us (after_probe E u w)).
  rewrite not_elem_of_cons in Hnot. destruct Hnot as [Hne Hnot].
  rewrite (IH _ _ Hnot). cbn [after_probe health].
  apply lookup_insert_ne. congruence.
Qed.

(** In a sequence of probes of distinct URLs, the record of the URL at
    position [i] is the one the probe wrote in the world the first [i]
    probes left, and stays as written. *)
Lemma after_probes_nth us w (i : nat) (url : string) :
  NoDup us -> us !! i = Some url ->
  health (after_probes E us w) !! url
    = Some (probe_record E url (after_probes E (take i us) w)) /\
  health (after_probes E (take i us) w) !! url = health w !! url /\
  tick (after_probes E (take i us) w) = (tick w + 4 * i)%nat.
Proof.
  intros Hnd Hi.
  pose proof (take_drop_middle us i url Hi) as Hsplit.
  pose proof (lookup_lt_Some _ _ _ Hi) as Hlt.
  rewrite <- Hsplit in Hnd. apply NoDup_app in Hnd.
  destruct Hnd as (_ & Hdisj & Hnd). apply NoDup_cons in Hnd.
  destruct Hnd as [Hnot _].
  assert (Hbefore : url ∉ take i us).
  { intros Hin. apply (Hdisj url Hin). left. }
  split; [|split].
  - rewrite <- Hsplit at 1. rewrite after_probes_app.
    change (after_probes E (url :: drop (S i) us) (after_probes E (take i us) w))
      with (after_probes E (drop (S i) us) (after_probe E url (after_probes E (take i us) w))).
    rewrite (after_probes_other _ _ _ Hnot). cbn [after_probe health].
    apply lookup_insert_eq.
  - apply after_probes_other. exact Hbefore.
  - destruct (after_probes_frame E (take i us) w) as (_ & _ & _ & _ & _ & ->).
    rewrite length_take. lia.
Qed.

End HealthTick.

(** X5. One firing of the health check probes every URL of the health hash
    once and no other URL, in the order [hGetAll] lists them; it neither
    adds a URL to the hash nor removes one, and chain keys, sessions and
    the collapse window are left alone.  Every record of the hash is
    rewritten by the probe of this firing: the record of the [i]-th URL is
    made of the answer to the POST of that probe and of the clock readings
    around it, with [failCount] 0 when the POST resolved and the [failCount]
    the URL had before the firing plus one when it did not. *)
Theorem X5_healthCheckTick (E : Env) (w : World) :
  let urls := (map_to_list (health w)).*1 in
  let w' := snd (healthCheckTick E w) in
  fst (healthCheckTick E w) = Ok tt /\
  NoDup urls /\
  trace w' = trace w ++ map EvProbe urls /\
  (forall url, is_Some (health w' !! url) <-> is_Some (health w !! url)) /\
  (forall (i : nat) url previous,
     map_to_list (health w) !! i = Some (url, previous) ->
     let t := (tick w + 4 * i)%nat in
     let o := http E (S t) url in
     health w' !! url
       = Some {| health_url := url;
                 healthy := probe_successful o;
                 lastCheck := clock E (2 + t)%nat;
                 responseTime := clock E (3 + t)%nat - clock E t;
                 failCount := if resolves o then 0 else failCount previous + 1 |}) /\
  chains w' = chains w /\ sessions w' = sessions w /\
  unhealthyErrors w' = unhealthyErrors w.
Proof.
  cbn zeta. rewrite healthCheckTick_run. cbn [fst snd].
  destruct (after_probes_frame E (map_to_list (health w)).*1 w)
    as (Hch & Hs & Hw & _ & Htr & _).
  split; [reflexivity|]. split; [apply NoDup_fst_map_to_list|].
  split; [exact Htr|]. split.
  { intros url. rewrite after_probes_health, keys_elem_of. tauto. }
  split; [|auto].
  intros i url previous Hi.
  assert (Hprev : health w !! url = Some previous).
  { apply elem_of_map_to_list. eapply list_elem_of_lookup_2. exact Hi. }
  assert (Hi' : (map_to_list (health w)).*1 !! i = Some url).
  { rewrite list_lookup_fmap, Hi. reflexivity. }
  destruct (after_probes_nth E _ w i url (NoDup_fst_map_to_list _) Hi')
    as (Hrec & Hsame & Htick).
  rewrite Hrec. unfold probe_record. rewrite Hsame, Hprev, Htick. reflexivity.
Qed.

(** Two URLs, one answering and one not: the firing resets the counter of
    the first and raises that of the second from 2 to 3. *)
Example health_tick_counts :
  let E := Scenario.env_of
             (fun _ url => if String.eqb url "A" then Response 200 Scenario2.ok_body
                           else NoResponse) FileUnreadable in
  let record url n :=
    {| health_url := url; healthy := false; lastCheck := 0; responseTime := 0;
       failCount := n |} in
  let w := set_health (fun _ => {[ "A"%string := record "A"%string 2;
                                   "B"%string := record "B"%string 2 ]}) Scenario.world1 in
  let w' := snd (healthCheckTick E w) in
  (healthy <$> health w' !! "A"%string, failCount <$> health w' !! "A"%string)
    = (Some true, Some 0) /\
  (healthy <$> health w' !! "B"%string, failCount <$> health w' !! "B"%string)
    = (Some false, Some 3).
Proof. vm_compute. split; reflexivity. Qed.

(** ** Records sit under their own URL *)

#[export] Instance health_keyed_stable : Stable health_keyed.
Proof.
  split.
  - intros n w H. exact H.
  - intros t w H. exact H.
  - intros l w H. exact H.
  - intros E url w H u h. cbn [after_probe health].
    destruct (decide (url = u)) as [->|Hne].
    + rewrite lookup_insert_eq. intros [= <-]. reflexivity.
    + rewrite lookup_insert_ne by exact Hne. apply H.
  - intros c w H u h. rewrite apply_cmd_health.
    destruct c as [keys|field|key config|key ttl]; cbn [health_effect]; try apply H.
    intros Hl. apply lookup_delete_Some in Hl. destruct Hl as [_ Hl]. exact (H u h Hl).
Qed.

(** X6. Every record of the health hash has, as its [url] field, the URL it
    is stored under, and the router keeps it so: probes, the periodic health
    check, forwarded requests and reloads all preserve this. *)
Theorem X6_health_records_keyed_by_url (E : Env) (w : World) :
  health_keyed w ->
  (forall url, health_keyed (snd (checkHealth E url w))) /\
  health_keyed (snd (healthCheckTick E w)) /\
  (forall chainId rpcRequest sessionId,
      health_keyed (snd (executeRequest E chainId rpcRequest sessionId w))) /\
  health_keyed (snd (loadRpcConfig E w)).
Proof.
  intros H. split; [|split; [|split]].
  - intros url. apply (preserves_checkHealth health_keyed), H.
  - rewrite healthCheckTick_run. cbn [snd].
    apply (stable_after_probes health_keyed), H.
  - intros chainId rpcRequest sessionId.
    apply (preserves_executeRequest health_keyed); [|exact H].
    intros f w0 H0. exact H0.
  - apply (preserves_loadRpcConfig health_keyed), H.
Qed.

Lemma health_keyed_b_sound w : health_keyed_b w = true -> health_keyed w.
Proof.
  unfold health_keyed_b, health_keyed. intros Hb url h Hl.
  rewrite forallb_forall in Hb.
  assert (Hin : In (url, h) (map_to_list (health w))).
  { apply list_elem_of_In, elem_of_map_to_list. exact Hl. }
  specialize (Hb _ Hin). cbn [fst snd] in Hb.
  apply String.eqb_eq. exact Hb.
Qed.

Lemma X6_health_records_keyed_by_url_witness :
  health_keyed (snd (healthCheckTick Scenario.env_error_200 Scenario.world1)) /\
  health_keyed (snd (loadRpcConfig Scenario.env_reload Scenario.world1)).
Proof.
  assert (H : health_keyed Scenario.world1)
    by (apply health_keyed_b_sound; vm_compute; reflexivity).
  destruct (X6_health_records_keyed_by_url Scenario.env_error_200 Scenario.world1 H)
    as (_ & Htick & _ & _).
  destruct (X6_health_records_keyed_by_url Scenario.env_reload Scenario.world1 H)
    as (_ & _ & _ & Hload).
  split; [exact Htick | exact Hload].
Defined.

(** ** The session sweep *)

Section Sweep.

Variable E : Env.

Lemma cleanupLoop_spec sessionKeys : forall cleanedCount w,
  exists n w',
    cleanupLoop E sessionKeys cleanedCount w = (Ok n, w') /\
    health w' = health w /\ healthExpire w' = healthExpire w /\
    chains w' = chains w /\ unhealthyErrors w' = unhealthyErrors w /\
    trace w' = trace w /\
    (forall k v, sessions w' !! k = Some v -> sessions w !! k = Some v) /\
    (forall k ttl s, sessions w !! k = Some (ttl, s) -> always_fresh E s ->
       sessions w' !! k = Some (ttl, s)) /\
    (forall k ttl s, k ∈ sessionKeys -> sessions w !! k = Some (ttl, s) ->
       always_stale E s -> sessions w' !! k = None).
Proof.
  induction sessionKeys as [|key rest IH]; intros cleanedCount w.
  - exists cleanedCount, w. cbn [cleanupLoop]. unfold ret.
    repeat (split; [reflexivity|]). split; [auto|]. split; [auto|].
    intros k ttl s Hin. apply elem_of_nil in Hin. contradiction.
  - cbn [cleanupLoop]. unfold bind at 1. unfold gets at 1.
    destruct (sessions w !! key) as [[ttl0 s0]|] eqn:Hkey.
    + unfold bind at 1. unfold Date_now at 1. unfold bind at 1. unfold fresh, ret.
      set (w1 := set_tick (S (tick w)) w).
      destruct (Z.ltb_spec (sessionTtl E * 1000) (clock E (tick w) - lastUsed s0))
        as [Hold|Hyoung].
      * unfold bind at 1. unfold modify at 1.
        set (w2 := set_sessions (fun m => delete key m) w1).
        destruct (IH (S cleanedCount) w2)
          as (n & w' & Hrun & Hh & He & Hc & Hu & Ht & Hsub & Hfresh & Hstale).
        exists n, w'. split; [exact Hrun|].
        do 5 (split; [assumption|]).
        assert (Hw2 : forall k, k <> key -> sessions w2 !! k = sessions w !! k).
        { intros k Hk. cbn [w2 w1 set_sessions set_tick sessions].
          apply lookup_delete_ne. congruence. }
        assert (Hgone : sessions w2 !! key = None).
        { cbn [w2 w1 set_sessions set_tick sessions]. apply lookup_delete_eq. }
        split; [|split].
        -- intros k v Hv. specialize (Hsub k v Hv).
           destruct (decide (k = key)) as [->|Hk]; [congruence|].
           rewrite <- (Hw2 k Hk). exact Hsub.
        -- intros k ttl s Hs Hf.
           destruct (decide (k = key)) as [->|Hk].
           ++ rewrite Hkey in Hs. injection Hs as <- <-.
              specialize (Hf (tick w)). lia.
           ++ apply Hfresh; [|exact Hf]. rewrite (Hw2 k Hk). exact Hs.
        -- intros k ttl s Hin Hs Hst.
           destruct (decide (k = key)) as [->|Hk].
           ++ destruct (sessions w' !! key) as [v|] eqn:Hv; [|reflexivity].
              specialize (Hsub key v Hv). congruence.
           ++ apply elem_of_cons in Hin. destruct Hin as [|Hin]; [contradiction|].
              apply (Hstale k ttl s Hin); [|exact Hst]. rewrite (Hw2 k Hk). exact Hs.
      * destruct (IH cleanedCount w1)
          as (n & w' & Hrun & Hh & He & Hc & Hu & Ht & Hsub & Hfresh & Hstale).
        exists n, w'. split; [exact Hrun|].
        do 5 (split; [assumption|]).
        split; [exact Hsub|]. split; [exact Hfresh|].
        intros k ttl s Hin Hs Hst.
        destruct (decide (k = key)) as [->|Hk].
        -- rewrite Hkey in Hs. injection Hs as <- <-.
           specialize (Hst (tick w)). lia.
        -- apply elem_of_cons in Hin. destruct Hin as [|Hin]; [contradiction|].
           apply (Hstale k ttl s Hin Hs Hst).
    + destruct (IH cleanedCount w)
        as (n & w' & Hrun & Hh & He & Hc & Hu & Ht & Hsub & Hfresh & Hstale).
      exists n, w'. split; [exact Hrun|].
      do 5 (split; [assumption|]).
      split; [exact Hsub|]. split; [exact Hfresh|].
      intros k ttl s Hin Hs Hst.
      apply elem_of_cons in Hin. destruct Hin as [->|Hin]; [congruence|].
      apply (Hstale k ttl s Hin Hs Hst).
Qed.

End Sweep.

(** X7. [cleanupSessions] only deletes: it returns, every session left was
    there before with the same record and TTL, and nothing but the session
    store changes.  A session whose last use is within [sessionTtl] seconds
    of every clock reading is kept; one whose last use is further back than
    that at every clock reading is deleted. *)
Theorem X7_cleanupSessions (E : Env) (w : World) :
  let w' := snd (cleanupSessions E w) in
  fst (cleanupSessions E w) = Ok tt /\
  health w' = health w /\ chains w' = chains w /\
  unhealthyErrors w' = unhealthyErrors w /\
  (forall k v, sessions w' !! k = Some v -> sessions w !! k = Some v) /\
  (forall k ttl s, sessions w !! k = Some (ttl, s) -> always_fresh E s ->
     sessions w' !! k = Some (ttl, s)) /\
  (forall k ttl s, sessions w !! k = Some (ttl, s) -> always_stale E s ->
     sessions w' !! k = None).
Proof.
  cbn zeta. unfold cleanupSessions, bind, gets.
  destruct (cleanupLoop_spec E (map_to_list (sessions w)).*1 0%nat w)
    as (n & w' & Hrun & Hh & He & Hc & Hu & Ht & Hsub & Hfresh & Hstale).
  rewrite Hrun. cbn [ret fst snd].
  split; [reflexivity|]. split; [exact Hh|]. split; [exact Hc|]. split; [exact Hu|].
  split; [exact Hsub|]. split; [exact Hfresh|].
  intros k ttl s Hs Hst. apply (Hstale k ttl s); [|exact Hs | exact Hst].
  apply keys_elem_of. eauto.
Qed.

Lemma X7_cleanupSessions_witness :
  sessions (snd (cleanupSessions Scenario2.env_frozen Scenario2.world_sessions))
    !! sessionKey "recent" = Some (3600, Scenario2.recent) /\
  sessions (snd (cleanupSessions Scenario2.env_frozen Scenario2.world_sessions))
    !! sessionKey "ancient" = None.
Proof.
  destruct (X7_cleanupSessions Scenario2.env_frozen Scenario2.world_sessions)
    as (_ & _ & _ & _ & _ & Hfresh & Hstale).
  split.
  - apply Hfresh; [reflexivity|]. intros t. cbn. lia.
  - apply (Hstale _ 3600 Scenario2.ancient); [reflexivity|]. intros t. cbn. lia.
Defined.

(** ** Sticky sessions *)

Section Sticky.

Variable E : Env.

Lemma resolveSession_reuse chainId s w ttl old :
  s <> ""%string ->
  sessions w !! sessionKey s = Some (ttl, old) ->
  session_chainId old = chainId ->
  resolveSession E chainId (Some s) w = (Ok old, w).
Proof.
  intros Hne Hs Hc. unfold resolveSession.
  destruct (String.eqb_spec s ""); [contradiction|].
  unfold bind at 1. unfold getSession, gets. rewrite Hs.
  cbn [fmap option_fmap option_map snd].
  rewrite Hc, Z.eqb_refl. reflexivity.
Qed.

Lemma getHealthyRpcUrl_ok_eligible chainId w u :
  fst (getHealthyRpcUrl E chainId w) = Ok u ->
  exists ttl config,
    chains w !! chainKey (Some chainId) = Some (ttl, config) /\
    In u (List.filter (eligible E (health w)) (config_urls config)).
Proof.
  unfold getHealthyRpcUrl. unfold bind at 1. unfold getChainConfig, gets at 1.
  destruct (chains w !! chainKey (Some chainId)) as [[ttl config]|] eqn:Hcfg;
    cbn [fmap option_fmap option_map snd]; [|discriminate].
  unfold bind at 1. unfold gets at 1.
  destruct (List.filter (eligible E (health w)) (config_urls config)) as [|x l] eqn:Hf.
  - cbn [length Nat.eqb]. unfold bind, throw.
    destruct (checkForceReload E w) as [[[]|e] w0]; discriminate.
  - cbn [length Nat.eqb]. cbv zeta.
    destruct (sort_by_head (responseTimeOf (health w)) (x :: l) ltac:(discriminate))
      as (u' & rest & Hsort & before & after & Heq & _).
    rewrite Hsort. unfold ret. cbn [fst hd]. intros [= <-].
    exists ttl, config. split; [reflexivity|].
    rewrite Hf, Heq. apply in_or_app. right. left. reflexivity.
Qed.

End Sticky.

(** X8. A request that carries the id of a stored session of the requested
    chain is forwarded to that session's upstream, whatever the health hash
    and the chain keys hold: no selection takes place.  When the upstream
    answers 2xx, the reply is the formatted body with that session id, the
    session record keeps its url, chain and creation time, its request count
    goes up by one, its TTL is set to [sessionTtl], and no other session, no
    health record and no chain key changes. *)
Theorem X8_sticky_session_reuse (E : Env) (w : World) (chainId : Z) (rpcRequest : JsValue)
    (s : string) (ttl : Z) (old : RpcSession) (status : Z) (data : JsValue) :
  s <> ""%string ->
  sessions w !! sessionKey s = Some (ttl, old) ->
  session_chainId old = chainId ->
  session_id old = s ->
  http E (tick w) (session_url old) = Response status data ->
  resolves (Response status data) = true ->
  let r := executeRequest E chainId rpcRequest (Some s) w in
  let updated :=
    {| session_id := s; session_url := session_url old; session_chainId := chainId;
       createdAt := createdAt old; lastUsed := clock E (S (tick w));
       requestCount := requestCount old + 1 |} in
  fst r = Ok (formatRpcResponse data s) /\
  sessions (snd r) = <[sessionKey s := (sessionTtl E, updated)]> (sessions w) /\
  health (snd r) = health w /\ chains (snd r) = chains w /\
  trace (snd r) = trace w ++ [EvPost (session_url old)].
Proof.
  intros Hne Hs Hc Hid Ho Hr. cbn zeta. unfold executeRequest, bind.
  rewrite (resolveSession_reuse E chainId s w ttl old Hne Hs Hc).
  rewrite (forward_resolved E old w status data Ho Hr).
  cbn [fst snd set_sessions sessions health chains trace set_tick posted set_trace].
  unfold touched. rewrite Hid, Hc. repeat split; reflexivity.
Qed.

Lemma X8_sticky_session_reuse_witness :
  fst (executeRequest Scenario2.env_frozen 1 (JObj []) (Some "recent"%string)
         Scenario2.world_sessions)
    = Ok (formatRpcResponse Scenario2.ok_body "recent") /\
  trace (snd (executeRequest Scenario2.env_frozen 1 (JObj []) (Some "recent"%string)
                Scenario2.world_sessions))
    = [EvPost "A"].
Proof.
  destruct (X8_sticky_session_reuse Scenario2.env_frozen Scenario2.world_sessions 1
              (JObj []) "recent" 3600 Scenario2.recent 200 Scenario2.ok_body)
    as (Hreply & _ & _ & _ & Htrace).
  - discriminate.
  - reflexivity.
  - reflexivity.
  - reflexivity.
  - reflexivity.
  - reflexivity.
  - split; [exact Hreply | exact Htrace].
Defined.

(** X9. A request that carries a session id under which nothing is stored
    (never issued, deleted or expired) fails with ["Invalid session ID"];
    no upstream is called and nothing is written. *)
Theorem X9_unknown_session_rejected (E : Env) (w : World) (chainId : Z)
    (rpcRequest : JsValue) (s : string) :
  s <> ""%string ->
  sessions w !! sessionKey s = None ->
  executeRequest E chainId rpcRequest (Some s) w = (Throw (Error "Invalid session ID"), w).
Proof.
  intros Hne Hs. unfold executeRequest, bind, resolveSession.
  destruct (String.eqb_spec s ""); [contradiction|].
  unfold bind, getSession, gets. rewrite Hs. reflexivity.
Qed.

Lemma X9_unknown_session_rejected_witness :
  executeRequest Scenario.env_down 1 (JObj []) (Some "nobody"%string) Scenario.world1
  = (Throw (Error "Invalid session ID"), Scenario.world1).
Proof.
  apply X9_unknown_session_rejected; [discriminate | reflexivity].
Defined.

(** X10. A forwarded request that fails does not count for its session: the
    session store is exactly as before (request count, last use and TTL of
    the session included), while the health record of the session's upstream
    is rewritten by the probe that follows. *)
Theorem X10_failed_forward_keeps_session (E : Env) (w : World) (chainId : Z)
    (rpcRequest : JsValue) (s : string) (ttl : Z) (old : RpcSession) :
  s <> ""%string ->
  sessions w !! sessionKey s = Some (ttl, old) ->
  session_chainId old = chainId ->
  resolves (http E (tick w) (session_url old)) = false ->
  let r := executeRequest E chainId rpcRequest (Some s) w in
  sessions (snd r) = sessions w /\
  chains (snd r) = chains w /\
  health (snd r)
    = <[session_url old := probe_record E (session_url old) (posted (session_url old) w)]>
        (health w).
Proof.
  intros Hne Hs Hc Hr. cbn zeta. unfold executeRequest, bind.
  rewrite (resolveSession_reuse E chainId s w ttl old Hne Hs Hc).
  rewrite (forward_failed E old w Hr). repeat split; reflexivity.
Qed.

Lemma X10_failed_forward_keeps_session_witness :
  sessions (snd (executeRequest Scenario.env_error_500 1 (JObj []) (Some "s1"%string)
                   Scenario.world1))
  = sessions Scenario.world1.
Proof.
  destruct (X10_failed_forward_keeps_session Scenario.env_error_500 Scenario.world1 1
              (JObj []) "s1" 3600 Scenario.session1) as (Hs & _).
  - discriminate.
  - reflexivity.
  - reflexivity.
  - reflexivity.
  - exact Hs.
Defined.

(** X11. Every session [createSession] returns is pinned to a URL of the
    requested chain's config that is eligible at that moment (a health
    record with [healthy] and [failCount < maxFailCount]); the session is
    for the requested chain, starts with a request count of 0, and is stored
    under its own id with TTL [sessionTtl]. *)
Theorem X11_createSession_pins_eligible_url (E : Env) (w : World) (chainId : Z)
    (session : RpcSession) :
  fst (createSession E chainId w) = Ok session ->
  exists ttl config h,
    chains w !! chainKey (Some chainId) = Some (ttl, config) /\
    In (session_url session) (config_urls config) /\
    health w !! session_url session = Some h /\
    healthy h = true /\ failCount h < maxFailCount E /\
    session_chainId session = chainId /\ requestCount session = 0 /\
    sessions (snd (createSession E chainId w)) !! sessionKey (session_id session)
      = Some (sessionTtl E, session).
Proof.
  intros Hok.
  destruct (fst (getHealthyRpcUrl E chainId w)) as [u|e] eqn:Hsel.
  - rewrite (createSession_ok E chainId w u Hsel) in Hok |- *.
    cbn [fst snd] in Hok |- *. injection Hok as <-.
    destruct (getHealthyRpcUrl_ok_eligible E chainId w u Hsel) as (ttl & config & Hcfg & Hin).
    apply filter_In in Hin. destruct Hin as [Hin Hel].
    apply eligible_spec in Hel. destruct Hel as (h & Hh & Hhealthy & Hfc).
    exists ttl, config, h. cbn [created session_url session_chainId requestCount session_id].
    repeat (split; [assumption || reflexivity|]).
    cbn [set_sessions sessions]. apply lookup_insert_eq.
  - rewrite (createSession_throw E chainId w e Hsel) in Hok. discriminate.
Qed.

Lemma X11_createSession_pins_eligible_url_witness :
  exists ttl config h,
    chains Scenario.world1 !! chainKey (Some 1) = Some (ttl, config) /\
    In (session_url (created Scenario.env_down 0 1 "A")) (config_urls config) /\
    health Scenario.world1 !! session_url (created Scenario.env_down 0 1 "A") = Some h /\
    healthy h = true /\ failCount h < maxFailCount Scenario.env_down /\
    session_chainId (created Scenario.env_down 0 1 "A") = 1 /\
    requestCount (created Scenario.env_down 0 1 "A") = 0 /\
    sessions (snd (createSession Scenario.env_down 1 Scenario.world1))
      !! sessionKey (session_id (created Scenario.env_down 0 1 "A"))
      = Some (sessionTtl Scenario.env_down, created Scenario.env_down 0 1 "A").
Proof.
  apply (X11_createSession_pins_eligible_url Scenario.env_down Scenario.world1 1).
  vm_compute. reflexivity.
Defined.

(** X12. A request without a session id (no [x-session-id] header, or an
    empty one) whose selection returns a URL and whose POST is answered 2xx
    gets the formatted body with a new session id, and that id is the one
    under which the session is stored: [getSession] of it returns the
    session, pinned to the selected URL, with a request count of 1. *)
Theorem X12_new_session_id_is_stored (E : Env) (w : World) (chainId : Z)
    (rpcRequest : JsValue) (sessionId : option string) (u : string)
    (status : Z) (data : JsValue) :
  sessionId = None \/ sessionId = Some ""%string ->
  fst (getHealthyRpcUrl E chainId w) = Ok u ->
  http E (3 + tick w)%nat u = Response status data ->
  resolves (Response status data) = true ->
  let r := executeRequest E chainId rpcRequest sessionId w in
  let id := uuidv4 E (tick w) in
  fst r = Ok (formatRpcResponse data id) /\
  fst (getSession id (snd r))
    = Ok (Some {| session_id := id; session_url := u; session_chainId := chainId;
                  createdAt := clock E (S (tick w));
                  lastUsed := clock E (4 + tick w)%nat;
                  requestCount := 1 |}).
Proof.
  intros Hnone Hsel Ho Hr. cbn zeta.
  assert (Hres : resolveSession E chainId sessionId w = createSession E chainId w).
  { destruct Hnone as [->| ->]; reflexivity. }
  unfold executeRequest, bind. rewrite Hres, (createSession_ok E chainId w u Hsel).
  rewrite (forward_resolved E (created E (tick w) chainId u) _ status data);
    [|exact Ho | exact Hr].
  cbn [fst snd]. split; [reflexivity|].
  unfold getSession, gets. cbn [fst set_sessions sessions created session_id].
  rewrite lookup_insert_eq. reflexivity.
Qed.

Lemma X12_new_session_id_is_stored_witness :
  fst (executeRequest Scenario2.env_frozen 1 (JObj []) None Scenario.world1)
    = Ok (formatRpcResponse Scenario2.ok_body "uuid-0") /\
  fst (getSession "uuid-0"
         (snd (executeRequest Scenario2.env_frozen 1 (JObj []) None Scenario.world1)))
    = Ok (Some {| session_id := "uuid-0"; session_url := "A"; session_chainId := 1;
                  createdAt := 5000000; lastUsed := 5000000; requestCount := 1 |}).
Proof.
  apply (X12_new_session_id_is_stored Scenario2.env_frozen Scenario.world1 1 (JObj []) None
           "A" 200 Scenario2.ok_body).
  - left. reflexivity.
  - vm_compute. reflexivity.
  - reflexivity.
  - reflexivity.
Defined.

(** ** The read projections *)

Section Projections.

Variable E : Env.

Lemma getChainStats_run chainId w ttl config :
  chains w !! chainKey (Some chainId) = Some (ttl, config) ->
  getChainStats E chainId w =
  (Ok {| totalSessions := countChainSessions chainId (map_to_list (sessions w));
         activeUrls := length (urlHealths_of (health w) (config_urls config));
         healthyUrls :=
           length (List.filter (fun h => healthy h && (failCount h <? maxFailCount E))
                               (urlHealths_of (health w) (config_urls config)));
         averageResponseTime :=
           match urlHealths_of (health w) (config_urls config) with
           | [] => (0, 1)
           | _ :: _ =>
               (foldl (fun sum h => sum + responseTime h) 0
                      (urlHealths_of (health w) (config_urls config)),
                Z.of_nat (length (urlHealths_of (health w) (config_urls config))))
           end |}, w).
Proof.
  intros Hcfg. unfold getChainStats, bind, getChainConfig, gets. rewrite Hcfg.
  cbn [fmap option_fmap option_map snd]. reflexivity.
Qed.

Lemma getChainStats_missing chainId w :
  chains w !! chainKey (Some chainId) = None ->
  getChainStats E chainId w = (Throw (Error ERROR_MESSAGES.CHAIN_NOT_FOUND), w).
Proof.
  intros Hcfg. unfold getChainStats, bind, getChainConfig, gets. rewrite Hcfg.
  reflexivity.
Qed.

Lemma omap_length_le {A B} (f : A -> option B) (l : list A) :
  (length (omap f l) <= length l)%nat.
Proof.
  induction l as [|x l IH]; [reflexivity|].
  cbn [omap list_omap]. destruct (f x); cbn [length]; lia.
Qed.

(** With records under their own URLs and no empty URL, the healthy count is
    the number of eligible URLs. *)
Lemma healthy_count_eligible (healthData : gmap string RpcHealth) (urls : list string) :
  (forall url h, healthData !! url = Some h -> health_url h = url) ->
  ~ In ""%string urls ->
  length (List.filter (fun h => healthy h && (failCount h <? maxFailCount E))
                      (urlHealths_of healthData urls))
  = length (List.filter (eligible E healthData) urls).
Proof.
  intros Hkeyed. unfold urlHealths_of.
  induction urls as [|url urls IH]; intros Hne; [reflexivity|].
  assert (Hne' : ~ In ""%string urls) by (intros H; apply Hne; right; exact H).
  assert (Hurl : url <> ""%string) by (intros ->; apply Hne; left; reflexivity).
  specialize (IH Hne').
  cbn [omap list_omap List.filter].
  assert (Hel : eligible E healthData url
                = match healthData !! url with
                  | Some h => healthy h && (failCount h <? maxFailCount E)
                  | None => false
                  end) by reflexivity.
  rewrite Hel. clear Hel.
  destruct (healthData !! url) as [h|] eqn:Hh; [|exact IH].
  cbn [List.filter]. rewrite (Hkeyed url h Hh).
  destruct (String.eqb_spec url ""); [contradiction|]. cbn [negb List.filter].
  destruct (healthy h && (failCount h <? maxFailCount E)); cbn [length];
    [f_equal|]; exact IH.
Qed.

End Projections.

(** X13. [getChainStats] is a read: for a chain without config it fails with
    [ChainNotFound], otherwise it returns, and either way the world is as
    before.  In its result no more URLs are healthy than are active, no more
    are active than the chain config lists, and no more sessions are counted
    than are stored. *)
Theorem X13_getChainStats_bounds (E : Env) (w : World) (chainId : Z) :
  snd (getChainStats E chainId w) = w /\
  (chains w !! chainKey (Some chainId) = None ->
     fst (getChainStats E chainId w) = Throw (Error ERROR_MESSAGES.CHAIN_NOT_FOUND)) /\
  (forall ttl config, chains w !! chainKey (Some chainId) = Some (ttl, config) ->
     exists stats,
       fst (getChainStats E chainId w) = Ok stats /\
       (healthyUrls stats <= activeUrls stats)%nat /\
       (activeUrls stats <= length (config_urls config))%nat /\
       (totalSessions stats <= size (sessions w))%nat).
Proof.
  destruct (chains w !! chainKey (Some chainId)) as [[ttl config]|] eqn:Hcfg.
  - rewrite (getChainStats_run E chainId w ttl config Hcfg). cbn [fst snd].
    split; [reflexivity|]. split; [discriminate|].
    intros ttl' config' [= <- <-]. eexists. split; [reflexivity|].
    cbn [healthyUrls activeUrls totalSessions]. split; [apply filter_length_le|]. split.
    + unfold urlHealths_of. etransitivity; [apply filter_length_le | apply omap_length_le].
    + unfold countChainSessions. rewrite <- length_map_to_list. apply filter_length_le.
  - rewrite (getChainStats_missing E chainId w Hcfg). cbn [fst snd].
    split; [reflexivity|]. split; [reflexivity | discriminate].
Qed.

Lemma X13_getChainStats_bounds_witness :
  exists stats,
    fst (getChainStats Scenario.env_down 1 Scenario.world1) = Ok stats /\
    (healthyUrls stats <= activeUrls stats)%nat /\
    (activeUrls stats <= length (config_urls Scenario.chain1))%nat /\
    (totalSessions stats <= size (sessions Scenario.world1))%nat.
Proof.
  destruct (X13_getChainStats_bounds Scenario.env_down Scenario.world1 1) as (_ & _ & H).
  apply (H (Some 86400) Scenario.chain1). reflexivity.
Defined.

(** X14. When every health record sits under its own URL and the chain
    config lists no empty URL, the [healthyUrls] of the chain stats is the
    number of URLs the selector would retain, so the stats show a healthy
    URL exactly when [getHealthyRpcUrl] returns one. *)
Theorem X14_healthyUrls_agrees_with_selector (E : Env) (w : World) (chainId : Z)
    (ttl : option Z) (config : RpcConfig) :
  health_keyed w ->
  chains w !! chainKey (Some chainId) = Some (ttl, config) ->
  ~ In ""%string (config_urls config) ->
  exists stats,
    fst (getChainStats E chainId w) = Ok stats /\
    healthyUrls stats
      = length (List.filter (eligible E (health w)) (config_urls config)) /\
    ((0 < healthyUrls stats)%nat <-> exists u, fst (getHealthyRpcUrl E chainId w) = Ok u).
Proof.
  intros Hkeyed Hcfg Hne.
  rewrite (getChainStats_run E chainId w ttl config Hcfg). cbn [fst].
  eexists. split; [reflexivity|]. cbn [healthyUrls].
  rewrite (healthy_count_eligible E (health w) (config_urls config) Hkeyed Hne).
  split; [reflexivity|].
  unfold getHealthyRpcUrl, bind, getChainConfig, gets. rewrite Hcfg.
  cbn [fmap option_fmap option_map snd].
  destruct (List.filter (eligible E (health w)) (config_urls config)) as [|x l].
  - cbn [length Nat.eqb]. split; [lia|].
    intros [u Hu]. unfold throw in Hu.
    destruct (checkForceReload E w) as [[[]|e] w0]; discriminate.
  - cbn [length Nat.eqb]. split; [|lia]. intros _. eexists. reflexivity.
Qed.

Lemma X14_healthyUrls_agrees_with_selector_witness :
  exists stats,
    fst (getChainStats Scenario.env_down 1 Scenario.world1) = Ok stats /\
    healthyUrls stats
      = length (List.filter (eligible Scenario.env_down (health Scenario.world1))
                            (config_urls Scenario.chain1)) /\
    ((0 < healthyUrls stats)%nat <->
     exists u, fst (getHealthyRpcUrl Scenario.env_down 1 Scenario.world1) = Ok u).
Proof.
  apply (X14_healthyUrls_agrees_with_selector Scenario.env_down Scenario.world1 1
           (Some 86400) Scenario.chain1).
  - apply health_keyed_b_sound. vm_compute. reflexivity.
  - reflexivity.
  - cbn. intros [H|[H|[H|[]]]]; discriminate.
Defined.

Section UrlDetails.

Variable E : Env.

Lemma urlDetails_spec (healthData : gmap string RpcHealth) urls : forall w,
  exists details w',
    urlDetails E healthData urls w = (Ok details, w') /\
    Forall2 (detail_matches healthData) urls details /\
    same_kv w w' /\ unhealthyErrors w' = unhealthyErrors w /\ trace w' = trace w.
Proof.
  induction urls as [|url urls IH]; intros w.
  - exists [], w. cbn [urlDetails]. unfold ret.
    split; [reflexivity|]. split; [constructor|]. repeat split; reflexivity.
  - cbn [urlDetails]. unfold bind at 1.
    destruct (healthData !! url) as [h|] eqn:Hh.
    + unfold ret at 1. unfold bind at 1.
      destruct (IH w) as (details & w' & Hrun & Hall & Hkv & Hu & Ht).
      rewrite Hrun. eexists _, w'. unfold ret. split; [reflexivity|].
      split; [|auto]. constructor; [|exact Hall].
      unfold detail_matches. rewrite Hh. reflexivity.
    + unfold Date_now at 1. unfold bind at 1. unfold bind at 1. unfold fresh, ret at 1 2.
      unfold bind at 1.
      destruct (IH (set_tick (S (tick w)) w)) as (details & w' & Hrun & Hall & Hkv & Hu & Ht).
      rewrite Hrun. eexists _, w'. unfold ret. split; [reflexivity|].
      split; [|auto]. constructor; [|exact Hall].
      unfold detail_matches. rewrite Hh. repeat split; reflexivity.
Qed.

End UrlDetails.

(** X15. [getUrlDetails] fails with ["Chain not found"] for a chain without
    config.  Otherwise it returns one entry per URL of the chain config, in
    the config's order: for a URL with a health record the record's
    [healthy], [failCount], [responseTime] and [lastCheck]; for a URL without
    one [healthy = false], [failCount = 0] and [responseTime = 0].  It writes
    nothing to Redis. *)
Theorem X15_getUrlDetails (E : Env) (w : World) (chainId : Z) :
  same_kv w (snd (getUrlDetails E chainId w)) /\
  (chains w !! chainKey (Some chainId) = None ->
     fst (getUrlDetails E chainId w) = Throw (Error "Chain not found")) /\
  (forall ttl config, chains w !! chainKey (Some chainId) = Some (ttl, config) ->
     exists details,
       fst (getUrlDetails E chainId w) = Ok details /\
       Forall2 (detail_matches (health w)) (config_urls config) details).
Proof.
  unfold getUrlDetails, bind, getChainConfig, gets.
  destruct (chains w !! chainKey (Some chainId)) as [[ttl config]|] eqn:Hcfg;
    cbn [fmap option_fmap option_map snd].
  - destruct (urlDetails_spec E (health w) (config_urls config) w)
      as (details & w' & Hrun & Hall & Hkv & _).
    rewrite Hrun. cbn [fst snd]. split; [exact Hkv|]. split; [discriminate|].
    intros ttl' config' [= <- <-]. exists details. split; [reflexivity | exact Hall].
  - cbn [throw fst snd]. split; [repeat split; reflexivity|].
    split; [reflexivity | discriminate].
Qed.

Lemma X15_getUrlDetails_witness :
  exists details,
    fst (getUrlDetails Scenario.env_down 1 Scenario.world1) = Ok details /\
    Forall2 (detail_matches (health Scenario.world1)) (config_urls Scenario.chain1) details.
Proof.
  destruct (X15_getUrlDetails Scenario.env_down Scenario.world1 1) as (_ & _ & H).
  apply (H (Some 86400) Scenario.chain1). reflexivity.
Defined.

(** ** Listing the chains *)

Section SortFacts.

Context {A : Type} (key : A -> Z).

Lemma sort_insert_Permutation x l : Permutation (sort_insert key x l) (x :: l).
Proof.
  induction l as [|y l IH]; [reflexivity|].
  cbn [sort_insert]. destruct (key x <=? key y); [reflexivity|].
  rewrite IH. apply perm_swap.
Qed.

Lemma sort_by_Permutation l : Permutation (sort_by key l) l.
Proof.
  induction l as [|x l IH]; [reflexivity|].
  cbn [sort_by]. rewrite sort_insert_Permutation, IH. reflexivity.
Qed.

Lemma sort_insert_sorted x l :
  StronglySorted (fun a b => key a <= key b) l ->
  StronglySorted (fun a b => key a <= key b) (sort_insert key x l).
Proof.
  induction 1 as [|y l Hs IH Hall]; cbn [sort_insert].
  - repeat constructor.
  - destruct (Z.leb_spec (key x) (key y)) as [Hle|Hgt].
    + constructor; [constructor; assumption|].
      constructor; [exact Hle|].
      eapply Forall_impl; [exact Hall|]. cbn. intros b Hb. lia.
    + constructor; [exact IH|].
      rewrite sort_insert_Permutation. constructor; [lia | exact Hall].
Qed.

Lemma sort_by_sorted l : StronglySorted (fun a b => key a <= key b) (sort_by key l).
Proof.
  induction l as [|x l IH]; [constructor|].
  cbn [sort_by]. apply sort_insert_sorted. exact IH.
Qed.

End SortFacts.

(** X16. When every stored chain config has a [chainId],
    [getAllChainConfigs] returns each stored config exactly once, in
    ascending order of [chainId], and writes nothing. *)
Theorem X16_getAllChainConfigs_sorted (w : World) :
  forallb (fun c => is_Some_bool (config_chainId c)) (map_to_list (chains w)).*2.*2 = true ->
  exists configs,
    getAllChainConfigs w = (Ok (Some configs), w) /\
    Permutation configs (map_to_list (chains w)).*2.*2 /\
    StronglySorted chainId_le configs /\
    length configs = size (chains w).
Proof.
  intros Hall. unfold getAllChainConfigs, bind, gets. rewrite Hall.
  eexists. split; [reflexivity|]. split; [apply sort_by_Permutation|].
  split; [apply (sort_by_sorted (fun c => default 0 (config_chainId c)))|].
  rewrite (Permutation_length (sort_by_Permutation _ _)).
  rewrite !length_fmap. apply length_map_to_list.
Qed.

Lemma X16_getAllChainConfigs_sorted_witness :
  exists configs,
    getAllChainConfigs Scenario.world2 = (Ok (Some configs), Scenario.world2) /\
    Permutation configs (map_to_list (chains Scenario.world2)).*2.*2 /\
    StronglySorted chainId_le configs /\
    length configs = size (chains Scenario.world2).
Proof.
  apply (X16_getAllChainConfigs_sorted Scenario.world2).
  vm_compute. reflexivity.
Defined.

Example all_chains_in_order :
  fst (getAllChainConfigs Scenario.world2) = Ok (Some [Scenario.chain1; Scenario.chain137]).
Proof. vm_compute. reflexivity. Qed.

(** ** Polling the configuration file *)

(** X17. A firing of the config refresh does nothing at all when [fs.stat]
    fails or when the file's modification time is not later than the one
    last seen.  When no time has been seen yet, or the file's time is later
    than the one last seen, the firing remembers the file's time and runs
    [loadRpcConfig]: the world it leaves is the one the reload leaves, with
    the reload among its events.  The time is remembered before the reload
    is tried, so a second firing that sees the same time does nothing, even
    when the first reload failed: a file that could not be loaded is not
    tried again until it is modified. *)
Theorem X17_refresh_remembers_before_reload (E : Env) (w : World)
    (mtime : Z) (configLastModified : option Z) :
  let first := configRefreshTick E (Some mtime) configLastModified w in
  configRefreshTick E None configLastModified w = (configLastModified, w) /\
  (forall seen, configLastModified = Some seen -> mtime <= seen ->
     first = (Some seen, w)) /\
  ((forall seen, configLastModified = Some seen -> seen < mtime) ->
     first = (Some mtime, snd (loadRpcConfig E w)) /\
     exists rest, trace (snd first) = trace w ++ EvReload :: rest) /\
  configRefreshTick E (Some mtime) (fst first) (snd first) = first.
Proof.
  cbn zeta. unfold configRefreshTick, hasConfigChanged.
  split; [reflexivity|]. split; [|split].
  - intros seen -> Hle. destruct (Z.ltb_spec seen mtime); [lia | reflexivity].
  - intros Hnew.
    assert (Hrun : (let (hasChanged, configLastModified') :=
                      match configLastModified with
                      | Some last =>
                          if last <? mtime then (true, Some mtime)
                          else (false, configLastModified)
                      | None => (true, Some mtime)
                      end in
                    if hasChanged then (configLastModified', snd (loadRpcConfig E w))
                    else (configLastModified', w))
                   = (Some mtime, snd (loadRpcConfig E w))).
    { destruct configLastModified as [last|]; [|reflexivity].
      specialize (Hnew last eq_refl).
      destruct (Z.ltb_spec last mtime); [reflexivity | lia]. }
    rewrite Hrun. split; [reflexivity|]. cbn [snd].
    apply loadRpcConfig_frame.
  - destruct configLastModified as [last|].
    + destruct (Z.ltb_spec last mtime) as [Hlt|Hge]; cbn [fst snd].
      * rewrite Z.ltb_irrefl. reflexivity.
      * destruct (Z.ltb_spec last mtime); [lia | reflexivity].
    + cbn [fst snd]. rewrite Z.ltb_irrefl. reflexivity.
Qed.

(** The file is broken when first seen: the reload fails, and the next
    firing with the same modification time leaves everything alone. *)
Example broken_file_not_retried :
  configRefreshTick Scenario.env_broken_file (Some 700) None Scenario.world1
    = (Some 700, reload_started Scenario.world1) /\
  configRefreshTick Scenario.env_broken_file (Some 700) (Some 700)
      (reload_started Scenario.world1)
    = (Some 700, reload_started Scenario.world1).
Proof. split; reflexivity. Qed.

(** ** The collapse window *)

Section Window.

Variable E : Env.

Lemma getHealthyRpcUrl_window chainId w :
  (length (unhealthyErrors w) < ERROR_THRESHOLD)%nat ->
  (length (unhealthyErrors (snd (getHealthyRpcUrl E chainId w))) < ERROR_THRESHOLD)%nat.
Proof.
  intros Hw. unfold getHealthyRpcUrl. unfold bind at 1. unfold getChainConfig, gets at 1.
  destruct (chains w !! chainKey (Some chainId)) as [[ttl config]|];
    cbn [fmap option_fmap option_map snd]; [|exact Hw].
  unfold bind at 1. unfold gets at 1.
  destruct (_ =? _)%nat; [|exact Hw].
  unfold bind. rewrite checkForceReload_run.
  destruct (Nat.leb_spec ERROR_THRESHOLD (length (window_pushed E w))) as [Hfull|Hfew].
  - destruct (loadRpcConfig_frame E (set_unhealthyErrors [] (set_tick (S (tick w)) w)))
      as (_ & Hwin & _).
    destruct (loadRpcConfig E (set_unhealthyErrors [] (set_tick (S (tick w)) w)))
      as [[[]|e] w']; cbn [snd throw] in *; rewrite Hwin; cbn; unfold ERROR_THRESHOLD; lia.
  - cbn [snd throw set_unhealthyErrors unhealthyErrors]. exact Hfew.
Qed.

Lemma forward_window session w :
  unhealthyErrors (snd (forward E session w)) = unhealthyErrors w.
Proof.
  destruct (resolves (http E (tick w) (session_url session))) eqn:Hr.
  - destruct (http E (tick w) (session_url session)) as [|status data] eqn:Ho;
      [discriminate|].
    rewrite (forward_resolved E session w status data Ho Hr). reflexivity.
  - rewrite (forward_failed E session w Hr). reflexivity.
Qed.

Lemma createSession_window chainId w :
  (length (unhealthyErrors w) < ERROR_THRESHOLD)%nat ->
  (length (unhealthyErrors (snd (createSession E chainId w))) < ERROR_THRESHOLD)%nat.
Proof.
  intros Hw. pose proof (getHealthyRpcUrl_window chainId w Hw) as Hsel.
  destruct (fst (getHealthyRpcUrl E chainId w)) as [u|e] eqn:Hu.
  - rewrite (createSession_ok E chainId w u Hu). exact Hw.
  - rewrite (createSession_throw E chainId w e Hu). exact Hsel.
Qed.

End Window.

(** X18. The collapse window never holds three entries once a call is over:
    if it holds fewer than 3 before a selection, a session creation, an
    endpoint call or a request, it holds fewer than 3 after it, because the
    third entry clears it. *)
Theorem X18_window_stays_below_threshold (E : Env) (w : World) (chainId : Z) :
  (length (unhealthyErrors w) < ERROR_THRESHOLD)%nat ->
  (length (unhealthyErrors (snd (getHealthyRpcUrl E chainId w))) < ERROR_THRESHOLD)%nat /\
  (length (unhealthyErrors (snd (getEndpoint E chainId w))) < ERROR_THRESHOLD)%nat /\
  (forall rpcRequest sessionId,
     (length (unhealthyErrors (snd (executeRequest E chainId rpcRequest sessionId w)))
      < ERROR_THRESHOLD)%nat).
Proof.
  intros Hw. split; [apply getHealthyRpcUrl_window, Hw|]. split.
  - unfold getEndpoint, bind. pose proof (createSession_window E chainId w Hw) as Hc.
    destruct (createSession E chainId w) as [[session|e] w']; exact Hc.
  - intros rpcRequest sessionId. unfold executeRequest, bind.
    assert (Hres : (length (unhealthyErrors (snd (resolveSession E chainId sessionId w)))
                    < ERROR_THRESHOLD)%nat).
    { unfold resolveSession. destruct sessionId as [sid|];
        [|apply createSession_window, Hw].
      destruct (String.eqb sid ""); [apply createSession_window, Hw|].
      unfold bind at 1. unfold getSession, gets.
      destruct (snd <$> sessions w !! sessionKey sid) as [existing|]; [|exact Hw].
      destruct (negb _); [|exact Hw].
      unfold bind at 1. unfold deleteSession, modify.
      apply createSession_window. exact Hw. }
    destruct (resolveSession E chainId sessionId w) as [[session|e] w1]; cbn [snd] in *.
    + rewrite forward_window. exact Hres.
    + exact Hres.
Qed.

Lemma X18_window_stays_below_threshold_witness :
  (length (unhealthyErrors
             (snd (getHealthyRpcUrl Scenario.env_down 1 Scenario.world_collapsed)))
   < ERROR_THRESHOLD)%nat.
Proof.
  apply (X18_window_stays_below_threshold Scenario.env_down Scenario.world_collapsed 1).
  vm_compute. lia.
Defined.

Section ThreeFailures.

Variable E : Env.

Lemma failing_selection_step chainId w ttl config :
  chains w !! chainKey (Some chainId) = Some (ttl, config) ->
  List.filter (eligible E (health w)) (config_urls config) = [] ->
  (length (window_pushed E w) < ERROR_THRESHOLD)%nat ->
  getHealthyRpcUrl E chainId w =
  (Throw (Error ERROR_MESSAGES.NO_HEALTHY_RPC),
   set_unhealthyErrors (window_pushed E w) (set_tick (S (tick w)) w)).
Proof.
  intros Hcfg Hnone Hfew.
  rewrite (getHealthyRpcUrl_collapsed E w chainId ttl config Hcfg Hnone).
  rewrite checkForceReload_run.
  destruct (Nat.leb_spec ERROR_THRESHOLD (length (window_pushed E w))); [lia|].
  reflexivity.
Qed.

End ThreeFailures.

(** X19. With an empty window, a chain whose config is present and has no
    eligible URL, and three selections whose clock readings lie within ten
    seconds of each other: the first two fail with [NoHealthyRpc] without
    any reload, and the third one invokes the reload and leaves the window
    empty. *)
Theorem X19_third_failure_reloads (E : Env) (w : World) (chainId : Z)
    (ttl : option Z) (config : RpcConfig) :
  chains w !! chainKey (Some chainId) = Some (ttl, config) ->
  List.filter (eligible E (health w)) (config_urls config) = [] ->
  unhealthyErrors w = [] ->
  clock E (S (tick w)) - clock E (tick w) <= ERROR_TIME_WINDOW ->
  clock E (S (S (tick w))) - clock E (tick w) <= ERROR_TIME_WINDOW ->
  clock E (S (S (tick w))) - clock E (S (tick w)) <= ERROR_TIME_WINDOW ->
  let r1 := getHealthyRpcUrl E chainId w in
  let r2 := getHealthyRpcUrl E chainId (snd r1) in
  let r3 := getHealthyRpcUrl E chainId (snd r2) in
  fst r1 = Throw (Error ERROR_MESSAGES.NO_HEALTHY_RPC) /\
  fst r2 = Throw (Error ERROR_MESSAGES.NO_HEALTHY_RPC) /\
  trace (snd r2) = trace w /\
  unhealthyErrors (snd r2) = [clock E (tick w); clock E (S (tick w))] /\
  (exists rest, trace (snd r3) = trace w ++ EvReload :: rest) /\
  unhealthyErrors (snd r3) = [].
Proof.
  intros Hcfg Hnone Hwin H10 H20 H21. cbn zeta.
  assert (Hp1 : window_pushed E w = [clock E (tick w)]).
  { unfold window_pushed. rewrite Hwin. reflexivity. }
  rewrite (failing_selection_step E chainId w ttl config Hcfg Hnone)
    by (rewrite Hp1; cbn; unfold ERROR_THRESHOLD; lia).
  cbn [fst snd]. rewrite Hp1.
  set (w1 := set_unhealthyErrors [clock E (tick w)] (set_tick (S (tick w)) w)).
  assert (Hp2 : window_pushed E w1 = [clock E (tick w); clock E (S (tick w))]).
  { unfold window_pushed. cbn [w1 set_unhealthyErrors set_tick unhealthyErrors tick].
    rewrite filter_cons_True by exact H10. reflexivity. }
  rewrite (failing_selection_step E chainId w1 ttl config Hcfg Hnone)
    by (rewrite Hp2; cbn; unfold ERROR_THRESHOLD; lia).
  cbn [fst snd]. rewrite Hp2.
  set (w2 := set_unhealthyErrors [clock E (tick w); clock E (S (tick w))]
               (set_tick (S (tick w1)) w1)).
  assert (Hp3 : window_pushed E w2
                = [clock E (tick w); clock E (S (tick w)); clock E (S (S (tick w)))]).
  { unfold window_pushed. cbn [w2 w1 set_unhealthyErrors set_tick unhealthyErrors tick].
    rewrite filter_cons_True by exact H20.
    rewrite filter_cons_True by exact H21. reflexivity. }
  split; [reflexivity|]. split; [reflexivity|]. split; [reflexivity|].
  split; [reflexivity|].
  rewrite (getHealthyRpcUrl_collapsed E w2 chainId ttl config Hcfg Hnone).
  rewrite checkForceReload_run, Hp3. cbn [length Nat.leb ERROR_THRESHOLD].
  destruct (loadRpcConfig_frame E (set_unhealthyErrors [] (set_tick (S (tick w2)) w2)))
    as (_ & Hw' & rest & Htr).
  destruct (loadRpcConfig E (set_unhealthyErrors [] (set_tick (S (tick w2)) w2)))
    as [[[]|e] w']; cbn [snd] in *; (split; [exists rest; exact Htr | exact Hw']).
Qed.

Lemma X19_third_failure_reloads_witness :
  fst (getHealthyRpcUrl Scenario.env_down 1 Scenario.world_unhealthy)
    = Throw (Error ERROR_MESSAGES.NO_HEALTHY_RPC) /\
  exists rest,
    trace (snd (getHealthyRpcUrl Scenario.env_down 1
             (snd (getHealthyRpcUrl Scenario.env_down 1
                (snd (getHealthyRpcUrl Scenario.env_down 1 Scenario.world_unhealthy))))))
    = trace Scenario.world_unhealthy ++ EvReload :: rest.
Proof.
  destruct (X19_third_failure_reloads Scenario.env_down Scenario.world_unhealthy 1
              (Some 86400) Scenario.chain1) as (H1 & _ & _ & _ & H3 & _).
  - reflexivity.
  - vm_compute. reflexivity.
  - reflexivity.
  - vm_compute. discriminate.
  - vm_compute. discriminate.
  - vm_compute. discriminate.
  - split; [exact H1 | exact H3].
Defined.

(** X20. Failures older than ten seconds do not count towards a reload:
    when every entry of the window is more than [ERROR_TIME_WINDOW] before
    the current clock reading, a failed selection, however many entries
    there were, fails with [NoHealthyRpc] without a reload and leaves the
    window with its own entry only. *)
Theorem X20_old_failures_expire (E : Env) (w : World) (chainId : Z)
    (ttl : option Z) (config : RpcConfig) :
  chains w !! chainKey (Some chainId) = Some (ttl, config) ->
  List.filter (eligible E (health w)) (config_urls config) = [] ->
  (forall timestamp, In timestamp (unhealthyErrors w) ->
     ERROR_TIME_WINDOW < clock E (tick w) - timestamp) ->
  getHealthyRpcUrl E chainId w =
  (Throw (Error ERROR_MESSAGES.NO_HEALTHY_RPC),
   set_unhealthyErrors [clock E (tick w)] (set_tick (S (tick w)) w)).
Proof.
  intros Hcfg Hnone Hold.
  assert (Hp : window_pushed E w = [clock E (tick w)]).
  { unfold window_pushed.
    assert (Hnil : filter (fun timestamp => clock E (tick w) - timestamp <= ERROR_TIME_WINDOW)
                     (unhealthyErrors w) = []).
    { induction (unhealthyErrors w) as [|ts l IH]; [reflexivity|].
      rewrite filter_cons_False.
      - apply IH. intros t Ht. apply Hold. right. exact Ht.
      - specialize (Hold ts (or_introl eq_refl)). lia. }
    rewrite Hnil. reflexivity. }
  rewrite (failing_selection_step E chainId w ttl config Hcfg Hnone)
    by (rewrite Hp; cbn; unfold ERROR_THRESHOLD; lia).
  rewrite Hp. reflexivity.
Qed.

Lemma X20_old_failures_expire_witness :
  getHealthyRpcUrl Scenario2.env_frozen 1 Scenario.world_collapsed =
  (Throw (Error ERROR_MESSAGES.NO_HEALTHY_RPC),
   set_unhealthyErrors [5000000] (set_tick 1 Scenario.world_collapsed)).
Proof.
  apply (X20_old_failures_expire Scenario2.env_frozen Scenario.world_collapsed 1
           (Some 86400) Scenario.chain1).
  - reflexivity.
  - vm_compute. reflexivity.
  - cbn. intros timestamp [<-|[<-|[]]]; vm_compute; reflexivity.
Defined.

(** ** The HTTP surface *)

(** X21. The request validator accepts exactly the plain objects with
    [jsonrpc] equal to ["2.0"], a string [method], an [id] that is present
    (null counts as present) and [params] either absent or an array.  An
    array body (a JSON-RPC batch) and every primitive are refused. *)
Theorem X21_validateJsonRpcRequest (body : JsValue) :
  validateJsonRpcRequest body = true <->
  exists fields,
    body = JObj fields /\
    assoc_lookup "jsonrpc" fields = JStr "2.0" /\
    (exists method, assoc_lookup "method" fields = JStr method) /\
    assoc_lookup "id" fields <> JUndefined /\
    (assoc_lookup "params" fields = JUndefined \/
     exists items, assoc_lookup "params" fields = JArr items).
Proof.
  unfold validateJsonRpcRequest. split.
  - intros H. repeat (apply andb_true_iff in H; destruct H as [H ?]).
    destruct body as [| |b|n|s|items|fields]; try discriminate.
    exists fields. cbn [get_prop] in *. split; [reflexivity|].
    split.
    { destruct (assoc_lookup "jsonrpc" fields); try discriminate.
      f_equal. apply String.eqb_eq. assumption. }
    split.
    { destruct (assoc_lookup "method" fields); try discriminate. eauto. }
    split.
    { destruct (assoc_lookup "id" fields); [discriminate|..]; discriminate. }
    destruct (assoc_lookup "params" fields); try discriminate; eauto.
  - intros (fields & -> & Hj & (m & Hm) & Hid & Hp). cbn [truthy typeof_object get_prop andb].
    rewrite Hj, Hm. cbn.
    destruct (assoc_lookup "id" fields); [contradiction|..];
      (destruct Hp as [->|(params & ->)]; reflexivity).
Qed.

Example validator_scenarios :
  validateJsonRpcRequest
    (JObj [("jsonrpc"%string, JStr "1.0"); ("method"%string, JStr "x"); ("id"%string, JNum 1)])
    = false /\
  validateJsonRpcRequest
    (JObj [("jsonrpc"%string, JStr "2.0"); ("method"%string, JStr "eth_blockNumber");
           ("id"%string, JNull)]) = true /\
  validateJsonRpcRequest
    (JArr [JObj [("jsonrpc"%string, JStr "2.0"); ("method"%string, JStr "x");
                 ("id"%string, JNum 1)]]) = false.
Proof. repeat split; reflexivity. Qed.

(** X22. [POST /execute/:chainId], for a body that [express.json()] hands
    to the handler (an object or an array).  A body the validator refuses
    is answered 400 with ["Invalid JSON-RPC request"], before the chain id
    is even looked at: no session is read or created, no upstream is
    called, and nothing changes; a batch (an array) is always refused.
    With an accepted body the answer is 200 with the executor's reply when
    [executeRequest] returns, and 500 otherwise, also when the chain id
    does not parse. *)
Theorem X22_route_execute (E : Env) (w : World) (body : JsValue)
    (parsed : option Z) (sessionHeader : option string) :
  express_json_delivers body = true ->
  (validateJsonRpcRequest body = false ->
     route_execute E body parsed sessionHeader w
     = ({| reply_status := 400;
           reply_body := Json (JObj [("error"%string, JStr "Invalid JSON-RPC request")]) |},
        w)) /\
  ((exists items, body = JArr items) -> validateJsonRpcRequest body = false) /\
  (validateJsonRpcRequest body = true ->
     (parsed = None ->
        route_execute E body parsed sessionHeader w
        = ({| reply_status := 500; reply_body := ErrorReport (Error "Invalid chain ID") |}, w)) /\
     (forall chainId, parsed = Some chainId ->
        snd (route_execute E body parsed sessionHeader w)
          = snd (executeRequest E chainId body sessionHeader w) /\
        fst (route_execute E body parsed sessionHeader w)
          = match fst (executeRequest E chainId body sessionHeader w) with
            | Ok result => {| reply_status := 200; reply_body := Json result |}
            | Throw e => {| reply_status := 500; reply_body := ErrorReport e |}
            end)).
Proof.
  intros _. unfold route_execute. split; [|split].
  - intros ->. reflexivity.
  - intros (items & ->). reflexivity.
  - intros ->. cbn [negb]. split.
    + intros ->. reflexivity.
    + intros chainId ->. cbn [extractChainId].
      destruct (executeRequest E chainId body sessionHeader w) as [[result|e] w'];
        split; reflexivity.
Qed.

(** A request without a JSON body reaches the handler with the empty
    object, and a batch with its array: both are answered 400 and leave the
    world as it is. *)
Lemma X22_route_execute_witness :
  route_execute Scenario.env_down (JObj []) (Some 1) None Scenario.world1
    = ({| reply_status := 400;
          reply_body := Json (JObj [("error"%string, JStr "Invalid JSON-RPC request")]) |},
       Scenario.world1) /\
  route_execute Scenario.env_down (JArr [Scenario.error_body]) (Some 1) None Scenario.world1
    = ({| reply_status := 400;
          reply_body := Json (JObj [("error"%string, JStr "Invalid JSON-RPC request")]) |},
       Scenario.world1).
Proof.
  split.
  - destruct (X22_route_execute Scenario.env_down Scenario.world1 (JObj []) (Some 1) None
                eq_refl) as (H & _).
    apply H. reflexivity.
  - destruct (X22_route_execute Scenario.env_down Scenario.world1
                (JArr [Scenario.error_body]) (Some 1) None eq_refl) as (H & Hbatch & _).
    apply H. apply Hbatch. eexists. reflexivity.
Defined.

(** X23. [GET /endpoint/:chainId] answers 200 with the selected URL when
    [getEndpoint] returns, and 500 in every other case: the errors of the
    service carry no status of their own.  In particular a chain without
    config is answered 500 with ["Chain not found"], and nothing changes. *)
Theorem X23_route_endpoint (E : Env) (w : World) (parsed : option Z) :
  (reply_status (fst (route_endpoint E parsed w)) = 200 \/
   reply_status (fst (route_endpoint E parsed w)) = 500) /\
  (reply_status (fst (route_endpoint E parsed w)) = 200 <->
   exists chainId url, parsed = Some chainId /\ fst (getEndpoint E chainId w) = Ok url) /\
  (forall chainId, parsed = Some chainId ->
     chains w !! chainKey (Some chainId) = None ->
     route_endpoint E parsed w
     = ({| reply_status := 500; reply_body := ErrorReport (Error "Chain not found") |}, w)).
Proof.
  unfold route_endpoint. destruct parsed as [chainId|]; cbn [extractChainId].
  - split; [|split].
    + destruct (getEndpoint E chainId w) as [[url|e] w']; [left | right]; reflexivity.
    + destruct (getEndpoint E chainId w) as [[url|e] w'] eqn:Hrun;
        cbn [fst reply_status errorHandler plain err_status].
      * split; [intros _; exists chainId, url; rewrite Hrun; split; reflexivity
               | reflexivity].
      * split; [discriminate|]. intros (c & u & [= <-] & Hu).
        rewrite Hrun in Hu. discriminate.
    + intros c [= <-] Hcfg.
      unfold getEndpoint, createSession, getHealthyRpcUrl, bind, getChainConfig, gets.
      rewrite Hcfg. reflexivity.
  - split; [right; reflexivity|]. split; [|discriminate].
    split; [discriminate | intros (c & u & [=] & _)].
Qed.

Lemma X23_route_endpoint_witness :
  route_endpoint Scenario.env_down (Some 137) Scenario.world1
  = ({| reply_status := 500; reply_body := ErrorReport (Error "Chain not found") |},
     Scenario.world1).
Proof.
  destruct (X23_route_endpoint Scenario.env_down Scenario.world1 (Some 137)) as (_ & _ & H).
  apply (H 137); reflexivity.
Defined.

(** ** Hexadecimal results in general *)

Module HexFacts.
Import Digits.
Local Open Scope N_scope.

Lemma hex_digit_value c : isHexDigit c = true -> exists d, digitValue c = Some d /\ d < 16.
Proof.
  unfold isHexDigit, digitValue. set (k := N_of_ascii c).
  destruct (N.leb_spec 48 k), (N.leb_spec k 57); cbn [andb is_Some_bool];
    try (intros _; eexists; split; [reflexivity | lia]);
    destruct (N.leb_spec 97 k), (N.leb_spec k 102); cbn [andb is_Some_bool];
    try (intros _; eexists; split; [reflexivity | lia]);
    destruct (N.leb_spec 65 k), (N.leb_spec k 70); cbn [andb is_Some_bool];
    try (intros _; eexists; split; [reflexivity | lia]); discriminate.
Qed.

Lemma hex_digit_not_space c : isHexDigit c = true -> isStrWhiteSpaceChar c = false.
Proof.
  unfold isHexDigit, digitValue, isStrWhiteSpaceChar. set (k := N_of_ascii c).
  intros H.
  assert (Hk : 48 <= k) .
  { destruct (N.leb_spec 48 k); [assumption|]. cbn [andb] in H.
    destruct (N.leb_spec 97 k); [lia|]. cbn [andb] in H.
    destruct (N.leb_spec 65 k); [lia|]. discriminate. }
  assert (Hk' : k <= 102).
  { destruct (N.leb_spec 48 k), (N.leb_spec k 57); cbn [andb] in H; try lia;
    destruct (N.leb_spec 97 k), (N.leb_spec k 102); cbn [andb] in H; try lia;
    destruct (N.leb_spec 65 k), (N.leb_spec k 70); cbn [andb] in H; try lia;
    discriminate. }
  destruct (N.leb_spec 9 k), (N.leb_spec k 13), (N.eqb_spec k 32), (N.eqb_spec k 160);
    cbn; try reflexivity; lia.
Qed.

Lemma trimEnd_hex s : allChars isHexDigit s = true -> trimEnd s = s.
Proof.
  induction s as [|c s IH]; [reflexivity|].
  cbn [allChars]. intros H. apply andb_true_iff in H. destruct H as [Hc Hs].
  cbn [trimEnd]. rewrite (IH Hs).
  destruct s; [|reflexivity]. rewrite (hex_digit_not_space c Hc). reflexivity.
Qed.

Lemma trimEnd_spaces ws : allChars isStrWhiteSpaceChar ws = true -> trimEnd ws = EmptyString.
Proof.
  induction ws as [|c ws IH]; [reflexivity|].
  cbn [allChars]. intros H. apply andb_true_iff in H. destruct H as [Hc Hs].
  cbn [trimEnd]. rewrite (IH Hs), Hc. reflexivity.
Qed.

Lemma trimEnd_cons c rest :
  trimEnd (String c rest) =
  match trimEnd rest with
  | EmptyString => if isStrWhiteSpaceChar c then EmptyString else String c EmptyString
  | String c' rest' => String c (String c' rest')
  end.
Proof. cbn [trimEnd]. destruct (trimEnd rest); reflexivity. Qed.

Lemma trimEnd_append_spaces s ws :
  allChars isStrWhiteSpaceChar ws = true ->
  trimEnd (s +:+ ws) = trimEnd s.
Proof.
  intros Hws. induction s as [|c s IH].
  - apply trimEnd_spaces, Hws.
  - change (String c s +:+ ws)%string with (String c (s +:+ ws)).
    rewrite !trimEnd_cons, IH. reflexivity.
Qed.

Lemma parseDigits_hex s : forall acc,
  allChars isHexDigit s = true -> exists n, parseDigits 16 s acc = Some n.
Proof.
  induction s as [|c s IH]; intros acc H; [eexists; reflexivity|].
  cbn [allChars] in H. apply andb_true_iff in H. destruct H as [Hc Hs].
  destruct (hex_digit_value c Hc) as (d & Hd & Hlt).
  cbn [parseDigits]. rewrite Hd. destruct (N.ltb_spec d 16); [|lia].
  apply IH, Hs.
Qed.

End HexFacts.

(** X24. Every [result] made of ["0x"], one or more hexadecimal digits in
    either case (leading zeros allowed) and any trailing white space is
    converted: [BigInt] accepts it, its value is the number the digits stand
    for, and the formatted reply carries that number in decimal. *)
Theorem X24_hex_result_any_case (digits ws : string) :
  digits <> ""%string ->
  allChars isHexDigit digits = true ->
  allChars Digits.isStrWhiteSpaceChar ws = true ->
  exists n,
    Digits.parseDigits 16 digits 0 = Some n /\
    Digits.BigInt_0x (String "0" (String "x" (digits +:+ ws))) = Some n /\
    forall fields sessionId,
      assoc_lookup "result" fields = JStr (String "0" (String "x" (digits +:+ ws))) ->
      get_prop (formatRpcResponse (JObj fields) sessionId) "result"
        = JStr (Digits.toStringRadix 10 n).
Proof.
  intros Hne Hhex Hws.
  destruct (HexFacts.parseDigits_hex digits 0%N Hhex) as (n & Hn).
  assert (Hbig : Digits.BigInt_0x (String "0" (String "x" (digits +:+ ws))) = Some n).
  { unfold Digits.BigInt_0x. cbn [Digits.drop0x].
    rewrite (HexFacts.trimEnd_append_spaces digits ws Hws), (HexFacts.trimEnd_hex digits Hhex).
    destruct digits; [contradiction | exact Hn]. }
  exists n. split; [exact Hn|]. split; [exact Hbig|].
  intros fields sessionId Hres. unfold formatRpcResponse.
  cbn [truthy typeof_object negb orb get_prop]. rewrite Hres.
  cbn [Digits.startsWith0x]. rewrite Hbig. reflexivity.
Qed.

Lemma X24_hex_result_any_case_witness :
  exists n,
    Digits.parseDigits 16 "00Ff" 0 = Some n /\
    Digits.BigInt_0x (String "0" (String "x" ("00Ff" +:+ " "))) = Some n /\
    forall fields sessionId,
      assoc_lookup "result" fields = JStr (String "0" (String "x" ("00Ff" +:+ " "))) ->
      get_prop (formatRpcResponse (JObj fields) sessionId) "result"
        = JStr (Digits.toStringRadix 10 n).
Proof.
  apply (X24_hex_result_any_case "00Ff" " "); [discriminate | reflexivity | reflexivity].
Defined.

Example hex_upper_case :
  get_prop (formatRpcResponse (JObj [("result"%string, JStr "0x00Ff ")]) "s") "result"
  = JStr "255".
Proof. vm_compute. reflexivity. Qed.

(** ** Sessions outlive reloads *)

Section Outlive.

Variable E : Env.

Lemma forward_trace session w :
  exists rest, trace (snd (forward E session w)) = trace w ++ EvPost (session_url session) :: rest.
Proof.
  destruct (resolves (http E (tick w) (session_url session))) eqn:Hr.
  - destruct (http E (tick w) (session_url session)) as [|status data] eqn:Ho;
      [discriminate|].
    rewrite (forward_resolved E session w status data Ho Hr). exists []. reflexivity.
  - rewrite (forward_failed E session w Hr). exists [EvProbe (session_url session)].
    cbn [snd after_probe posted trace set_tick set_trace]. rewrite <- app_assoc. reflexivity.
Qed.

End Outlive.

(** X25. Only the executor and the sweep write the session store: a reload,
    a firing of the health check and a firing of the config refresh leave
    every session in place.  So a session stays pinned to its URL even when
    a reload has removed that URL from every chain: the next request with
    that session id is still forwarded to it. *)
Theorem X25_sessions_outlive_reload (E : Env) (w : World) (chainId : Z)
    (rpcRequest : JsValue) (s : string) (ttl : Z) (old : RpcSession) :
  s <> ""%string ->
  sessions w !! sessionKey s = Some (ttl, old) ->
  session_chainId old = chainId ->
  let w' := snd (loadRpcConfig E w) in
  sessions w' = sessions w /\
  sessions (snd (healthCheckTick E w)) = sessions w /\
  (forall stat last, sessions (snd (configRefreshTick E stat last w)) = sessions w) /\
  exists rest,
    trace (snd (executeRequest E chainId rpcRequest (Some s) w'))
    = trace w' ++ EvPost (session_url old) :: rest.
Proof.
  intros Hne Hs Hc. cbn zeta.
  assert (Hload : sessions (snd (loadRpcConfig E w)) = sessions w)
    by (apply (preserves_loadRpcConfig (fun w0 => sessions w0 = sessions w)); reflexivity).
  split; [exact Hload|]. split.
  { rewrite healthCheckTick_run. cbn [snd].
    apply (stable_after_probes (fun w0 => sessions w0 = sessions w)). reflexivity. }
  split.
  { intros stat last. unfold configRefreshTick.
    destruct (hasConfigChanged stat last) as [[|] last']; cbn [snd]; [exact Hload | reflexivity]. }
  unfold executeRequest, bind.
  rewrite (resolveSession_reuse E chainId s (snd (loadRpcConfig E w)) ttl old Hne);
    [|rewrite Hload; exact Hs | exact Hc].
  apply forward_trace.
Qed.

Lemma X25_sessions_outlive_reload_witness :
  sessions (snd (loadRpcConfig Scenario.env_no_name Scenario.world1))
    = sessions Scenario.world1 /\
  exists rest,
    trace (snd (executeRequest Scenario.env_no_name 1 (JObj []) (Some "s1"%string)
             (snd (loadRpcConfig Scenario.env_no_name Scenario.world1))))
    = trace (snd (loadRpcConfig Scenario.env_no_name Scenario.world1))
      ++ EvPost (session_url Scenario.session1) :: rest.
Proof.
  destruct (X25_sessions_outlive_reload Scenario.env_no_name Scenario.world1 1 (JObj [])
              "s1" 3600 Scenario.session1) as (Hs & _ & _ & Hpost).
  - discriminate.
  - reflexivity.
  - reflexivity.
  - split; [exact Hs | exact Hpost].
Defined.

(** ** Eligibility *)

(** X26. While every healthy record has [failCount = 0] and [maxFailCount]
    is at least 1, the [failCount] threshold never decides: a URL is
    eligible exactly when it has a record with [healthy = true]. *)
Theorem X26_eligible_iff_healthy (E : Env) (w : World) (url : string) :
  health_inv w ->
  0 < maxFailCount E ->
  (eligible E (health w) url = true <->
   exists h, health w !! url = Some h /\ healthy h = true).
Proof.
  intros Hinv Hmax. rewrite eligible_spec. split.
  - intros (h & Hh & Hhealthy & _). eauto.
  - intros (h & Hh & Hhealthy). exists h. split; [exact Hh|]. split; [exact Hhealthy|].
    rewrite (Hinv url h Hh Hhealthy). exact Hmax.
Qed.

Lemma X26_eligible_iff_healthy_witness :
  eligible Scenario.env_down (health Scenario.world1) "A" = true <->
  exists h, health Scenario.world1 !! "A"%string = Some h /\ healthy h = true.
Proof.
  apply (X26_eligible_iff_healthy Scenario.env_down Scenario.world1 "A").
  - apply health_inv_b_sound. vm_compute. reflexivity.
  - vm_compute. reflexivity.
Defined.

(** X27. With [maxFailCount] at least 1, a URL is eligible right after its
    probe exactly when the probe was successful (HTTP 200 with a defined
    [result]): one unsuccessful probe takes the URL out of selection,
    whatever its earlier record, and one successful probe puts it back.
    The eligibility of every other URL is as before the probe. *)
Theorem X27_probe_decides_eligibility (E : Env) (w : World) (url : string) :
  0 < maxFailCount E ->
  let w' := snd (checkHealth E url w) in
  eligible E (health w') url = probe_successful (http E (S (tick w)) url) /\
  forall other, other <> url ->
    eligible E (health w') other = eligible E (health w) other.
Proof.
  intros Hmax. cbn zeta. rewrite checkHealth_run. cbn [snd after_probe health].
  split.
  - unfold eligible. rewrite lookup_insert_eq.
    unfold probe_record. cbn [healthy failCount].
    destruct (probe_successful (http E (S (tick w)) url)) eqn:Hs; [|reflexivity].
    destruct (resolves (http E (S (tick w)) url)) eqn:Hr.
    + cbn [andb]. apply Z.ltb_lt. exact Hmax.
    + rewrite (not_resolves_not_successful _ Hr) in Hs. discriminate.
  - intros other Hne. unfold eligible. rewrite lookup_insert_ne by congruence.
    reflexivity.
Qed.

Lemma X27_probe_decides_eligibility_witness :
  eligible Scenario.env_error_200
    (health (snd (checkHealth Scenario.env_error_200 "A" Scenario.world1))) "A"
  = probe_successful (http Scenario.env_error_200 (S (tick Scenario.world1)) "A").
Proof.
  apply (X27_probe_decides_eligibility Scenario.env_error_200 Scenario.world1 "A").
  vm_compute. reflexivity.
Defined.

(** ** Consecutive failures *)

Lemma rejected_probes_count (E : Env) (url : string) (k : nat) : forall w,
  (forall t, resolves (http E t url) = false) ->
  failCount_of (after_probes E (replicate k url) w) url = failCount_of w url + Z.of_nat k.
Proof.
  induction k as [|k IH]; intros w Hrej.
  - cbn. lia.
  - change (after_probes E (replicate (S k) url) w)
      with (after_probes E (replicate k url) (after_probe E url w)).
    rewrite (IH _ Hrej).
    unfold failCount_of at 1. cbn [after_probe health]. rewrite lookup_insert_eq.
    unfold probe_record. cbn [failCount]. rewrite Hrej.
    unfold failCount_of. destruct (health w !! url); lia.
Qed.

(** X28. Probes that axios rejects (no answer, or a status outside 2xx) are
    counted one by one: after [k] such probes of a URL in a row its
    [failCount] is the earlier one plus [k] ([k] itself for a URL that had
    no record), and from the first of them on the record says
    [healthy = false]. *)
Theorem X28_rejected_probes_are_counted (E : Env) (w : World) (url : string) (k : nat) :
  (forall t, resolves (http E t url) = false) ->
  let w' := snd (forEach (fun u => checkHealth E u ;; ret tt) (replicate (S k) url) w) in
  exists h,
    health w' !! url = Some h /\
    healthy h = false /\
    failCount h = failCount_of w url + Z.of_nat (S k).
Proof.
  intros Hrej. cbn zeta. rewrite forEach_checkHealth_run. cbn [snd].
  pose proof (rejected_probes_count E url (S k) w Hrej) as Hcount.
  assert (Hin : url ∈ replicate (S k) url) by (cbn; left).
  destruct (after_probes_rewritten E (replicate (S k) url) w url Hin) as (w0 & Hw0).
  exists (probe_record E url w0). split; [exact Hw0|]. split.
  - unfold probe_record. cbn [healthy]. apply not_resolves_not_successful, Hrej.
  - unfold failCount_of in Hcount at 1. rewrite Hw0 in Hcount. exact Hcount.
Qed.

Lemma X28_rejected_probes_are_counted_witness :
  exists h,
    health (snd (forEach (fun u => checkHealth Scenario.env_down u ;; ret tt)
                   (replicate 3 "C"%string) Scenario.world1)) !! "C"%string = Some h /\
    healthy h = false /\
    failCount h = failCount_of Scenario.world1 "C" + Z.of_nat 3.
Proof.
  apply (X28_rejected_probes_are_counted Scenario.env_down Scenario.world1 "C" 2).
  intros t. reflexivity.
Defined.
